(** * Keypoint re-localisation and measurement engine (measurment2.py)

    A shallow embedding of [LiveKeypointDistanceMeasurer] and the
    properties its specification states about it.

    Numbers.  The program mixes Python ints, Python floats and numpy
    float32 values.  Pixel indices that the code forces through [int(..)]
    are integers ([Z]); every other number is idealised as a real number
    ([R]): rounding error of the floating-point operations is not
    modelled, and [math.sqrt] is the real square root. *)

From Stdlib Require Import Reals Lra Lia ZArith String List.
From Stdlib Require Import DecimalString DecimalZ.
From stdpp Require Import gmap strings sorting.

Local Open Scope Z_scope.
Local Open Scope R_scope.

(** ** Data model *)

(** A keypoint or transferred position, the Python list [[x, y]]. *)
Abbreviation point := (R * R)%type.

(** [[-1, -1]], the position of a keypoint that could not be located. *)
Definition sentinel : point := (-1, -1).

(** [self.current_side == 'front'] or not. *)
Inductive side : Set := Front | Back.

(** The strings stored in [self.qc_results]. *)
Inductive verdict : Set := PASS | FAIL.

(** A raster image: its shape and its grey levels by row and column. *)
Record image : Type := Image {
  shape_h : Z;
  shape_w : Z;
  pixels : Z -> Z -> Z
}.

(** ** Python helpers *)

Module Py.

(** [int(x)] on a number: truncation towards zero. *)
Definition int (x : R) : Z :=
  if Rle_dec 0 x then Int_part x else (- Int_part (- x))%Z.

(** [str(k)] for an int, as [json.dump] spells a dict key. *)
Definition str (k : Z) : string := NilZero.string_of_int (Z.to_int k).

(** [int(s)] for a string: an optional minus sign and decimal digits;
    [None] stands for [ValueError].  (The other spellings Python accepts,
    such as surrounding blanks or a plus sign, are not modelled and are
    refused.) *)
Definition int_of_str (s : string) : option Z :=
  Z.of_int <$> NilZero.int_of_string s.

(** [range(start, stop, step)] for a positive step, [fuel] bounding the
    number of elements. *)
Fixpoint range_from (fuel : nat) (start stop step : Z) : list Z :=
  match fuel with
  | O => []
  | S fuel' =>
      if (start <? stop)%Z
      then start :: range_from fuel' (start + step) stop step
      else []
  end.

Definition range (start stop step : Z) : list Z :=
  range_from (Z.to_nat (stop - start)) start stop step.

(** Rounding to the nearest integer, ties to the even one. *)
Definition round_half_even (r : R) : Z :=
  let below := Int_part r in
  let rest := r - IZR below in
  if Rlt_dec rest (1 / 2) then below
  else if Rlt_dec (1 / 2) rest then (below + 1)%Z
  else if Z.even below then below else (below + 1)%Z.

(** [round(x, 2)]. *)
Definition round2 (x : R) : R := IZR (round_half_even (x * 100)) / 100.

(** [l[i]] for an int [i]: a negative index counts from the end, and
    [None] stands for [IndexError]. *)
Definition index {A : Type} (l : list A) (i : Z) : option A :=
  if (0 <=? i)%Z then l !! Z.to_nat i
  else if (- Z.of_nat (length l) <=? i)%Z
       then l !! Z.to_nat (Z.of_nat (length l) + i)
       else None.

End Py.

(** ** JSON documents *)

#[local] Set Warnings "-register-all".

(** A decoded document.  [JObj] lists the items of the dict that
    [json.load] returns, in insertion order. *)
Inductive json : Type :=
| JNull
| JBool (b : bool)
| JNum (r : R)
| JStr (s : string)
| JArr (items : list json)
| JObj (fields : list (string * json)).

Module Json.

(** [obj.get(key, default)] on a decoded object (should a key be listed
    twice, its last value counts, as for [json.load]). *)
Fixpoint get (key : string) (default : json) (fields : list (string * json))
  : json :=
  match fields with
  | [] => default
  | (k, v) :: rest =>
      get key (if String.eqb k key then v else default) rest
  end.

Definition of_point (p : point) : json := JArr [JNum (fst p); JNum (snd p)].

Definition of_points (ps : list point) : json := JArr (of_point <$> ps).

Definition of_numbers (xs : list R) : json := JArr (JNum <$> xs).

(** A dict with int keys: [json.dump] writes every key as [str(key)]. *)
Definition of_targets (m : gmap Z R) : json :=
  JObj ((fun kv => (Py.str (fst kv), JNum (snd kv))) <$> map_to_list m).

Definition to_number (j : json) : option R :=
  match j with JNum r => Some r | _ => None end.

Definition to_point (j : json) : option point :=
  match j with
  | JArr [JNum x; JNum y] => Some (x, y)
  | _ => None
  end.

Definition to_points (j : json) : option (list point) :=
  match j with
  | JArr items => mapM to_point items
  | _ => None
  end.

Definition to_numbers (j : json) : option (list R) :=
  match j with
  | JArr items => mapM to_number items
  | _ => None
  end.

End Json.

(** ** The measurer object and the files it works on *)

(** What a path of the file system holds: a JSON document, an image, or
    anything else (a JSON text that was cut short, for instance), which
    neither [json.load] nor [cv2.imread] can read. *)
Inductive file : Type :=
| FJson (doc : json)
| FImage (img : image)
| FOther.

Abbreviation disk := (gmap string file).

(** The fields of [LiveKeypointDistanceMeasurer] that annotation handling
    and quality control read or write. *)
Record measurer : Type := Measurer {
  keypoints : list point;
  back_keypoints : list point;
  target_distances : gmap Z R;
  back_target_distances : gmap Z R;
  placement_box : list R;
  current_side : side;
  reference_image : option image;
  reference_gray : option image;
  back_reference_image : option image;
  back_reference_gray : option image;
  qc_tolerance_cm : R;
  qc_results : gmap Z verdict;
  annotation_file : string;
  back_annotation_file : string;
  reference_image_file : string;
  back_reference_image_file : string
}.

Definition set_target_distances (m : gmap Z R) (s : measurer) : measurer :=
  Measurer (keypoints s) (back_keypoints s) m (back_target_distances s)
    (placement_box s) (current_side s) (reference_image s) (reference_gray s)
    (back_reference_image s) (back_reference_gray s) (qc_tolerance_cm s)
    (qc_results s) (annotation_file s) (back_annotation_file s)
    (reference_image_file s) (back_reference_image_file s).

Definition set_back_target_distances (m : gmap Z R) (s : measurer)
  : measurer :=
  Measurer (keypoints s) (back_keypoints s) (target_distances s) m
    (placement_box s) (current_side s) (reference_image s) (reference_gray s)
    (back_reference_image s) (back_reference_gray s) (qc_tolerance_cm s)
    (qc_results s) (annotation_file s) (back_annotation_file s)
    (reference_image_file s) (back_reference_image_file s).

Definition set_qc_results (q : gmap Z verdict) (s : measurer) : measurer :=
  Measurer (keypoints s) (back_keypoints s) (target_distances s)
    (back_target_distances s) (placement_box s) (current_side s)
    (reference_image s) (reference_gray s) (back_reference_image s)
    (back_reference_gray s) (qc_tolerance_cm s) q (annotation_file s)
    (back_annotation_file s) (reference_image_file s)
    (back_reference_image_file s).

(** The three fields [load_annotation] assigns from the file. *)
Definition set_annotation (kps : list point) (tds : gmap Z R) (box : list R)
    (s : measurer) : measurer :=
  Measurer kps (back_keypoints s) tds (back_target_distances s) box
    (current_side s) (reference_image s) (reference_gray s)
    (back_reference_image s) (back_reference_gray s) (qc_tolerance_cm s)
    (qc_results s) (annotation_file s) (back_annotation_file s)
    (reference_image_file s) (back_reference_image_file s).

Definition set_reference (img gray : option image) (s : measurer)
  : measurer :=
  Measurer (keypoints s) (back_keypoints s) (target_distances s)
    (back_target_distances s) (placement_box s) (current_side s) img gray
    (back_reference_image s) (back_reference_gray s) (qc_tolerance_cm s)
    (qc_results s) (annotation_file s) (back_annotation_file s)
    (reference_image_file s) (back_reference_image_file s).

(** The object [__init__] builds, for the fields above. *)
Definition new_measurer : measurer :=
  Measurer [] [] ∅ ∅ [] Front None None None None 100 ∅
    "annotation_data.json" "back_annotation_data.json"
    "reference_image.jpg" "back_reference_image.jpg".

(** [self.keypoints if self.current_side == 'front' else
    self.back_keypoints], and the same choice for the targets. *)
Definition current_keypoints (s : measurer) : list point :=
  match current_side s with
  | Front => keypoints s
  | Back => back_keypoints s
  end.

Definition current_target_distances (s : measurer) : gmap Z R :=
  match current_side s with
  | Front => target_distances s
  | Back => back_target_distances s
  end.

(** ** Saving and loading annotations *)

(** The document [save_annotation] dumps; [now] is
    [str(np.datetime64('now'))]. *)
Definition annotation_data (now : string) (s : measurer) : json :=
  JObj [ ("keypoints"%string, Json.of_points (keypoints s));
         ("target_distances"%string, Json.of_targets (target_distances s));
         ("placement_box"%string, Json.of_numbers (placement_box s));
         ("annotation_date"%string, JStr now) ].

Definition back_annotation_data (now : string) (s : measurer) : json :=
  JObj [ ("keypoints"%string, Json.of_points (back_keypoints s));
         ("target_distances"%string,
           Json.of_targets (back_target_distances s));
         ("annotation_date"%string, JStr now) ].

(** [save_reference_image]: writes the image when there is one. *)
Definition save_reference_image (s : measurer) (d : disk) : bool * disk :=
  match reference_image s with
  | Some img => (true, <[reference_image_file s := FImage img]> d)
  | None => (false, d)
  end.

Definition save_back_reference_image (s : measurer) (d : disk)
  : bool * disk :=
  match back_reference_image s with
  | Some img => (true, <[back_reference_image_file s := FImage img]> d)
  | None => (false, d)
  end.

(** [save_annotation]: dumps the document, then saves the reference image
    and returns whether that succeeded. *)
Definition save_annotation (now : string) (s : measurer) (d : disk)
  : bool * disk :=
  save_reference_image s (<[annotation_file s := FJson (annotation_data now s)]> d).

Definition save_back_annotation (now : string) (s : measurer) (d : disk)
  : bool * disk :=
  save_back_reference_image s
    (<[back_annotation_file s := FJson (back_annotation_data now s)]> d).

(** [load_reference_image]: [cv2.imread] of the reference file; the grey
    version is kept beside it. *)
Definition load_reference_image (s : measurer) (d : disk) : bool * measurer :=
  match d !! reference_image_file s with
  | Some (FImage img) => (true, set_reference (Some img) (Some img) s)
  | Some (FJson _) | Some FOther =>
      (false, set_reference None (reference_gray s) s)
  | None => (false, s)
  end.

(** [{int(k): float(v) for k, v in ...items()}], a later item replacing
    an earlier one with the same key; [None] when a key is not the decimal
    spelling of an integer or a value is not a JSON number. *)
Definition to_targets (j : json) : option (gmap Z R) :=
  match j with
  | JObj fields =>
      list_to_map <$>
        mapM (fun kv => k ← Py.int_of_str (fst kv);
                        v ← Json.to_number (snd kv);
                        Some (k, v)) (reverse fields)
  | _ => None
  end.

(** [load_annotation]: the method's return value and the updated object.
    The result is [None] when the file holds data that the typed fields
    above cannot hold (keypoints that are not pairs of numbers, target keys
    that are not integers, ...), which Python would leave in the fields as
    raw JSON data. *)
Definition load_annotation (s : measurer) (d : disk)
  : option (bool * measurer) :=
  match d !! annotation_file s with
  | None => Some (false, s)
  | Some (FImage _) | Some FOther => Some (false, s)
  | Some (FJson (JObj fields)) =>
      kps ← Json.to_points (Json.get "keypoints" (JArr []) fields);
      tds ← to_targets (Json.get "target_distances" (JObj []) fields);
      box ← Json.to_numbers (Json.get "placement_box" (JArr []) fields);
      let s' := set_annotation kps tds box s in
      match kps with
      | [] => Some (false, s')
      | _ :: _ => Some (load_reference_image s' d)
      end
  | Some (FJson _) => Some (false, s)
  end.

(** ** Quality control *)

(** [check_qc(pair_num, measured_distance)]: the verdict, the object and
    the file system afterwards. *)
Definition check_qc (now : string) (pair_num : Z) (measured_distance : R)
    (s : measurer) (d : disk) : bool * measurer * disk :=
  match current_target_distances s !! pair_num with
  | None =>
      match current_side s with
      | Front =>
          let s' := set_target_distances
                      (<[pair_num := measured_distance]> (target_distances s)) s in
          (true, s', snd (save_annotation now s' d))
      | Back =>
          let s' := set_back_target_distances
                      (<[pair_num := measured_distance]>
                         (back_target_distances s)) s in
          (true, s', snd (save_back_annotation now s' d))
      end
  | Some target_distance =>
      let tolerance := qc_tolerance_cm s in
      if Rle_dec (Rabs (measured_distance - target_distance)) tolerance
      then (true, set_qc_results (<[pair_num := PASS]> (qc_results s)) s, d)
      else (false, set_qc_results (<[pair_num := FAIL]> (qc_results s)) s, d)
  end.

(** ** Temporal stabilisation *)

(** Comparisons of numbers, as the conditions of the code use them. *)
#[global] Instance Req_decision : EqDecision R := Req_dec_T.
#[global] Instance Rlt_decision : RelDecision Rlt := Rlt_dec.
#[global] Instance Rle_decision : RelDecision Rle := Rle_dec.
#[global] Instance Rgt_decision : RelDecision Rgt := Rgt_dec.
#[global] Instance Rge_decision : RelDecision Rge := Rge_dec.

(** [enumerate(l)], counting from [i]. *)
Fixpoint enumerate_from {A : Type} (i : nat) (l : list A) : list (nat * A) :=
  match l with
  | [] => []
  | x :: rest => (i, x) :: enumerate_from (S i) rest
  end.

Definition enumerate {A : Type} (l : list A) : list (nat * A) :=
  enumerate_from 0 l.

(** [sum(l)] and [np.mean(l)]. *)
Definition Rsum (l : list R) : R := foldr Rplus 0 l.

Definition mean (l : list R) : R := Rsum l / INR (length l).

(** The stabilisation fields of the measurer object. *)
Record tracking : Type := Tracking {
  last_valid_keypoints : list point;
  stabilization_frames : Z;
  keypoint_stabilized : bool
}.

(** [self.stabilization_threshold], set once by [__init__]. *)
Definition stabilization_threshold : R := 17.

(** [math.sqrt(dx**2 + dy**2)]. *)
Definition magnitude (dx dy : R) : R := sqrt (dx ^ 2 + dy ^ 2).

(** The first loop of [check_coordinated_movement]: the displacements of
    the other keypoints that moved by more than 5 pixels. *)
Definition movement_directions (last_valid new_points : list point)
    (changed_index : nat) : list (R * R) :=
  omap (fun '(i, (new_pt, last_pt)) =>
          if bool_decide (fst new_pt <> -1) && bool_decide (fst last_pt <> -1)
             && bool_decide (i <> changed_index)
          then
            let dx := fst new_pt - fst last_pt in
            let dy := snd new_pt - snd last_pt in
            if bool_decide (magnitude dx dy > 5) then Some (dx, dy) else None
          else None)
       (enumerate (zip new_points last_valid)).

(** One round of the second loop: the cosine between a displacement and
    the mean displacement is added to [consistency]. *)
Definition consistency_step (avg_dx avg_dy : R) (consistency : R)
    (d : R * R) : R :=
  let '(dx, dy) := d in
  let dot_product := dx * avg_dx + dy * avg_dy in
  let mag1 := sqrt (dx ^ 2 + dy ^ 2) in
  let mag2 := sqrt (avg_dx ^ 2 + avg_dy ^ 2) in
  if bool_decide (mag1 > 0) && bool_decide (mag2 > 0)
  then consistency + dot_product / (mag1 * mag2)
  else consistency.

Definition consistency_sum (avg_dx avg_dy : R) (dirs : list (R * R)) : R :=
  foldl (consistency_step avg_dx avg_dy) 0 dirs.

(** [check_coordinated_movement(new_points, changed_index)], reading
    [self.last_valid_keypoints]. *)
Definition check_coordinated_movement (last_valid new_points : list point)
    (changed_index : nat) : bool :=
  if (length last_valid <? 3)%nat then true
  else
    let dirs := movement_directions last_valid new_points changed_index in
    if (length dirs <? 2)%nat then true
    else
      let avg_dx := mean (fst <$> dirs) in
      let avg_dy := mean (snd <$> dirs) in
      let consistency :=
        consistency_sum avg_dx avg_dy dirs / INR (length dirs) in
      bool_decide (consistency > 0.7).

(** One round of the loop of [stabilize_keypoints]: the position kept for
    keypoint [i] and whether it counts as valid. *)
Definition stabilize_point (last_valid new_keypoints : list point)
    (i : nat) (new_point last_point : point) : point * bool :=
  if bool_decide (fst new_point = -1) || bool_decide (snd new_point = -1)
  then (last_point, false)
  else
    let distance :=
      sqrt ((fst new_point - fst last_point) ^ 2
            + (snd new_point - snd last_point) ^ 2) in
    if bool_decide (distance < stabilization_threshold)
    then (new_point, true)
    else if check_coordinated_movement last_valid new_keypoints i
         then (new_point, true)
         else (last_point, false).

(** [stabilize_keypoints(new_keypoints)]: the returned positions and the
    stabilisation fields afterwards. *)
Definition stabilize_keypoints (new_keypoints : list point) (t : tracking)
  : list point * tracking :=
  let last_valid := last_valid_keypoints t in
  if bool_decide (last_valid = [])
     || negb (length last_valid =? length new_keypoints)%nat
  then (new_keypoints,
        Tracking new_keypoints (stabilization_frames t)
          (keypoint_stabilized t))
  else
    let rounds :=
      (fun '(i, (new_point, last_point)) =>
         stabilize_point last_valid new_keypoints i new_point last_point)
      <$> enumerate (zip new_keypoints last_valid) in
    let stabilized_points := fst <$> rounds in
    let valid_count := length (filter (fun r => snd r = true) rounds) in
    if (valid_count =? length new_keypoints)%nat
    then
      let frames := (stabilization_frames t + 1)%Z in
      (stabilized_points,
       Tracking stabilized_points frames
         (if (2 <=? frames)%Z then true else keypoint_stabilized t))
    else (stabilized_points, Tracking stabilized_points 0 false).

(** ** Geometric transfer *)

(** A [cv2.DMatch]: indices into the reference and the current feature
    lists. *)
Record dmatch : Type := DMatch {
  queryIdx : nat;
  trainIdx : nat;
  distance : R
}.

(** A 3x3 matrix, by rows. *)
Record matrix3 : Type := Matrix3 {
  h11 : R; h12 : R; h13 : R;
  h21 : R; h22 : R; h23 : R;
  h31 : R; h32 : R; h33 : R
}.

(** [np.linalg.det(H)]. *)
Definition det3 (H : matrix3) : R :=
  h11 H * (h22 H * h33 H - h23 H * h32 H)
  - h12 H * (h21 H * h33 H - h23 H * h31 H)
  + h13 H * (h21 H * h32 H - h22 H * h31 H).

(** [cv2.perspectiveTransform] of one point: the projective image, with
    OpenCV's convention of a zero scale when the third coordinate
    vanishes. *)
Definition perspective_transform (H : matrix3) (p : point) : point :=
  let w := h31 H * fst p + h32 H * snd p + h33 H in
  let scale := if bool_decide (w = 0) then 0 else / w in
  ((h11 H * fst p + h12 H * snd p + h13 H) * scale,
   (h21 H * fst p + h22 H * snd p + h23 H) * scale).

(** [self.min_matches], [self.alpha] and the values of
    [self.transfer_method]. *)
Definition min_matches : nat := 15.

Definition alpha : R := 1.

Inductive method : Set := Homography | Mls | Auto.

(** [[kp[m.queryIdx].pt for m in matches]]; [None] is the [IndexError]
    of an index past the end. *)
Definition matched_points (kp : list point) (idx : dmatch -> nat)
    (matches : list dmatch) : option (list point) :=
  mapM (fun m => kp !! idx m) matches.

(** The weight of one match for a reference keypoint in
    [transfer_with_mls]. *)
Definition mls_weight (ref_point src_match_pt : point) : R :=
  let distance :=
    sqrt ((fst ref_point - fst src_match_pt) ^ 2
          + (snd ref_point - snd src_match_pt) ^ 2) in
  if bool_decide (distance < 1e-6) then 1e6
  else 1 / Rpower distance (2 * alpha).

(** One round of the inner loop of [transfer_with_mls], on
    [total_weight], [weighted_x] and [weighted_y]. *)
Definition mls_step (ref_point : point) (acc : R * R * R)
    (src_dst : point * point) : R * R * R :=
  let '(total_weight, weighted_x, weighted_y) := acc in
  let '(src_match_pt, dst_match_pt) := src_dst in
  let weight := mls_weight ref_point src_match_pt in
  (total_weight + weight,
   weighted_x + weight * fst dst_match_pt,
   weighted_y + weight * snd dst_match_pt).

Definition mls_accumulate (ref_point : point)
    (src_dst : list (point * point)) : R * R * R :=
  foldl (mls_step ref_point) (0, 0, 0) src_dst.

(** The transferred position of one reference keypoint.  The sums and
    the quotients are those of real numbers: the floating-point position
    can differ from this one by the rounding of the sums, so that only
    what survives rounding (a sign, a bound with a margin) carries over
    to it literally. *)
Definition mls_point (src_pts dst_pts : list point) (ref_point : point)
  : point :=
  let '(total_weight, weighted_x, weighted_y) :=
    mls_accumulate ref_point (zip src_pts dst_pts) in
  if bool_decide (total_weight > 0)
  then (weighted_x / total_weight, weighted_y / total_weight)
  else sentinel.

(** [transfer_with_mls]; both exits of the [try] block that report a
    failure return [(None, [])]. *)
Definition transfer_with_mls (s : measurer) (ref_kp curr_kp : list point)
    (matches : list dmatch) : option matrix3 * list point :=
  if (length matches <? 4)%nat then (None, [])
  else
    match matched_points ref_kp queryIdx matches,
          matched_points curr_kp trainIdx matches with
    | Some src_pts, Some dst_pts =>
        (None, mls_point src_pts dst_pts <$> current_keypoints s)
    | _, _ => (None, [])
    end.

Section Homography.

(** [cv2.findHomography(src_pts, dst_pts, cv2.RANSAC, 5.0)]: the fitted
    matrix, or [None]. *)
Variable find_homography : list point -> list point -> option matrix3.

(** [transfer_with_homography]. *)
Definition transfer_with_homography (s : measurer)
    (ref_kp curr_kp : list point) (matches : list dmatch)
  : option matrix3 * list point :=
  if (length matches <? min_matches)%nat then (None, [])
  else
    match matched_points ref_kp queryIdx matches,
          matched_points curr_kp trainIdx matches with
    | Some src_pts, Some dst_pts =>
        match find_homography src_pts dst_pts with
        | None => (None, [])
        | Some H =>
            let det := det3 H in
            if bool_decide (0.1 < Rabs det) && bool_decide (Rabs det < 10)
            then (Some H, perspective_transform H <$> current_keypoints s)
            else (None, [])
        end
    | _, _ => (None, [])
    end.

(** The choice of the feature-based positions in
    [transfer_keypoints_robust], from the list of good matches on. *)
Definition feature_points (transfer_method : method) (s : measurer)
    (ref_kp curr_kp : list point) (matches : list dmatch) : list point :=
  if (min_matches <=? length matches)%nat then
    if (20 <=? length matches)%nat
       && match transfer_method with Homography | Auto => true | Mls => false end
    then
      let '(_, homography_points) :=
        transfer_with_homography s ref_kp curr_kp matches in
      match homography_points with
      | _ :: _ => homography_points
      | [] => snd (transfer_with_mls s ref_kp curr_kp matches)
      end
    else snd (transfer_with_mls s ref_kp curr_kp matches)
  else replicate (length (current_keypoints s)) sentinel.

End Homography.

(** ** The live measurement loop *)

(** [self.is_calibrated] and [self.pixels_per_cm]. *)
Record calibration : Type := Calibration {
  is_calibrated : bool;
  pixels_per_cm : R
}.

(** An entry of [current_measurements]: the tuple [(pair_num,
    real_distance, pixel_distance, qc_passed, is_fallback)], or the older
    tuple without its last component. *)
Record measurement : Type := Measurement {
  m_pair_num : Z;
  m_real_distance : R;
  m_pixel_distance : R;
  m_qc_passed : bool;
  m_is_fallback : option bool
}.

Definition current_reference_gray (s : measurer) : option image :=
  match current_side s with
  | Front => reference_gray s
  | Back => back_reference_gray s
  end.

(** [scale_x, scale_y] between the reference image and the live frame.
    (The reference image is one that [cv2.imread] has read: it has at
    least one row and one column, so that the divisions are defined.) *)
Definition scale_factors (s : measurer) (frame_gray : option image) : R * R :=
  match current_reference_gray s, frame_gray with
  | Some ref, Some live =>
      (IZR (shape_w live) / IZR (shape_w ref),
       IZR (shape_h live) / IZR (shape_h ref))
  | _, _ => (1, 1)
  end.

(** [p[0] == -1 or p[1] == -1]. *)
Definition tracking_failed (p : point) : bool :=
  bool_decide (fst p = -1) || bool_decide (snd p = -1).

(** [[int(orig[0] * scale_x), int(orig[1] * scale_y)]]. *)
Definition scaled_annotation (scale : R * R) (orig : point) : point :=
  (IZR (Py.int (fst orig * fst scale)), IZR (Py.int (snd orig * snd scale))).

(** The loop head [for i in range(0, len(t) - 1, 2): if i + 1 < len(t)]:
    the start index and the two keypoints of every pair formed. *)
Definition formed_pairs (transferred_keypoints : list point)
  : list (Z * point * point) :=
  let n := Z.of_nat (length transferred_keypoints) in
  omap (fun i : Z =>
          if (i + 1 <? n)%Z then
            p1 ← transferred_keypoints !! Z.to_nat i;
            p2 ← transferred_keypoints !! Z.to_nat (i + 1);
            Some (i, p1, p2)
          else None)
       (Py.range 0 (n - 1) 2).

(** The positions measured for a pair after the fallback strategy, or
    [None] when the round ends with [continue]. *)
Definition fallback_positions (scale : R * R) (orig_p1 orig_p2 : option point)
    (p1 p2 : point) : option (point * point) :=
  let p1_tracking_failed := tracking_failed p1 in
  let p2_tracking_failed := tracking_failed p2 in
  let replaced :=
    if p1_tracking_failed && p2_tracking_failed then
      match orig_p1, orig_p2 with
      | Some o1, Some o2 =>
          Some (scaled_annotation scale o1, scaled_annotation scale o2)
      | _, _ => None
      end
    else
      match p1_tracking_failed, orig_p1, p2_tracking_failed, orig_p2 with
      | true, Some o1, _, _ => Some (scaled_annotation scale o1, p2)
      | _, _, true, Some o2 => Some (p1, scaled_annotation scale o2)
      | _, _, _, _ => Some (p1, p2)
      end in
  '(q1, q2) ← replaced;
  if tracking_failed q1 || tracking_failed q2 then None else Some (q1, q2).

(** The body of the loop for the pair starting at index [i]: the
    measurement appended, if any, and the object and files afterwards
    ([check_qc] may store and save a new target).  The result [None] is
    the [ZeroDivisionError] that [pixel_distance / self.pixels_per_cm]
    raises when the object is calibrated with a scale of 0; nothing has
    changed by then. *)
Definition measure_pair (now : string) (cal : calibration)
    (frame_gray : option image) (i : Z) (p1 p2 : point)
    (st : measurer * disk)
  : option (option measurement * (measurer * disk)) :=
  let '(s, d) := st in
  let current_keypoints := current_keypoints s in
  let orig_p1 := current_keypoints !! Z.to_nat i in
  let orig_p2 := current_keypoints !! Z.to_nat (i + 1) in
  match fallback_positions (scale_factors s frame_gray) orig_p1 orig_p2 p1 p2
  with
  | None => Some (None, st)
  | Some (q1, q2) =>
      let pixel_distance :=
        sqrt ((fst q2 - fst q1) ^ 2 + (snd q2 - snd q1) ^ 2) in
      let is_fallback := tracking_failed p1 || tracking_failed p2 in
      if is_calibrated cal then
        if bool_decide (pixels_per_cm cal = 0) then None
        else
          let real_distance := pixel_distance / pixels_per_cm cal in
          let pair_num := (i / 2 + 1)%Z in
          let '(qc_passed, s', d') :=
            check_qc now pair_num real_distance s d in
          Some (Some (Measurement pair_num real_distance pixel_distance
                        qc_passed (Some is_fallback)),
                (s', d'))
      else
        Some (Some (Measurement (i / 2 + 1) 0 pixel_distance false
                      (Some is_fallback)),
              st)
  end.

(** One round of the loop on [current_measurements], the object and the
    files, and the mark that a [ZeroDivisionError] has ended the loop:
    once it is set, no further round is run. *)
Definition measure_step (now : string) (cal : calibration)
    (frame_gray : option image)
    (acc : list measurement * (measurer * disk) * bool)
    (pair : Z * point * point)
  : list measurement * (measurer * disk) * bool :=
  let '(current_measurements, st, raised) := acc in
  let '(i, p1, p2) := pair in
  if raised then acc
  else
    match measure_pair now cal frame_gray i p1 p2 st with
    | Some (m, st') => (current_measurements ++ option_list m, st', false)
    | None => (current_measurements, st, true)
    end.

(** The loop over the pairs: [current_measurements], the object and the
    files when the loop ends, and whether a [ZeroDivisionError] ended it,
    and the method with it. *)
Definition measure_pairs (now : string) (cal : calibration)
    (frame_gray : option image) (transferred_keypoints : list point)
    (st : measurer * disk)
  : list measurement * (measurer * disk) * bool :=
  foldl (measure_step now cal frame_gray) ([], st, false)
    (formed_pairs transferred_keypoints).

(** ** Template matching

    The frames handled here are grey already, so that [ensure_grayscale]
    returns them as they are. *)

(** The numpy slice [img[y1:y2, x1:x2]] for bounds within the image, as
    every slice of the code is taken (each is guarded by a size test on
    bounds clipped to the image). *)
Definition slice (img : image) (y1 y2 x1 x2 : Z) : image :=
  Image (Z.max 0 (y2 - y1)) (Z.max 0 (x2 - x1))
    (fun row col => pixels img (y1 + row)%Z (x1 + col)%Z).

(** The two correlation measures of [cv2.matchTemplate] that the code
    uses. *)
Inductive tm_method : Set := TM_CCOEFF_NORMED | TM_CCORR_NORMED.

(** [self.template_roi_size], [self.template_matching_threshold],
    [self.corner_keypoints_count], [self.corner_template_size] and
    [self.corner_matching_threshold]. *)
Definition template_roi_size : R := 85.
Definition template_matching_threshold : R := 0.70.
Definition corner_keypoints_count : nat := 12.
Definition corner_template_size : R := 150.
Definition corner_matching_threshold : R := 0.6.

Section TemplateMatching.

(** [cv2.matchTemplate(search_region, template, method)] followed by
    [cv2.minMaxLoc]: the best score [max_val] and its place
    [max_loc = (column, row)] in the search region; [None] when OpenCV
    raises. *)
Variable match_template :
  tm_method -> image -> image -> option (R * (Z * Z)).

(** One round of the loop of [_direct_placement_with_refinement]: the
    position appended to [refined_points] for the keypoint [kp]. *)
Definition refine_keypoint (current_gray reference_gray : image)
    (kp : point) : point :=
  let h := shape_h current_gray in
  let w := shape_w current_gray in
  let ref_h := shape_h reference_gray in
  let ref_w := shape_w reference_gray in
  let x := Py.int (fst kp) in
  let y := Py.int (snd kp) in
  if ((x <=? 0) || (y <=? 0) || (w <=? x) || (h <=? y))%Z
  then (IZR x, IZR y)
  else
    let search_radius := 80%Z in
    let template_size := 60%Z in
    let half_t := (template_size / 2)%Z in
    let ref_y1 := Z.max 0 (y - half_t) in
    let ref_y2 := Z.min ref_h (y + half_t) in
    let ref_x1 := Z.max 0 (x - half_t) in
    let ref_x2 := Z.min ref_w (x + half_t) in
    if ((ref_x2 - ref_x1 <? 20) || (ref_y2 - ref_y1 <? 20))%Z
    then (IZR x, IZR y)
    else
      let template := slice reference_gray ref_y1 ref_y2 ref_x1 ref_x2 in
      let search_y1 := Z.max 0 (y - search_radius) in
      let search_y2 := Z.min h (y + search_radius) in
      let search_x1 := Z.max 0 (x - search_radius) in
      let search_x2 := Z.min w (x + search_radius) in
      if ((search_x2 - search_x1 <? shape_w template)
          || (search_y2 - search_y1 <? shape_h template))%Z
      then (IZR x, IZR y)
      else
        let search_region :=
          slice current_gray search_y1 search_y2 search_x1 search_x2 in
        match match_template TM_CCOEFF_NORMED search_region template with
        | None => (IZR x, IZR y)
        | Some (max_val, max_loc) =>
            if bool_decide (max_val > 0.5) then
              let refined_x :=
                (search_x1 + fst max_loc + shape_w template / 2)%Z in
              let refined_y :=
                (search_y1 + snd max_loc + shape_h template / 2)%Z in
              let dx := Z.abs (refined_x - x) in
              let dy := Z.abs (refined_y - y) in
              if ((dx <? 60) && (dy <? 60))%Z
              then (IZR refined_x, IZR refined_y)
              else (IZR x, IZR y)
            else (IZR x, IZR y)
        end.

(** [_direct_placement_with_refinement]: the refined positions go through
    [stabilize_keypoints]. *)
Definition direct_placement_with_refinement
    (current_gray reference_gray : image) (keypoints : list point)
    (t : tracking) : list point * tracking :=
  stabilize_keypoints
    (refine_keypoint current_gray reference_gray <$> keypoints) t.

(** One round of the loop of [template_match_keypoints]. *)
Definition template_match_keypoint (current_gray reference_gray : image)
    (scale_factor : R) (keypoint : point) : point :=
  let h := shape_h current_gray in
  let w := shape_w current_gray in
  let ref_h := shape_h reference_gray in
  let ref_w := shape_w reference_gray in
  let x := Py.int (fst keypoint) in
  let y := Py.int (snd keypoint) in
  let template_size := Py.int (template_roi_size * scale_factor) in
  let half_size := (template_size / 2)%Z in
  let x1 := Z.max 0 (x - half_size) in
  let y1 := Z.max 0 (y - half_size) in
  let x2 := Z.min ref_w (x + half_size) in
  let y2 := Z.min ref_h (y + half_size) in
  if ((x2 - x1 <? 10) || (y2 - y1 <? 10))%Z then sentinel
  else
    let template := slice reference_gray y1 y2 x1 x2 in
    let search_multiplier := 2.0 * scale_factor in
    let search_half_size :=
      Py.int (IZR template_size * search_multiplier) in
    let estimated_x := Py.int (IZR x * scale_factor) in
    let estimated_y := Py.int (IZR y * scale_factor) in
    let sx1 := Z.max 0 (estimated_x - search_half_size) in
    let sy1 := Z.max 0 (estimated_y - search_half_size) in
    let sx2 := Z.min w (estimated_x + search_half_size) in
    let sy2 := Z.min h (estimated_y + search_half_size) in
    if ((sx2 - sx1 <? shape_w template) || (sy2 - sy1 <? shape_h template))%Z
    then sentinel
    else
      let search_region := slice current_gray sy1 sy2 sx1 sx2 in
      match match_template TM_CCOEFF_NORMED search_region template with
      | None => sentinel
      | Some (max_val, max_loc) =>
          if bool_decide (max_val > template_matching_threshold) then
            let match_x := (sx1 + fst max_loc + shape_w template / 2)%Z in
            let match_y := (sy1 + snd max_loc + shape_h template / 2)%Z in
            (IZR match_x, IZR match_y)
          else sentinel
      end.

(** The loop over the two methods in [template_match_corners]:
    [best_match_val] and [best_match_loc]; [None] when a call raises. *)
Definition best_match (search_region template : image)
  : option (R * (Z * Z)) :=
  foldl (fun best method =>
           '(best_match_val, best_match_loc) ← best;
           '(max_val, max_loc) ← match_template method search_region template;
           if bool_decide (max_val > best_match_val)
           then Some (max_val, max_loc)
           else Some (best_match_val, best_match_loc))
        (Some (-1, (0, 0)%Z)) [TM_CCOEFF_NORMED; TM_CCORR_NORMED].

(** One round of the loop of [template_match_corners]. *)
Definition template_match_corner (current_gray reference_gray : image)
    (scale_factor : R) (keypoint : point) : point :=
  let h := shape_h current_gray in
  let w := shape_w current_gray in
  let ref_h := shape_h reference_gray in
  let ref_w := shape_w reference_gray in
  let x := Py.int (fst keypoint) in
  let y := Py.int (snd keypoint) in
  let template_size := Py.int (corner_template_size * scale_factor) in
  let half_size := (template_size / 2)%Z in
  let x1 := Z.max 0 (x - half_size) in
  let y1 := Z.max 0 (y - half_size) in
  let x2 := Z.min ref_w (x + half_size) in
  let y2 := Z.min ref_h (y + half_size) in
  if ((x2 - x1 <? 20) || (y2 - y1 <? 20))%Z then sentinel
  else
    let template := slice reference_gray y1 y2 x1 x2 in
    let search_multiplier := 2.5 * scale_factor in
    let search_half_size :=
      Py.int (IZR template_size * search_multiplier) in
    let estimated_x := Py.int (IZR x * scale_factor) in
    let estimated_y := Py.int (IZR y * scale_factor) in
    let sx1 := Z.max 0 (estimated_x - search_half_size) in
    let sy1 := Z.max 0 (estimated_y - search_half_size) in
    let sx2 := Z.min w (estimated_x + search_half_size) in
    let sy2 := Z.min h (estimated_y + search_half_size) in
    if ((sx2 - sx1 <? shape_w template) || (sy2 - sy1 <? shape_h template))%Z
    then sentinel
    else
      let search_region := slice current_gray sy1 sy2 sx1 sx2 in
      match best_match search_region template with
      | None => sentinel
      | Some (best_match_val, best_match_loc) =>
          if bool_decide (best_match_val > corner_matching_threshold) then
            let match_x :=
              (sx1 + fst best_match_loc + shape_w template / 2)%Z in
            let match_y :=
              (sx1 + snd best_match_loc + shape_h template / 2)%Z in
            (IZR match_x, IZR match_y)
          else sentinel
      end.

(** [template_match_corners(current_gray, scale_factor)] on the active
    side: one position for each of the first [corner_keypoints_count]
    keypoints. *)
Definition template_match_corners (s : measurer) (current_gray : image)
    (scale_factor : R) : list point :=
  match current_reference_gray s, current_keypoints s with
  | None, _ | _, [] => []
  | Some reference_gray, keypoints =>
      template_match_corner current_gray reference_gray scale_factor
      <$> take (Nat.min corner_keypoints_count (length keypoints)) keypoints
  end.

(** [template_match_keypoints(current_gray, scale_factor)]. *)
Definition template_match_keypoints (s : measurer) (current_gray : image)
    (scale_factor : R) : list point :=
  match current_reference_gray s, current_keypoints s with
  | None, _ | _, [] => []
  | Some reference_gray, keypoints =>
      template_match_keypoint current_gray reference_gray scale_factor
      <$> keypoints
  end.

End TemplateMatching.

(** The window [[sx1, sx2] x [sy1, sy2]] that [template_match_corners]
    and [template_match_keypoints] search in the live frame for a
    keypoint, given the side of the template patch (150 and 85 at scale
    1) and the search multiplier (2.5 and 2.0). *)
Definition search_window (patch_size multiplier : R) (current_gray : image)
    (scale_factor : R) (keypoint : point) : Z * Z * Z * Z :=
  let template_size := Py.int (patch_size * scale_factor) in
  let search_half_size :=
    Py.int (IZR template_size * (multiplier * scale_factor)) in
  let estimated_x := Py.int (IZR (Py.int (fst keypoint)) * scale_factor) in
  let estimated_y := Py.int (IZR (Py.int (snd keypoint)) * scale_factor) in
  (Z.max 0 (estimated_x - search_half_size),
   Z.min (shape_w current_gray) (estimated_x + search_half_size),
   Z.max 0 (estimated_y - search_half_size),
   Z.min (shape_h current_gray) (estimated_y + search_half_size)).

(** A position lies in a window. *)
Definition in_window (win : Z * Z * Z * Z) (p : point) : Prop :=
  let '(sx1, sx2, sy1, sy2) := win in
  IZR sx1 <= fst p <= IZR sx2 /\ IZR sy1 <= snd p <= IZR sy2.

(** The arguments [(search_region, template)] with which
    [_direct_placement_with_refinement] calls [cv2.matchTemplate] for a
    keypoint, together with the corner [(search_x1, search_y1)] of the
    search region; [None] when one of the size tests ends the round
    before the call. *)
Definition direct_call (current_gray reference_gray : image) (kp : point)
  : option (image * image * (Z * Z)) :=
  let h := shape_h current_gray in
  let w := shape_w current_gray in
  let x := Py.int (fst kp) in
  let y := Py.int (snd kp) in
  if ((x <=? 0) || (y <=? 0) || (w <=? x) || (h <=? y))%Z then None
  else
    let ref_y1 := Z.max 0 (y - 60 / 2) in
    let ref_y2 := Z.min (shape_h reference_gray) (y + 60 / 2) in
    let ref_x1 := Z.max 0 (x - 60 / 2) in
    let ref_x2 := Z.min (shape_w reference_gray) (x + 60 / 2) in
    if ((ref_x2 - ref_x1 <? 20) || (ref_y2 - ref_y1 <? 20))%Z then None
    else
      let template := slice reference_gray ref_y1 ref_y2 ref_x1 ref_x2 in
      let search_y1 := Z.max 0 (y - 80) in
      let search_y2 := Z.min h (y + 80) in
      let search_x1 := Z.max 0 (x - 80) in
      let search_x2 := Z.min w (x + 80) in
      if ((search_x2 - search_x1 <? shape_w template)
          || (search_y2 - search_y1 <? shape_h template))%Z
      then None
      else Some (slice current_gray search_y1 search_y2 search_x1 search_x2,
                 template, (search_x1, search_y1)).

(** The raw annotation coordinate as the refiner reads it:
    [[int(kp[0]), int(kp[1])]]. *)
Definition raw_position (kp : point) : point :=
  (IZR (Py.int (fst kp)), IZR (Py.int (snd kp))).

(** ** The live snapshot *)

(** An entry of ['measurements'] in the live snapshot. *)
Record live_record : Type := LiveRecord {
  lr_id : Z;
  lr_name : string;
  lr_actual_cm : R;
  lr_pixel_distance : R;
  lr_tolerance_plus : R;
  lr_tolerance_minus : R;
  lr_min_valid : R;
  lr_max_valid : R;
  lr_qc_passed : bool;
  lr_is_fallback : bool
}.

(** The record built for one measurement; [None] when
    [keypoint_names[pair_num - 1]] raises [IndexError]. *)
Definition live_record_of (keypoint_names : list string) (m : measurement)
  : option live_record :=
  let pair_num := m_pair_num m in
  let real_distance := m_real_distance m in
  let is_fallback := default false (m_is_fallback m) in
  name ← (if (pair_num <=? Z.of_nat (length keypoint_names))%Z
          then Py.index keypoint_names (pair_num - 1)
          else Some ("Measurement " +:+ Py.str pair_num));
  Some (LiveRecord pair_num name (Py.round2 real_distance)
          (Py.round2 (m_pixel_distance m)) 1 1
          (Py.round2 (real_distance - 1)) (Py.round2 (real_distance + 1))
          (m_qc_passed m) is_fallback).

Definition json_of_live_record (r : live_record) : json :=
  JObj [ ("id"%string, JNum (IZR (lr_id r)));
         ("name"%string, JStr (lr_name r));
         ("actual_cm"%string, JNum (lr_actual_cm r));
         ("pixel_distance"%string, JNum (lr_pixel_distance r));
         ("tolerance_plus"%string, JNum (lr_tolerance_plus r));
         ("tolerance_minus"%string, JNum (lr_tolerance_minus r));
         ("min_valid"%string, JNum (lr_min_valid r));
         ("max_valid"%string, JNum (lr_max_valid r));
         ("qc_passed"%string, JBool (lr_qc_passed r));
         ("is_fallback"%string, JBool (lr_is_fallback r)) ].

(** [measurement_data], the document that is dumped. *)
Definition measurement_data (now annotation_name : string) (s : measurer)
    (cal : calibration) (records : list live_record) : json :=
  JObj [ ("timestamp"%string, JStr now);
         ("annotation_name"%string, JStr annotation_name);
         ("side"%string,
           JStr match current_side s with
                | Front => "front"
                | Back => "back"
                end);
         ("is_calibrated"%string, JBool (is_calibrated cal));
         ("pixels_per_cm"%string, JNum (pixels_per_cm cal));
         ("tolerance_cm"%string, JNum 1);
         ("measurements"%string, JArr (json_of_live_record <$> records)) ].

(** A tuple of [measurements] as the method receives it: the values of
    the loop's tuple, and whether the object it holds as [is_fallback]
    is a [numpy.bool_] rather than a [bool].  A [numpy.bool_] is what
    [p[0] == -1] yields when the coordinate is a numpy scalar, as the
    coordinates of the positions of the feature-based transfer are. *)
Record live_tuple : Type := LiveTuple {
  tuple_values : measurement;
  fallback_is_numpy : bool
}.

(** Whether [json.dump] can write the [is_fallback] of a tuple: it raises
    [TypeError] on a [numpy.bool_].  (The tuple of four values carries no
    flag, and [False] is written for it.) *)
Definition serializable (t : live_tuple) : bool :=
  match m_is_fallback (tuple_values t) with
  | Some _ => negb (fallback_is_numpy t)
  | None => true
  end.

(** [save_live_measurements(measurements, annotation_name)].
    [results_dir] is the directory derived from [self.annotations_dir],
    and [current_annotation_name] the attribute of that name when it is
    set.  The records are built first: an [IndexError] there makes the
    result [False] and leaves the files as they were.  Then the file is
    opened for writing and the document is dumped: when [json.dump]
    raises on a [numpy.bool_], the result is [False] as well, and the
    file is left with the part of the text written until then. *)
Definition save_live_measurements (now results_dir : string)
    (current_annotation_name : option string) (keypoint_names : list string)
    (s : measurer) (cal : calibration) (measurements : list live_tuple)
    (annotation_name : option string) (d : disk) : bool * disk :=
  let name :=
    match annotation_name with
    | Some n => if String.eqb n "" then default "unknown" current_annotation_name
                else n
    | None => default "unknown" current_annotation_name
    end%string in
  match mapM (live_record_of keypoint_names) (tuple_values <$> measurements)
  with
  | Some records =>
      let live_file := (results_dir +:+ "/live_measurements.json")%string in
      if forallb serializable measurements
      then (true,
            <[live_file := FJson (measurement_data now name s cal records)]> d)
      else (false, <[live_file := FOther]> d)
  | None => (false, d)
  end.

(** ** The back side, deletion and calibration files *)

(** The two fields [load_back_annotation] assigns from the file. *)
Definition set_back_annotation (kps : list point) (tds : gmap Z R)
    (s : measurer) : measurer :=
  Measurer (keypoints s) kps (target_distances s) tds (placement_box s)
    (current_side s) (reference_image s) (reference_gray s)
    (back_reference_image s) (back_reference_gray s) (qc_tolerance_cm s)
    (qc_results s) (annotation_file s) (back_annotation_file s)
    (reference_image_file s) (back_reference_image_file s).

Definition set_back_reference (img gray : option image) (s : measurer)
  : measurer :=
  Measurer (keypoints s) (back_keypoints s) (target_distances s)
    (back_target_distances s) (placement_box s) (current_side s)
    (reference_image s) (reference_gray s) img gray (qc_tolerance_cm s)
    (qc_results s) (annotation_file s) (back_annotation_file s)
    (reference_image_file s) (back_reference_image_file s).

Definition set_current_side (side : side) (s : measurer) : measurer :=
  Measurer (keypoints s) (back_keypoints s) (target_distances s)
    (back_target_distances s) (placement_box s) side
    (reference_image s) (reference_gray s) (back_reference_image s)
    (back_reference_gray s) (qc_tolerance_cm s) (qc_results s)
    (annotation_file s) (back_annotation_file s) (reference_image_file s)
    (back_reference_image_file s).

(** [load_back_reference_image]. *)
Definition load_back_reference_image (s : measurer) (d : disk)
  : bool * measurer :=
  match d !! back_reference_image_file s with
  | Some (FImage img) => (true, set_back_reference (Some img) (Some img) s)
  | Some (FJson _) | Some FOther =>
      (false, set_back_reference None (back_reference_gray s) s)
  | None => (false, s)
  end.

(** [load_back_annotation]; [None] as for [load_annotation]. *)
Definition load_back_annotation (s : measurer) (d : disk)
  : option (bool * measurer) :=
  match d !! back_annotation_file s with
  | None => Some (false, s)
  | Some (FImage _) | Some FOther => Some (false, s)
  | Some (FJson (JObj fields)) =>
      kps ← Json.to_points (Json.get "keypoints" (JArr []) fields);
      tds ← to_targets (Json.get "target_distances" (JObj []) fields);
      let s' := set_back_annotation kps tds s in
      match kps with
      | [] => Some (false, s')
      | _ :: _ => Some (load_back_reference_image s' d)
      end
  | Some (FJson _) => Some (false, s)
  end.

(** [delete_annotation]: the four files are removed where they exist and
    the annotation fields are cleared. *)
Definition delete_annotation (s : measurer) (d : disk)
  : bool * measurer * disk :=
  let d1 := delete (annotation_file s) d in
  let d2 := delete (back_annotation_file s) d1 in
  let d3 := delete (reference_image_file s) d2 in
  let d4 := delete (back_reference_image_file s) d3 in
  (true,
   Measurer [] [] ∅ ∅ [] (current_side s) None None None None
     (qc_tolerance_cm s) (qc_results s) (annotation_file s)
     (back_annotation_file s) (reference_image_file s)
     (back_reference_image_file s),
   d4).

(** The calibration fields of the object: [self.pixels_per_cm] and
    [self.is_calibrated] as above, [self.reference_length_cm] and
    [self.calibration_file]. *)
Record calibration_state : Type := CalibrationState {
  calibration_of : calibration;
  reference_length_cm : R;
  calibration_file : string
}.

(** The document [save_calibration] dumps. *)
Definition calibration_data (now : string) (c : calibration_state) : json :=
  JObj [ ("pixels_per_cm"%string, JNum (pixels_per_cm (calibration_of c)));
         ("reference_length_cm"%string, JNum (reference_length_cm c));
         ("is_calibrated"%string, JBool (is_calibrated (calibration_of c)));
         ("calibration_date"%string, JStr now) ].

(** [save_calibration]. *)
Definition save_calibration (now : string) (c : calibration_state) (d : disk)
  : bool * disk :=
  (true, <[calibration_file c := FJson (calibration_data now c)]> d).

Definition to_bool (j : json) : option bool :=
  match j with JBool b => Some b | _ => None end.

(** [load_calibration]: the three fields are read with the defaults 0, 0
    and [False], and the result is the flag read.  [None] when the file
    holds a value that is not a number, or a flag that is not a boolean. *)
Definition load_calibration (c : calibration_state) (d : disk)
  : option (bool * calibration_state) :=
  match d !! calibration_file c with
  | None => Some (false, c)
  | Some (FImage _) | Some FOther => Some (false, c)
  | Some (FJson (JObj fields)) =>
      ppcm ← Json.to_number (Json.get "pixels_per_cm" (JNum 0) fields);
      len ← Json.to_number (Json.get "reference_length_cm" (JNum 0) fields);
      flag ← to_bool (Json.get "is_calibrated" (JBool false) fields);
      Some (flag,
            CalibrationState (Calibration flag ppcm) len (calibration_file c))
  | Some (FJson _) => Some (false, c)
  end.

(** [delete_calibration]. *)
Definition delete_calibration (c : calibration_state) (d : disk)
  : bool * calibration_state * disk :=
  match d !! calibration_file c with
  | Some _ =>
      (true, CalibrationState (Calibration false 0) 0 (calibration_file c),
       delete (calibration_file c) d)
  | None => (false, c, d)
  end.

(** ** Switching sides *)

(** The object during live measurement: the annotation fields, the
    stabilisation fields, [self.transferred_keypoints] and
    [self.is_keypoints_transferred]. *)
Record session : Type := Session {
  obj : measurer;
  track : tracking;
  transferred_keypoints : list point;
  is_keypoints_transferred : bool
}.

(** [switch_to_back_side]. *)
Definition switch_to_back_side (x : session) : bool * session :=
  match back_keypoints (obj x), back_reference_image (obj x) with
  | _ :: _, Some _ =>
      (true, Session (set_current_side Back (obj x)) (Tracking [] 0 false)
               [] false)
  | _, _ => (false, x)
  end.

(** [switch_to_front_side]. *)
Definition switch_to_front_side (x : session) : bool * session :=
  match keypoints (obj x), reference_image (obj x) with
  | _ :: _, Some _ =>
      (true, Session (set_current_side Front (obj x)) (Tracking [] 0 false)
               [] false)
  | _, _ => (false, x)
  end.

(** ** Zoom and pan of the display *)

(** The zoom and pan fields of the object: [zoom_factor], [zoom_center],
    [pan_x], [pan_y], [mouse_dragging], [last_mouse_x] and
    [last_mouse_y].  The centre and the pans are ints: the centre is a
    mouse position or [(w // 2, h // 2)], and the pans are sums of ints. *)
Record view : Type := View {
  zoom_factor : R;
  zoom_center : option (Z * Z);
  pan_x : Z;
  pan_y : Z;
  mouse_dragging : bool;
  last_mouse_x : Z;
  last_mouse_y : Z
}.

(** The fields as [__init__] sets them. *)
Definition new_view : view := View 1 None 0 0 false 0 0.

Definition set_zoom_center (c : option (Z * Z)) (v : view) : view :=
  View (zoom_factor v) c (pan_x v) (pan_y v) (mouse_dragging v)
    (last_mouse_x v) (last_mouse_y v).

(** [a // b] on floats: the floor of the quotient. *)
Definition floordiv (a b : R) : R := IZR (Int_part (a / b)).

(** The region of interest of [apply_zoom] on an image of [h] rows and
    [w] columns, [(x1, y1, x2, y2)], for a zoom factor above 1. *)
Definition zoom_roi (h w : Z) (v : view) : Z * Z * Z * Z :=
  let zoom_w := Py.int (IZR w / zoom_factor v) in
  let zoom_h := Py.int (IZR h / zoom_factor v) in
  let '(center_x, center_y) := default (w / 2, h / 2)%Z (zoom_center v) in
  let center_x := (center_x + pan_x v)%Z in
  let center_y := (center_y + pan_y v)%Z in
  let center_x := Z.max (zoom_w / 2) (Z.min center_x (w - zoom_w / 2)) in
  let center_y := Z.max (zoom_h / 2) (Z.min center_y (h - zoom_h / 2)) in
  let x1 := (center_x - zoom_w / 2)%Z in
  let y1 := (center_y - zoom_h / 2)%Z in
  let x2 := (x1 + zoom_w)%Z in
  let y2 := (y1 + zoom_h)%Z in
  (Z.max 0 x1, Z.max 0 y1, Z.min w x2, Z.min h y2).

Section Zoom.

(** [cv2.resize(roi, (w, h), interpolation=cv2.INTER_LINEAR)]. *)
Variable resize : image -> Z -> Z -> image.

(** [apply_zoom(image)]: the image shown and the fields afterwards (the
    centre is fixed at the middle of the image when it was unset). *)
Definition apply_zoom (img : image) (v : view) : image * view :=
  if bool_decide (zoom_factor v <= 1) then (img, v)
  else
    let h := shape_h img in
    let w := shape_w img in
    let v' :=
      set_zoom_center
        (Some (default (w / 2, h / 2)%Z (zoom_center v))) v in
    let '(x1, y1, x2, y2) := zoom_roi h w v in
    let roi := slice img y1 y2 x1 x2 in
    if ((0 <? shape_h roi) && (0 <? shape_w roi))%Z
    then (resize roi w h, v')
    else (img, v').

End Zoom.

(** [original_to_zoomed_coords(orig_x, orig_y, img_shape)] for an image
    of [h] rows and [w] columns. *)
Definition original_to_zoomed_coords (orig_x orig_y : R) (h w : Z)
    (v : view) : (Z * Z) * view :=
  if bool_decide (zoom_factor v <= 1)
  then ((Py.int orig_x, Py.int orig_y), v)
  else
    let zoom_w := IZR w / zoom_factor v in
    let zoom_h := IZR h / zoom_factor v in
    let '(center_x, center_y) := default (w / 2, h / 2)%Z (zoom_center v) in
    let v' := set_zoom_center (Some (center_x, center_y)) v in
    let center_x := (center_x + pan_x v)%Z in
    let center_y := (center_y + pan_y v)%Z in
    let x1 := Rmax 0 (IZR center_x - floordiv zoom_w 2) in
    let y1 := Rmax 0 (IZR center_y - floordiv zoom_h 2) in
    let zoom_x := (orig_x - x1) * zoom_factor v in
    let zoom_y := (orig_y - y1) * zoom_factor v in
    ((Py.int zoom_x, Py.int zoom_y), v').

(** [zoomed_to_original_coords(zoom_x, zoom_y, img_shape)] for a mouse
    position [(zoom_x, zoom_y)], which is a pair of ints. *)
Definition zoomed_to_original_coords (zoom_x zoom_y : Z) (h w : Z)
    (v : view) : (Z * Z) * view :=
  if bool_decide (zoom_factor v <= 1) then ((zoom_x, zoom_y), v)
  else
    let zoom_w := IZR w / zoom_factor v in
    let zoom_h := IZR h / zoom_factor v in
    let '(center_x, center_y) := default (w / 2, h / 2)%Z (zoom_center v) in
    let v' := set_zoom_center (Some (center_x, center_y)) v in
    let center_x := (center_x + pan_x v)%Z in
    let center_y := (center_y + pan_y v)%Z in
    let x1 := Rmax 0 (IZR center_x - floordiv zoom_w 2) in
    let y1 := Rmax 0 (IZR center_y - floordiv zoom_h 2) in
    let orig_x := x1 + IZR zoom_x / zoom_factor v in
    let orig_y := y1 + IZR zoom_y / zoom_factor v in
    ((Py.int orig_x, Py.int orig_y), v').

(** The events that [live_mouse_callback] tells apart. *)
Inductive mouse_event : Set :=
  | EVENT_MOUSEWHEEL
  | EVENT_MBUTTONDOWN
  | EVENT_MOUSEMOVE
  | EVENT_MBUTTONUP
  | EVENT_OTHER.

(** [live_mouse_callback(event, x, y, flags, param)]. *)
Definition live_mouse_callback (event : mouse_event) (x y flags : Z)
    (v : view) : view :=
  match event with
  | EVENT_MOUSEWHEEL =>
      let zoom_factor' :=
        if (0 <? flags)%Z then zoom_factor v * 1.1
        else Rmax 1 (zoom_factor v / 1.1) in
      View zoom_factor' (Some (x, y)) (pan_x v) (pan_y v)
        (mouse_dragging v) (last_mouse_x v) (last_mouse_y v)
  | EVENT_MBUTTONDOWN =>
      View (zoom_factor v) (zoom_center v) (pan_x v) (pan_y v) true x y
  | EVENT_MOUSEMOVE =>
      if mouse_dragging v then
        let dx := (x - last_mouse_x v)%Z in
        let dy := (y - last_mouse_y v)%Z in
        let pan_scale := 1 / zoom_factor v in
        View (zoom_factor v) (zoom_center v)
          (pan_x v + Py.int (IZR dx * pan_scale))
          (pan_y v + Py.int (IZR dy * pan_scale))
          (mouse_dragging v) x y
      else v
  | EVENT_MBUTTONUP =>
      View (zoom_factor v) (zoom_center v) (pan_x v) (pan_y v) false
        (last_mouse_x v) (last_mouse_y v)
  | EVENT_OTHER => v
  end.

(** ** The robust transfer

    [transfer_keypoints_robust] and the functions it calls that are not
    given above.  The fields it works on besides the measurer object are
    the stabilisation fields and [last_detected_scale]; the counters of
    the rate-limited log ([_error_counts]) are left out. *)

(** [self.good_match_ratio] and [self.scale_smoothing_factor]. *)
Definition good_match_ratio : R := 0.75.
Definition scale_smoothing_factor : R := 0.3.

(** [np.linalg.norm(p - q)]. *)
Definition norm (p q : point) : R :=
  sqrt ((fst p - fst q) ^ 2 + (snd p - snd q) ^ 2).

(** The pairs [(l[i], l[j])] for [i] in [range(len(l))] and [j] in
    [range(i + 1, len(l))], in that order. *)
Fixpoint pairs_of {A : Type} (l : list A) : list (A * A) :=
  match l with
  | [] => []
  | x :: rest => ((fun y => (x, y)) <$> rest) ++ pairs_of rest
  end.

(** [np.median] of a list that is not empty. *)
Definition median (l : list R) : R :=
  let sorted := merge_sort Rle l in
  let n := length sorted in
  if Nat.even n
  then (default 0 (sorted !! (n / 2 - 1)%nat)
        + default 0 (sorted !! (n / 2)%nat)) / 2
  else default 0 (sorted !! (n / 2)%nat).

(** [estimate_scale_change(kp1, kp2, matches)]: the scale returned and
    [last_detected_scale] afterwards; [None] is the [IndexError] of a
    match index past the end of a feature list. *)
Definition estimate_scale_change (kp1 kp2 : list point)
    (matches : list dmatch) (last_detected_scale : R) : option (R * R) :=
  if (length matches <? 4)%nat then Some (1, last_detected_scale)
  else
    src_pts ← matched_points kp1 queryIdx matches;
    dst_pts ← matched_points kp2 trainIdx matches;
    let distances :=
      omap (fun '((src_i, dst_i), (src_j, dst_j)) =>
              let ref_dist := norm src_i src_j in
              let curr_dist := norm dst_i dst_j in
              if bool_decide (ref_dist > 10)
              then Some (ref_dist, curr_dist) else None)
           (pairs_of (zip src_pts dst_pts)) in
    if (length distances =? 0)%nat then Some (1, last_detected_scale)
    else
      let scales :=
        omap (fun '(ref_d, curr_d) =>
                if bool_decide (ref_d > 0) then Some (curr_d / ref_d)
                else None)
             distances in
      if (length scales =? 0)%nat then Some (1, last_detected_scale)
      else
        let median_scale := median scales in
        let smoothed_scale :=
          last_detected_scale * (1 - scale_smoothing_factor)
          + median_scale * scale_smoothing_factor in
        Some (smoothed_scale, smoothed_scale).

(** One round of the last loop of [detect_corners_robust], with priority
    template > Shi-Tomasi > Harris; [None] is an index past the end of
    [shitomasi_points] or [harris_points]. *)
Definition fuse_corner (template_pt : point)
    (shitomasi_pt harris_pt : option point) : point :=
  let from_harris :=
    match harris_pt with
    | Some p => if bool_decide (fst p <> -1) then p else sentinel
    | None => sentinel
    end in
  if bool_decide (fst template_pt <> -1) then template_pt
  else
    match shitomasi_pt with
    | Some p => if bool_decide (fst p <> -1) then p else from_harris
    | None => from_harris
    end.

(** One round of the fusion loop of [transfer_keypoints_robust] for the
    keypoint of index [i].  [n_matches] is [len(matches)], or [None] when
    the variable [matches] was never assigned, and the result [None] is
    the [NameError] that reading it raises then. *)
Definition fuse_point (n_matches : option nat) (corner_points : list point)
    (i : nat) (feat_pt temp_pt : point) : option point :=
  let plain :=
    if bool_decide (fst feat_pt <> -1) then feat_pt
    else if bool_decide (fst temp_pt <> -1) then temp_pt
    else sentinel in
  match (if (i <? corner_keypoints_count)%nat then corner_points !! i
         else None) with
  | Some corner_pt =>
      if bool_decide (fst corner_pt <> -1) then Some corner_pt
      else Some plain
  | None =>
      if bool_decide (fst feat_pt <> -1) && bool_decide (fst temp_pt <> -1)
      then
        let distance := norm feat_pt temp_pt in
        n ← n_matches;
        if bool_decide (distance < 25) then
          let feature_weight :=
            if (min_matches <=? n)%nat then 0.7 else 0.4 in
          let template_weight := 1.0 - feature_weight in
          Some (fst feat_pt * feature_weight + fst temp_pt * template_weight,
                snd feat_pt * feature_weight + snd temp_pt * template_weight)
        else if (min_matches <=? n)%nat then Some feat_pt else Some temp_pt
      else Some plain
  end.

Section RobustTransfer.

(** An ORB descriptor; the code reads only how many there are. *)
Variable descriptor : Type.

(** [cv2.resize(gray, (new_w, new_h))]; [None] when OpenCV raises. *)
Variable resize : image -> Z -> Z -> option image.

(** [self.feature_detectors['orb'].detectAndCompute(image, None)]: the
    positions [kp.pt] of the keypoints and the descriptors, either of
    which may be [None]; the outer [None] is an exception. *)
Variable detect_and_compute :
  image -> option (option (list point) * option (list descriptor)).

(** [self.matcher.knnMatch(desc1, desc2, k=2)]; [None] when it raises. *)
Variable knn_match :
  list descriptor -> list descriptor -> option (list (list dmatch)).

Variable find_homography : list point -> list point -> option matrix3.

Variable match_template :
  tm_method -> image -> image -> option (R * (Z * Z)).

(** [cv2.goodFeaturesToTrack(search_region, maxCorners=1, ...)]: the
    corners found; [None] when the call returns [None] or raises, which
    the code treats alike. *)
Variable good_features_to_track : image -> option (list point).

(** [cv2.cornerHarris(search_region, 2, 3, 0.04)] followed by
    [cv2.minMaxLoc]: [max_val] and [max_loc]; [None] when OpenCV
    raises. *)
Variable corner_harris : image -> option (R * (Z * Z)).

(** [extract_features_fast(image)]: keypoint positions and descriptors.
    The result [None] is an exception of [cv2.resize], which is called
    outside the [try] block. *)
Definition extract_features_fast (image : option image)
  : option (list point * option (list descriptor)) :=
  match image with
  | None => Some ([], None)
  | Some gray =>
      let h := shape_h gray in
      let w := shape_w gray in
      let max_dim := 800%Z in
      let large := (max_dim <? Z.max h w)%Z in
      let scale := IZR max_dim / IZR (Z.max h w) in
      let new_w := Py.int (IZR w * scale) in
      let new_h := Py.int (IZR h * scale) in
      image_resized ← (if large then resize gray new_w new_h else Some gray);
      match detect_and_compute image_resized with
      | Some (Some kp_orb, Some desc_orb) =>
          if large then
            if (new_w =? 0)%Z then Some ([], None)
            else
              let scale_factor := IZR w / IZR new_w in
              Some ((fun pt => (fst pt * scale_factor, snd pt * scale_factor))
                    <$> kp_orb, Some desc_orb)
          else Some (kp_orb, Some desc_orb)
      | _ => Some ([], None)
      end
  end.

(** [match_features_fast(desc1, desc2)]. *)
Definition match_features_fast (desc1 desc2 : option (list descriptor))
  : list dmatch :=
  match desc1, desc2 with
  | Some desc1, Some desc2 =>
      if (length desc1 =? 0)%nat || (length desc2 =? 0)%nat then []
      else
        match knn_match desc1 desc2 with
        | None => []
        | Some matches =>
            omap (fun match_pair =>
                    match match_pair with
                    | [m; n] =>
                        if bool_decide
                             (distance m < good_match_ratio * distance n)
                        then Some m else None
                    | _ => None
                    end)
                 matches
        end
  | _, _ => []
  end.

(** One round of the Shi-Tomasi loop of [detect_corners_robust]. *)
Definition shitomasi_point (current_gray : image) (scale_factor : R)
    (keypoint : point) : point :=
  let h := shape_h current_gray in
  let w := shape_w current_gray in
  let x := Py.int (fst keypoint * scale_factor) in
  let y := Py.int (snd keypoint * scale_factor) in
  let search_size := Py.int (150 * scale_factor) in
  let half_size := (search_size / 2)%Z in
  let x1 := Z.max 0 (x - half_size) in
  let y1 := Z.max 0 (y - half_size) in
  let x2 := Z.min w (x + half_size) in
  let y2 := Z.min h (y + half_size) in
  if ((x2 - x1 <? 50) || (y2 - y1 <? 50))%Z then sentinel
  else
    let search_region := slice current_gray y1 y2 x1 x2 in
    match good_features_to_track search_region with
    | Some (corner :: _) => (IZR x1 + fst corner, IZR y1 + snd corner)
    | _ => sentinel
    end.

(** One round of the Harris loop of [detect_corners_robust]. *)
Definition harris_point (current_gray : image) (scale_factor : R)
    (keypoint : point) : point :=
  let h := shape_h current_gray in
  let w := shape_w current_gray in
  let x := Py.int (fst keypoint * scale_factor) in
  let y := Py.int (snd keypoint * scale_factor) in
  let search_size := Py.int (150 * scale_factor) in
  let half_size := (search_size / 2)%Z in
  let x1 := Z.max 0 (x - half_size) in
  let y1 := Z.max 0 (y - half_size) in
  let x2 := Z.min w (x + half_size) in
  let y2 := Z.min h (y + half_size) in
  if ((x2 - x1 <? 50) || (y2 - y1 <? 50))%Z then sentinel
  else
    let search_region := slice current_gray y1 y2 x1 x2 in
    match corner_harris search_region with
    | Some (max_val, max_loc) =>
        if bool_decide (max_val > 0.01)
        then (IZR (x1 + fst max_loc), IZR (y1 + snd max_loc))
        else sentinel
    | None => sentinel
    end.

(** [detect_corners_robust(current_gray, scale_factor)]. *)
Definition detect_corners_robust (s : measurer) (current_gray : option image)
    (scale_factor : R) : list point :=
  let current_keypoints := current_keypoints s in
  let count := Nat.min corner_keypoints_count (length current_keypoints) in
  if (length current_keypoints <? count)%nat then []
  else
    match current_gray with
    | None => []
    | Some current_gray =>
        let template_points :=
          template_match_corners match_template s current_gray
            scale_factor in
        let shitomasi_points :=
          shitomasi_point current_gray scale_factor
          <$> take count current_keypoints in
        let harris_points :=
          harris_point current_gray scale_factor
          <$> take count current_keypoints in
        (fun '(i, template_pt) =>
           fuse_corner template_pt (shitomasi_points !! i)
             (harris_points !! i))
        <$> enumerate template_points
    end.

(** The [try] block of [transfer_keypoints_robust] up to the call of
    [stabilize_keypoints]: the fused positions, or [None] when an
    exception ends the block, and [last_detected_scale] afterwards. *)
Definition fused_points (transfer_method : method) (s : measurer)
    (current_gray current_reference_gray : image)
    (last_detected_scale : R) : option (list point) * R :=
  let current_keypoints := current_keypoints s in
  match extract_features_fast (Some current_reference_gray),
        extract_features_fast (Some current_gray) with
  | Some (ref_kp, ref_desc), Some (curr_kp, curr_desc) =>
      let no_features :=
        replicate (length current_keypoints) sentinel in
      let matched :=
        match ref_desc, curr_desc with
        | Some ref_d, Some curr_d =>
            if (0 <? length ref_d)%nat && (0 <? length curr_d)%nat
            then Some (match_features_fast ref_desc curr_desc)
            else None
        | _, _ => None
        end in
      let estimate :=
        match matched with
        | Some matches =>
            if (min_matches <=? length matches)%nat
            then
              '(scale_factor, last) ←
                estimate_scale_change ref_kp curr_kp matches
                  last_detected_scale;
              Some (feature_points find_homography transfer_method s
                      ref_kp curr_kp matches, scale_factor, last)
            else Some (no_features, 1, last_detected_scale)
        | None => Some (no_features, 1, last_detected_scale)
        end in
      match estimate with
      | None => (None, last_detected_scale)
      | Some (feature_points, scale_factor, last) =>
          let template_points :=
            template_match_keypoints match_template s current_gray
              scale_factor in
          let corner_points :=
            detect_corners_robust s (Some current_gray) scale_factor in
          let fused :=
            mapM (fun i =>
                    feat_pt ← feature_points !! i;
                    temp_pt ← template_points !! i;
                    fuse_point (length <$> matched) corner_points i
                      feat_pt temp_pt)
                 (seq 0 (length current_keypoints)) in
          match matched with
          | Some _ => (fused, last)
          | None => (None, last)
          end
      end
  | _, _ => (None, last_detected_scale)
  end.

(** [transfer_keypoints_robust(current_gray)]: the positions returned,
    with the stabilisation fields and [last_detected_scale]
    afterwards. *)
Definition transfer_keypoints_robust (transfer_method : method)
    (s : measurer) (current_gray : option image) (st : tracking * R)
  : list point * (tracking * R) :=
  let '(t, last_detected_scale) := st in
  match current_reference_gray s, current_keypoints s with
  | None, _ | _, [] => ([], st)
  | Some current_reference_gray, current_keypoints =>
      match current_gray with
      | None => ([], st)
      | Some current_gray =>
          let dimensions_match :=
            ((shape_w current_reference_gray =? shape_w current_gray)
             && (shape_h current_reference_gray =? shape_h current_gray))%Z in
          if dimensions_match then
            let '(points, t') :=
              direct_placement_with_refinement match_template current_gray
                current_reference_gray current_keypoints t in
            (points, (t', last_detected_scale))
          else
            match fused_points transfer_method s current_gray
                    current_reference_gray last_detected_scale with
            | (Some fused, last) =>
                let '(points, t') := stabilize_keypoints fused t in
                (points, (t', last))
            | (None, last) =>
                (template_match_keypoints match_template s current_gray 1,
                 (t, last))
            end
      end
  end.

End RobustTransfer.

(** ** Vocabulary of the properties *)

(** The annotation file of the active side and the document saved there. *)
Definition active_annotation_file (s : measurer) : string :=
  match current_side s with
  | Front => annotation_file s
  | Back => back_annotation_file s
  end.

Definition active_annotation_data (now : string) (s : measurer) : json :=
  match current_side s with
  | Front => annotation_data now s
  | Back => back_annotation_data now s
  end.

(** The reference image of a side is not written over its annotation. *)
Definition image_paths_apart (s : measurer) : Prop :=
  annotation_file s <> reference_image_file s /\
  back_annotation_file s <> back_reference_image_file s.

(** What OpenCV guarantees of the place of the best match: it is a place
    of the result array, whose size is that of the search region minus
    that of the template, plus one. *)
Definition places_within_result
    (match_template : tm_method -> image -> image -> option (R * (Z * Z)))
  : Prop :=
  forall method search_region template max_val max_loc,
    match_template method search_region template = Some (max_val, max_loc) ->
    (0 <= fst max_loc <= shape_w search_region - shape_w template)%Z /\
    (0 <= snd max_loc <= shape_h search_region - shape_h template)%Z.

(** The bounds reported in the record of a measurement. *)
Definition own_bounds (m : measurement) (r : live_record) : Prop :=
  lr_min_valid r = Py.round2 (m_real_distance m - 1) /\
  lr_max_valid r = Py.round2 (m_real_distance m + 1) /\
  lr_min_valid r <= m_real_distance m <= lr_max_valid r /\
  lr_min_valid r <= lr_actual_cm r <= lr_max_valid r /\
  lr_actual_cm r = Py.round2 (m_real_distance m) /\
  lr_qc_passed r = m_qc_passed m.

(** A record of the snapshot file, read as JSON, is that of the
    measurement [m]: its [id], [actual_cm] and [qc_passed] are those of
    [m], and its [min_valid] and [max_valid] are the roundings of the
    measured value of [m] minus and plus 1.0, which enclose the measured
    value and its rounding. *)
Definition reports_own_bounds (m : measurement) (record : json) : Prop :=
  exists fields : list (string * json),
    record = JObj fields /\
    Json.get "id" JNull fields = JNum (IZR (m_pair_num m)) /\
    Json.get "actual_cm" JNull fields = JNum (Py.round2 (m_real_distance m)) /\
    Json.get "min_valid" JNull fields
    = JNum (Py.round2 (m_real_distance m - 1)) /\
    Json.get "max_valid" JNull fields
    = JNum (Py.round2 (m_real_distance m + 1)) /\
    Json.get "qc_passed" JNull fields = JBool (m_qc_passed m) /\
    Py.round2 (m_real_distance m - 1) <= m_real_distance m
    <= Py.round2 (m_real_distance m + 1) /\
    Py.round2 (m_real_distance m - 1) <= Py.round2 (m_real_distance m)
    <= Py.round2 (m_real_distance m + 1).

(** The stable-frame counter is not negative, and [keypoint_stabilized]
    is set only when it has reached 2. *)
Definition tracking_consistent (t : tracking) : Prop :=
  (0 <= stabilization_frames t)%Z /\
  (keypoint_stabilized t = true -> (2 <= stabilization_frames t)%Z).

(** The measurement loop, run over a given list of pairs from given
    measurements, state and mark. *)
Definition measure_from (now : string) (cal : calibration)
    (frame_gray : option image) (pairs : list (Z * point * point))
    (acc : list measurement) (st : measurer * disk) (raised : bool)
  : list measurement * (measurer * disk) * bool :=
  foldl (measure_step now cal frame_gray) (acc, st, raised) pairs.

(** The pairs as the specification words them: for every [k] below
    [n / 2], the number [k] with the keypoints at indices [2k] and
    [2k + 1]. *)
Definition consecutive_pairs (t : list point) : list (nat * point * point) :=
  omap (fun k : nat =>
          p1 ← t !! (2 * k)%nat;
          p2 ← t !! (2 * k + 1)%nat;
          Some (k, p1, p2))
       (seq 0 (length t / 2)).

(** The positions at which the loop measures the pair of the keypoints
    [p1] and [p2] at indices [i] and [i + 1], for the object [s]: the
    keypoints themselves, or the scaled annotation in the place of one
    whose tracking failed; [None] when the pair is skipped. *)
Definition measured_positions (s : measurer) (frame_gray : option image)
    (i : nat) (p1 p2 : point) : option (point * point) :=
  fallback_positions (scale_factors s frame_gray)
    (current_keypoints s !! i) (current_keypoints s !! (i + 1)%nat) p1 p2.

(** The pair [k] as the loop holds it: with the index [2k] at which it
    starts. *)
Definition loop_pair (x : nat * point * point) : Z * point * point :=
  (Z.of_nat (2 * fst (fst x)), snd (fst x), snd x).

(** The pairs that the loop can measure, each with its number [k], its
    keypoints and the positions measured. *)
Definition measurable_pairs (s : measurer) (frame_gray : option image)
    (t : list point) : list (nat * point * point * (point * point)) :=
  omap (fun x : nat * point * point =>
          q ← measured_positions s frame_gray (2 * fst (fst x))
                (snd (fst x)) (snd x);
          Some (x, q))
       (consecutive_pairs t).

(** The measurement [m] is that of a measurable pair: it carries the
    pair number [k + 1], the distance between the positions measured and
    the mark that the tracking of one of the two keypoints failed. *)
Definition measures (x : nat * point * point * (point * point))
    (m : measurement) : Prop :=
  let '(k, p1, p2, (q1, q2)) := x in
  m_pair_num m = (Z.of_nat k + 1)%Z /\
  m_pixel_distance m
  = sqrt ((fst q2 - fst q1) ^ 2 + (snd q2 - snd q1) ^ 2) /\
  m_is_fallback m = Some (tracking_failed p1 || tracking_failed p2).

(** The targets of the side that is not active. *)
Definition other_target_distances (s : measurer) : gmap Z R :=
  match current_side s with
  | Front => back_target_distances s
  | Back => target_distances s
  end.

(** A position with whole coordinates less than 60 pixels from the
    truncated annotation [kp] on each axis. *)
Definition near_annotation (kp p : point) : Prop :=
  exists a b : Z,
    p = (IZR a, IZR b) /\
    (Z.abs (a - Py.int (fst kp)) < 60)%Z /\
    (Z.abs (b - Py.int (snd kp)) < 60)%Z.

(** The corner [(x1, y1)] from which the two coordinate conversions
    count, for a zoom factor above 1. *)
Definition conversion_origin (h w : Z) (v : view) : R * R :=
  let '(center_x, center_y) := default (w / 2, h / 2)%Z (zoom_center v) in
  (Rmax 0 (IZR (center_x + pan_x v)
           - floordiv (IZR w / zoom_factor v) 2),
   Rmax 0 (IZR (center_y + pan_y v)
           - floordiv (IZR h / zoom_factor v) 2)).

(** A run of mouse events, each with its position and flags. *)
Definition mouse_events (events : list (mouse_event * Z * Z * Z))
    (v : view) : view :=
  foldl (fun v '(event, x, y, flags) => live_mouse_callback event x y flags v)
    v events.

(** * Properties *)

(** ** Decoding what was encoded *)

Lemma mapM_fmap_inverse {A B : Type} (f : B -> option A) (g : A -> B)
    (l : list A) :
  (forall x, f (g x) = Some x) -> mapM f (g <$> l) = Some l.
Proof.
  intros Hfg. induction l as [|x l IH]; [reflexivity|].
  cbn [fmap list_fmap mapM]. rewrite Hfg, IH. reflexivity.
Qed.

(** [int(str(k)) == k]. *)
Lemma int_of_str_str (k : Z) : Py.int_of_str (Py.str k) = Some k.
Proof.
  unfold Py.int_of_str, Py.str. rewrite NilZero.isi.
  - cbn. by rewrite DecimalZ.of_to.
  - destruct k; cbn; [discriminate| |discriminate].
    intros [= H]. by apply DecimalPos.Unsigned.to_uint_nonnil in H.
  - destruct k; cbn; [discriminate|discriminate|].
    intros [= H]. by apply DecimalPos.Unsigned.to_uint_nonnil in H.
Qed.

Lemma to_points_of_points (ps : list point) :
  Json.to_points (Json.of_points ps) = Some ps.
Proof.
  unfold Json.to_points, Json.of_points.
  apply mapM_fmap_inverse. by intros [x y].
Qed.

Lemma to_numbers_of_numbers (xs : list R) :
  Json.to_numbers (Json.of_numbers xs) = Some xs.
Proof.
  unfold Json.to_numbers, Json.of_numbers. by apply mapM_fmap_inverse.
Qed.

Lemma to_targets_of_targets (m : gmap Z R) :
  to_targets (Json.of_targets m) = Some m.
Proof.
  unfold to_targets, Json.of_targets.
  rewrite <- fmap_reverse.
  rewrite (mapM_fmap_inverse _ _ (reverse (map_to_list m))).
  - cbn. f_equal.
    rewrite <- (list_to_map_proper (map_to_list m)).
    + apply list_to_map_to_list.
    + apply NoDup_fst_map_to_list.
    + symmetry. apply reverse_Permutation.
  - intros [k v]. cbn [fst snd]. rewrite int_of_str_str. reflexivity.
Qed.

(** ** Quality control (C1) *)

Lemma save_annotation_persists now s d :
  annotation_file s <> reference_image_file s ->
  snd (save_annotation now s d) !! annotation_file s
  = Some (FJson (annotation_data now s)).
Proof.
  intros Hne. unfold save_annotation, save_reference_image.
  destruct (reference_image s); simpl.
  - rewrite lookup_insert_ne by congruence. apply lookup_insert_eq.
  - apply lookup_insert_eq.
Qed.

Lemma save_back_annotation_persists now s d :
  back_annotation_file s <> back_reference_image_file s ->
  snd (save_back_annotation now s d) !! back_annotation_file s
  = Some (FJson (back_annotation_data now s)).
Proof.
  intros Hne. unfold save_back_annotation, save_back_reference_image.
  destruct (back_reference_image s); simpl.
  - rewrite lookup_insert_ne by congruence. apply lookup_insert_eq.
  - apply lookup_insert_eq.
Qed.

(** C1.  [check_qc] on a pair without a target of the active side stores
    the measured value as the target, writes the updated annotation of
    that side to its file and passes: the file then holds a document
    whose [target_distances] decode to the former targets with the pair
    set to the measured value, and whose [keypoints] are those of the
    side.  On a pair with target [t] it passes exactly when
    [|m - t| <= qc_tolerance_cm], and leaves targets and files as they
    were. *)
Theorem check_qc_baseline_then_tolerance
    (now : string) (p : Z) (m : R) (s : measurer) (d : disk)
    (Hpaths : image_paths_apart s) :
  let '(passed, s', d') := check_qc now p m s d in
  match current_target_distances s !! p with
  | None =>
      passed = true /\
      current_target_distances s' = <[p := m]> (current_target_distances s) /\
      d' !! active_annotation_file s'
        = Some (FJson (active_annotation_data now s')) /\
      exists fields,
        d' !! active_annotation_file s = Some (FJson (JObj fields)) /\
        to_targets (Json.get "target_distances" (JObj []) fields)
        = Some (<[p := m]> (current_target_distances s)) /\
        Json.to_points (Json.get "keypoints" (JArr []) fields)
        = Some (current_keypoints s)
  | Some t =>
      (passed = true <-> Rabs (m - t) <= qc_tolerance_cm s) /\
      (passed = false <-> ~ Rabs (m - t) <= qc_tolerance_cm s) /\
      current_target_distances s' = current_target_distances s /\
      d' = d
  end.
Proof.
  destruct Hpaths as [Hfront Hback].
  unfold check_qc, current_target_distances, active_annotation_file,
    active_annotation_data, current_keypoints.
  destruct (current_side s) eqn:Hside.
  - destruct (target_distances s !! p) as [t|] eqn:Hp.
    + destruct (Rle_dec (Rabs (m - t)) (qc_tolerance_cm s)) as [Hle|Hgt];
        cbn; rewrite Hside; intuition congruence.
    + pose proof (save_annotation_persists now
               (set_target_distances (<[p:=m]> (target_distances s)) s) d
               Hfront) as Hfile.
      cbn. rewrite Hside. split; [reflexivity|]. split; [reflexivity|].
      split; [exact Hfile|].
      eexists. split; [exact Hfile|].
      cbn [Json.get String.eqb Ascii.eqb Bool.eqb].
      split; [apply to_targets_of_targets|apply to_points_of_points].
  - destruct (back_target_distances s !! p) as [t|] eqn:Hp.
    + destruct (Rle_dec (Rabs (m - t)) (qc_tolerance_cm s)) as [Hle|Hgt];
        cbn; rewrite Hside; intuition congruence.
    + pose proof (save_back_annotation_persists now
               (set_back_target_distances
                  (<[p:=m]> (back_target_distances s)) s) d Hback) as Hfile.
      cbn. rewrite Hside. split; [reflexivity|]. split; [reflexivity|].
      split; [exact Hfile|].
      eexists. split; [exact Hfile|].
      cbn [Json.get String.eqb Ascii.eqb Bool.eqb].
      split; [apply to_targets_of_targets|apply to_points_of_points].
Qed.

(** C1 on the object built by [__init__], for a first measurement of
    200 cm of pair 1. *)
Lemma check_qc_baseline_then_tolerance_witness :
  image_paths_apart new_measurer /\
  let '(passed, s', d') := check_qc "2026-01-01" 1 200 new_measurer ∅ in
  match current_target_distances new_measurer !! 1%Z with
  | None =>
      passed = true /\
      current_target_distances s'
        = <[1%Z := 200]> (current_target_distances new_measurer) /\
      d' !! active_annotation_file s'
        = Some (FJson (active_annotation_data "2026-01-01" s')) /\
      exists fields,
        d' !! active_annotation_file new_measurer
        = Some (FJson (JObj fields)) /\
        to_targets (Json.get "target_distances" (JObj []) fields)
        = Some (<[1%Z := 200]> (current_target_distances new_measurer)) /\
        Json.to_points (Json.get "keypoints" (JArr []) fields)
        = Some (current_keypoints new_measurer)
  | Some t =>
      (passed = true <-> Rabs (200 - t) <= qc_tolerance_cm new_measurer) /\
      (passed = false <-> ~ Rabs (200 - t) <= qc_tolerance_cm new_measurer) /\
      current_target_distances s' = current_target_distances new_measurer /\
      d' = ∅
  end.
Proof.
  assert (Hpaths : image_paths_apart new_measurer)
    by (split; discriminate).
  split; [exact Hpaths|].
  exact (check_qc_baseline_then_tolerance "2026-01-01" 1 200 new_measurer ∅
           Hpaths).
Defined.

(** ** Temporal stabilisation (C2, C8) *)

Lemma fmap_same {A : Type} (l : list A) : (fun x => x) <$> l = l.
Proof. induction l as [|x l IH]; [done|]. cbn. by f_equal. Qed.

Section Rounds.

Context {B C : Type} (f : nat -> point -> point -> B) (h : B -> C)
  (g : point -> C).

(** The loop over [enumerate(zip(new, last))], seen through [h], when
    every round is known to yield [g] of the candidate. *)
Lemma rounds_pointwise (k : nat) (new last : list point) :
  length last = length new ->
  (forall i n l, new !! i = Some n -> last !! i = Some l ->
                 h (f (k + i) n l) = g n) ->
  h <$> ((fun '(i, (n, l)) => f i n l) <$> enumerate_from k (zip new last))
  = g <$> new.
Proof.
  revert k last. induction new as [|n new IH]; intros k last Hlen Hf.
  - reflexivity.
  - destruct last as [|l last]; [discriminate|].
    cbn [zip zip_with enumerate_from fmap list_fmap]. f_equal.
    + specialize (Hf 0%nat n l eq_refl eq_refl).
      rewrite Nat.add_0_r in Hf. exact Hf.
    + apply IH; [by injection Hlen|].
      intros i n' l' Hn Hl. specialize (Hf (S i) n' l' Hn Hl).
      by rewrite Nat.add_succ_r in Hf.
Qed.

End Rounds.

Lemma magnitude_0 : magnitude 0 0 = 0.
Proof.
  unfold magnitude. replace (0 ^ 2 + 0 ^ 2) with 0 by ring. apply sqrt_0.
Qed.

(** A valid candidate that has not moved is kept and counted. *)
Lemma stabilize_point_still (last_valid new_keypoints : list point)
    (i : nat) (p : point) :
  fst p <> -1 -> snd p <> -1 ->
  stabilize_point last_valid new_keypoints i p p = (p, true).
Proof.
  intros Hx Hy. unfold stabilize_point.
  rewrite !bool_decide_eq_false_2 by assumption. cbn [orb].
  replace ((fst p - fst p) ^ 2 + (snd p - snd p) ^ 2) with 0 by ring.
  rewrite sqrt_0, bool_decide_eq_true_2; [done|].
  unfold stabilization_threshold; lra.
Qed.

(** When every round keeps and counts its candidate, the call returns the
    candidates and advances the stable-frame counter. *)
Lemma stabilize_keypoints_all_accepted (new : list point) (t : tracking) :
  last_valid_keypoints t <> [] ->
  length (last_valid_keypoints t) = length new ->
  (forall i n l, new !! i = Some n -> last_valid_keypoints t !! i = Some l ->
     stabilize_point (last_valid_keypoints t) new i n l = (n, true)) ->
  stabilize_keypoints new t
  = (new,
     Tracking new (stabilization_frames t + 1)
       (if (2 <=? stabilization_frames t + 1)%Z then true
        else keypoint_stabilized t)).
Proof.
  intros Hne Hlen Hall. unfold stabilize_keypoints.
  rewrite bool_decide_eq_false_2 by assumption.
  rewrite Hlen, Nat.eqb_refl. cbn [orb negb].
  unfold enumerate.
  pose proof (rounds_pointwise
                (stabilize_point (last_valid_keypoints t) new)
                (fun r : point * bool => r)
                (fun n => (n, true)) 0%nat new (last_valid_keypoints t) Hlen)
    as Hrounds.
  rewrite fmap_same in Hrounds. rewrite Hrounds by exact Hall.
  rewrite <- list_fmap_compose. change (fst ∘ _) with (fun n : point => n).
  rewrite fmap_same.
  assert (Hcount : length (filter (fun r : point * bool => snd r = true)
                             ((fun n : point => (n, true)) <$> new))
                   = length new).
  { clear. induction new as [|n new IH]; [reflexivity|].
    cbn [fmap list_fmap]. rewrite filter_cons_True by reflexivity.
    cbn [length]. by f_equal. }
  rewrite Hcount, Nat.eqb_refl. reflexivity.
Qed.

(** A candidate set equal to the remembered positions, all valid, is
    returned as it is and counted as one more stable frame. *)
Lemma stabilize_keypoints_still (kps : list point) (frames : Z)
    (stab : bool) :
  kps <> [] ->
  Forall (fun p => fst p <> -1 /\ snd p <> -1) kps ->
  stabilize_keypoints kps (Tracking kps frames stab)
  = (kps,
     Tracking kps (frames + 1)
       (if (2 <=? frames + 1)%Z then true else stab)).
Proof.
  intros Hne Hvalid.
  apply (stabilize_keypoints_all_accepted kps (Tracking kps frames stab));
    [exact Hne|reflexivity|].
  cbn [last_valid_keypoints]. intros i n l Hn Hl.
  assert (l = n) as -> by congruence.
  rewrite Forall_lookup in Hvalid. destruct (Hvalid i n Hn) as [Hx Hy].
  by apply stabilize_point_still.
Qed.

(** C8.  From a state whose remembered positions are the incoming
    candidates (a non-empty list of valid positions), each of two
    consecutive calls with those same candidates increments the
    stable-frame counter, and after the second [keypoint_stabilized] is
    true. *)
Theorem two_identical_frames_stabilize (kps : list point) (frames : Z)
    (stab : bool)
    (Hinit : kps <> [])
    (Hvalid : Forall (fun p => fst p <> -1 /\ snd p <> -1) kps)
    (Hframes : (0 <= frames)%Z) :
  let '(out1, t1) := stabilize_keypoints kps (Tracking kps frames stab) in
  let '(out2, t2) := stabilize_keypoints kps t1 in
  out1 = kps /\ stabilization_frames t1 = (frames + 1)%Z /\
  out2 = kps /\ stabilization_frames t2 = (frames + 2)%Z /\
  keypoint_stabilized t2 = true.
Proof.
  rewrite (stabilize_keypoints_still kps frames stab Hinit Hvalid).
  rewrite (stabilize_keypoints_still kps _ _ Hinit Hvalid).
  cbn [stabilization_frames keypoint_stabilized].
  repeat split; [lia|].
  destruct (2 <=? frames + 1 + 1)%Z eqn:Hge; [reflexivity|].
  apply Z.leb_gt in Hge. lia.
Qed.

(** C8 for two keypoints and a counter at 0. *)
Lemma two_identical_frames_stabilize_witness :
  let kps : list point := [(100, 100); (300, 100)] in
  let '(out1, t1) := stabilize_keypoints kps (Tracking kps 0 false) in
  let '(out2, t2) := stabilize_keypoints kps t1 in
  out1 = kps /\ stabilization_frames t1 = (0 + 1)%Z /\
  out2 = kps /\ stabilization_frames t2 = (0 + 2)%Z /\
  keypoint_stabilized t2 = true.
Proof.
  apply (two_identical_frames_stabilize [(100, 100); (300, 100)] 0 false).
  - discriminate.
  - repeat constructor; cbn; lra.
  - lia.
Defined.

(** Whatever holds of every displacement that passes the tests of the
    first loop of [check_coordinated_movement] holds of all collected
    directions. *)
Lemma movement_directions_Forall (P : R * R -> Prop)
    (last new : list point) (changed : nat) :
  (forall i n l, new !! i = Some n -> last !! i = Some l ->
     i <> changed -> fst n <> -1 -> fst l <> -1 ->
     magnitude (fst n - fst l) (snd n - snd l) > 5 ->
     P (fst n - fst l, snd n - snd l)) ->
  Forall P (movement_directions last new changed).
Proof.
  unfold movement_directions, enumerate.
  assert (Hgen : forall k new last,
    (forall i n l, new !! i = Some n -> last !! i = Some l ->
       (k + i)%nat <> changed -> fst n <> -1 -> fst l <> -1 ->
       magnitude (fst n - fst l) (snd n - snd l) > 5 ->
       P (fst n - fst l, snd n - snd l)) ->
    Forall P
      (omap (fun '(i, (new_pt, last_pt)) =>
          if bool_decide (fst new_pt <> -1) && bool_decide (fst last_pt <> -1)
             && bool_decide (i <> changed)
          then
            let dx := fst new_pt - fst last_pt in
            let dy := snd new_pt - snd last_pt in
            if bool_decide (magnitude dx dy > 5) then Some (dx, dy) else None
          else None)
        (enumerate_from k (zip new last)))).
  { clear. intros k new. revert k.
    induction new as [|n new IH]; intros k last HP; [constructor|].
    destruct last as [|l last]; [constructor|].
    assert (Htail : forall i n' l', new !! i = Some n' -> last !! i = Some l' ->
       (S k + i)%nat <> changed -> fst n' <> -1 -> fst l' <> -1 ->
       magnitude (fst n' - fst l') (snd n' - snd l') > 5 ->
       P (fst n' - fst l', snd n' - snd l')).
    { intros i n' l' Hn Hl Hi. apply (HP (S i) n' l' Hn Hl).
      by rewrite Nat.add_succ_r. }
    specialize (IH (S k) last Htail).
    cbn [zip zip_with enumerate_from omap list_omap].
    destruct (bool_decide (fst n <> -1)) eqn:Hn; [|exact IH].
    destruct (bool_decide (fst l <> -1)) eqn:Hl; [|exact IH].
    destruct (bool_decide (k <> changed)) eqn:Hk; [|exact IH].
    cbn [andb].
    destruct (bool_decide (magnitude (fst n - fst l) (snd n - snd l) > 5))
      eqn:Hm; [|exact IH].
    constructor; [|exact IH].
    apply bool_decide_eq_true_1 in Hn, Hl, Hk, Hm.
    apply (HP 0%nat n l eq_refl eq_refl); try assumption.
    by rewrite Nat.add_0_r. }
  intros HP. apply Hgen. exact HP.
Qed.

(** When only keypoint [j] differs from its remembered position, no other
    keypoint has moved: there are no corroborating directions. *)
Lemma movement_directions_isolated (last new : list point) (j : nat) :
  (forall i, i <> j -> new !! i = last !! i) ->
  movement_directions last new j = [].
Proof.
  intros Hsame.
  assert (Hall : Forall (fun _ => False) (movement_directions last new j)).
  { apply movement_directions_Forall. intros i n l Hn Hl Hi _ _ Hmag.
    assert (n = l) as ->.
    { specialize (Hsame i Hi). congruence. }
    replace (fst l - fst l) with 0 in Hmag by ring.
    replace (snd l - snd l) with 0 in Hmag by ring.
    rewrite magnitude_0 in Hmag. lra. }
  destruct (movement_directions last new j) as [|v dirs]; [reflexivity|].
  by inversion Hall.
Qed.

(** Such an isolated change of position passes the coordinated-movement
    check. *)
Lemma check_coordinated_movement_isolated (last new : list point)
    (j : nat) :
  (forall i, i <> j -> new !! i = last !! i) ->
  check_coordinated_movement last new j = true.
Proof.
  intros Hsame. unfold check_coordinated_movement.
  destruct (length last <? 3)%nat; [reflexivity|].
  by rewrite (movement_directions_isolated last new j Hsame).
Qed.

(** The positions a call returns, when every round is known to return its
    candidate (counted as valid or not). *)
Lemma stabilize_keypoints_positions (new : list point) (t : tracking) :
  last_valid_keypoints t <> [] ->
  length (last_valid_keypoints t) = length new ->
  (forall i n l, new !! i = Some n -> last_valid_keypoints t !! i = Some l ->
     fst (stabilize_point (last_valid_keypoints t) new i n l) = n) ->
  fst (stabilize_keypoints new t) = new /\
  last_valid_keypoints (snd (stabilize_keypoints new t)) = new.
Proof.
  intros Hne Hlen Hall. unfold stabilize_keypoints.
  rewrite bool_decide_eq_false_2 by assumption.
  rewrite Hlen, Nat.eqb_refl. cbn [orb negb].
  unfold enumerate.
  rewrite (rounds_pointwise (stabilize_point (last_valid_keypoints t) new)
             fst (fun n => n) 0%nat new (last_valid_keypoints t) Hlen Hall).
  rewrite fmap_same.
  by destruct (_ =? _)%nat.
Qed.

Lemma stabilize_point_passed (last_valid new_keypoints : list point)
    (i : nat) (n l : point) :
  fst n <> -1 -> snd n <> -1 ->
  check_coordinated_movement last_valid new_keypoints i = true ->
  stabilize_point last_valid new_keypoints i n l = (n, true).
Proof.
  intros Hx Hy Hcheck. unfold stabilize_point.
  rewrite !bool_decide_eq_false_2 by assumption. cbn [orb].
  rewrite Hcheck. by destruct (bool_decide _).
Qed.

Lemma Rsum_const (c : R) (l : list R) :
  Forall (fun x => x = c) l -> Rsum l = INR (length l) * c.
Proof.
  induction 1 as [|x l -> _ IH].
  - cbn. ring.
  - change (Rsum (c :: l)) with (c + Rsum l).
    rewrite IH, length_cons, S_INR. ring.
Qed.

Lemma mean_const (c : R) (l : list R) :
  l <> [] -> Forall (fun x => x = c) l -> mean l = c.
Proof.
  intros Hne Hall. unfold mean. rewrite (Rsum_const c l Hall).
  assert (INR (length l) <> 0).
  { apply not_0_INR. by destruct l. }
  by field.
Qed.

(** Displacements that all equal the (non-zero) mean displacement have
    cosine 1 each. *)
Lemma consistency_sum_const (dx dy : R) (dirs : list (R * R)) :
  magnitude dx dy > 0 ->
  Forall (fun v => v = (dx, dy)) dirs ->
  consistency_sum dx dy dirs = INR (length dirs).
Proof.
  intros Hmag Hall. unfold consistency_sum.
  assert (Hgen : forall acc,
    foldl (consistency_step dx dy) acc dirs = acc + INR (length dirs)).
  { induction Hall as [|v dirs -> _ IH]; intros acc.
    - cbn. ring.
    - cbn [foldl]. rewrite IH, length_cons, S_INR.
      unfold consistency_step. unfold magnitude in Hmag.
      rewrite !bool_decide_eq_true_2 by exact Hmag. cbn [andb].
      assert (Hsq : sqrt (dx ^ 2 + dy ^ 2) * sqrt (dx ^ 2 + dy ^ 2)
                    = dx * dx + dy * dy).
      { rewrite sqrt_sqrt by nra. ring. }
      rewrite Hsq. field. nra. }
  rewrite Hgen. ring.
Qed.

(** When every keypoint is displaced by the same vector, the
    coordinated-movement check passes for each of them. *)
Lemma check_coordinated_movement_shift (last new : list point)
    (d : R * R) (j : nat) :
  (forall i n l, new !! i = Some n -> last !! i = Some l ->
     n = (fst l + fst d, snd l + snd d)) ->
  check_coordinated_movement last new j = true.
Proof.
  intros Hshift. unfold check_coordinated_movement.
  destruct (length last <? 3)%nat; [reflexivity|].
  pose proof (movement_directions_Forall
    (fun v => v = d /\ magnitude (fst d) (snd d) > 5) last new j) as Hdirs.
  assert (Hall : Forall (fun v => v = d /\ magnitude (fst d) (snd d) > 5)
                   (movement_directions last new j)).
  { apply Hdirs. intros i n l Hn Hl _ _ _ Hmag.
    rewrite (Hshift i n l Hn Hl) in Hmag |- *. cbn [fst snd] in Hmag |- *.
    replace (fst l + fst d - fst l) with (fst d) in Hmag |- * by ring.
    replace (snd l + snd d - snd l) with (snd d) in Hmag |- * by ring.
    split; [by destruct d|exact Hmag]. }
  clear Hdirs.
  destruct (movement_directions last new j) as [|v dirs] eqn:Hd;
    [reflexivity|].
  destruct (length (v :: dirs) <? 2)%nat; [reflexivity|].
  assert (Hmag : magnitude (fst d) (snd d) > 0).
  { inversion Hall as [|? ? [_ H5] _]. lra. }
  assert (Heq : Forall (fun v => v = d) (v :: dirs)).
  { eapply Forall_impl; [exact Hall|]. by intros ? [? _]. }
  rewrite (mean_const (fst d) (fst <$> v :: dirs)); [|discriminate|].
  2:{ apply Forall_fmap. eapply Forall_impl; [exact Heq|].
      by intros ? ->. }
  rewrite (mean_const (snd d) (snd <$> v :: dirs)); [|discriminate|].
  2:{ apply Forall_fmap. eapply Forall_impl; [exact Heq|].
      by intros ? ->. }
  rewrite (consistency_sum_const (fst d) (snd d) (v :: dirs) Hmag).
  2:{ eapply Forall_impl; [exact Heq|]. intros ? ->. by destruct d. }
  apply bool_decide_eq_true_2.
  assert (INR (length (v :: dirs)) <> 0) by (apply not_0_INR; discriminate).
  replace (INR (length (v :: dirs)) / INR (length (v :: dirs))) with 1
    by (by field).
  lra.
Qed.

(** A change of position of keypoint [j] alone is kept, whatever its
    size: the positions returned and remembered are the candidates. *)
Lemma stabilize_keypoints_isolated (new : list point) (t : tracking)
    (j : nat) :
  last_valid_keypoints t <> [] ->
  length (last_valid_keypoints t) = length new ->
  (forall i, i <> j -> new !! i = last_valid_keypoints t !! i) ->
  (forall n, new !! j = Some n -> fst n <> -1 /\ snd n <> -1) ->
  fst (stabilize_keypoints new t) = new /\
  last_valid_keypoints (snd (stabilize_keypoints new t)) = new.
Proof.
  intros Hne Hlen Hsame Hvalid.
  apply stabilize_keypoints_positions; [assumption..|].
  intros i n l Hn Hl. destruct (decide (i = j)) as [->|Hij].
  - destruct (Hvalid n Hn) as [Hx Hy].
    rewrite stabilize_point_passed; [reflexivity|assumption..|].
    by apply check_coordinated_movement_isolated.
  - assert (l = n) as -> by (specialize (Hsame i Hij); congruence).
    unfold stabilize_point.
    destruct (bool_decide (fst n = -1) || bool_decide (snd n = -1));
      [reflexivity|].
    destruct (bool_decide _); [reflexivity|].
    by destruct (check_coordinated_movement _ _ _).
Qed.

(** A displacement of all keypoints by one vector [d] is kept, whatever
    its size, and the frame counts as stable. *)
Lemma stabilize_keypoints_shift (new : list point) (t : tracking)
    (d : R * R) :
  last_valid_keypoints t <> [] ->
  length (last_valid_keypoints t) = length new ->
  (forall i n l, new !! i = Some n -> last_valid_keypoints t !! i = Some l ->
     n = (fst l + fst d, snd l + snd d)) ->
  Forall (fun p => fst p <> -1 /\ snd p <> -1) new ->
  stabilize_keypoints new t
  = (new,
     Tracking new (stabilization_frames t + 1)
       (if (2 <=? stabilization_frames t + 1)%Z then true
        else keypoint_stabilized t)).
Proof.
  intros Hne Hlen Hshift Hvalid.
  apply stabilize_keypoints_all_accepted; [assumption..|].
  intros i n l Hn Hl. rewrite Forall_lookup in Hvalid.
  destruct (Hvalid i n Hn) as [Hx Hy].
  apply stabilize_point_passed; [assumption..|].
  by apply (check_coordinated_movement_shift _ _ d).
Qed.

(** C2, as the code has it.  With remembered positions [last] (not
    empty): a candidate set [iso] of the same cardinality in which only
    keypoint [j] has moved (by 50 pixels or any other distance) to a valid
    position is accepted, keypoint [j] taking its new position; and a
    candidate set [coord] of valid positions in which every keypoint has
    moved by the same vector [d] is accepted, with every new position
    kept. *)
Theorem isolated_and_coordinated_jumps_accepted
    (last iso coord : list point) (frames : Z) (stab : bool) (j : nat)
    (d : R * R)
    (Hinit : last <> [])
    (Hiso_card : length last = length iso)
    (Hiso : forall i, i <> j -> iso !! i = last !! i)
    (Hjump : forall n, iso !! j = Some n -> fst n <> -1 /\ snd n <> -1)
    (Hcoord_card : length last = length coord)
    (Hcoord : forall i n l, coord !! i = Some n -> last !! i = Some l ->
                n = (fst l + fst d, snd l + snd d))
    (Hvalid : Forall (fun p => fst p <> -1 /\ snd p <> -1) coord) :
  fst (stabilize_keypoints iso (Tracking last frames stab)) !! j = iso !! j /\
  fst (stabilize_keypoints iso (Tracking last frames stab)) = iso /\
  fst (stabilize_keypoints coord (Tracking last frames stab)) = coord /\
  stabilization_frames
    (snd (stabilize_keypoints coord (Tracking last frames stab)))
  = (frames + 1)%Z.
Proof.
  destruct (stabilize_keypoints_isolated iso (Tracking last frames stab) j
              Hinit Hiso_card Hiso Hjump) as [Hpos _].
  rewrite Hpos.
  rewrite (stabilize_keypoints_shift coord (Tracking last frames stab) d
             Hinit Hcoord_card Hcoord Hvalid).
  done.
Qed.

(** C2, as the code has it, for three keypoints on a line and jumps of
    50 pixels to the right. *)
Lemma isolated_and_coordinated_jumps_accepted_witness :
  let last : list point := [(100, 100); (200, 100); (300, 100)] in
  let iso : list point := [(150, 100); (200, 100); (300, 100)] in
  let coord : list point := [(150, 100); (250, 100); (350, 100)] in
  fst (stabilize_keypoints iso (Tracking last 0 false)) !! 0%nat
    = iso !! 0%nat /\
  fst (stabilize_keypoints iso (Tracking last 0 false)) = iso /\
  fst (stabilize_keypoints coord (Tracking last 0 false)) = coord /\
  stabilization_frames (snd (stabilize_keypoints coord (Tracking last 0 false)))
  = (0 + 1)%Z.
Proof.
  apply (isolated_and_coordinated_jumps_accepted
           [(100, 100); (200, 100); (300, 100)]
           [(150, 100); (200, 100); (300, 100)]
           [(150, 100); (250, 100); (350, 100)] 0 false 0 (50, 0)).
  - discriminate.
  - reflexivity.
  - intros [|i] Hi; [contradiction|reflexivity].
  - intros n [= <-]. cbn. split; lra.
  - reflexivity.
  - intros [|[|[|i]]] n l [= <-] [= <-]; cbn; f_equal; lra.
  - repeat constructor; cbn; lra.
Defined.

(** C2 as stated fails: with three keypoints, the first jumping 50 pixels
    to the right while the other two stay where they were, the first
    keypoint does not keep its last valid position [(100, 100)]; it takes
    the candidate [(150, 100)]. *)
Lemma isolated_jump_is_not_rejected :
  let last : list point := [(100, 100); (200, 100); (300, 100)] in
  let iso : list point := [(150, 100); (200, 100); (300, 100)] in
  magnitude (150 - 100) (100 - 100) = 50 /\
  fst (stabilize_keypoints iso (Tracking last 0 false)) !! 0%nat
    = Some (150, 100) /\
  fst (stabilize_keypoints iso (Tracking last 0 false)) !! 0%nat
    <> last !! 0%nat.
Proof.
  cbv zeta.
  assert (Hpos : fst (stabilize_keypoints
                        [(150, 100); (200, 100); (300, 100)]
                        (Tracking [(100, 100); (200, 100); (300, 100)] 0 false))
                 = [(150, 100); (200, 100); (300, 100)]).
  { apply (stabilize_keypoints_isolated _ _ 0%nat).
    - discriminate.
    - reflexivity.
    - intros [|i] Hi; [contradiction|reflexivity].
    - intros n [= <-]. cbn. split; lra. }
  rewrite Hpos. split; [|split].
  - unfold magnitude. replace ((150 - 100) ^ 2 + (100 - 100) ^ 2) with (50 ^ 2)
      by ring.
    apply sqrt_pow2. lra.
  - reflexivity.
  - cbn. intros [= H]. lra.
Qed.

(** ** Geometric transfer (C3, C6) *)

Lemma transfer_with_homography_degenerate
    (find_homography : list point -> list point -> option matrix3)
    (s : measurer) (ref_kp curr_kp : list point) (matches : list dmatch)
    (src_pts dst_pts : list point) (H : matrix3) :
  matched_points ref_kp queryIdx matches = Some src_pts ->
  matched_points curr_kp trainIdx matches = Some dst_pts ->
  find_homography src_pts dst_pts = Some H ->
  Rabs (det3 H) <= 0.1 \/ Rabs (det3 H) >= 10 ->
  transfer_with_homography find_homography s ref_kp curr_kp matches
  = (None, []).
Proof.
  intros Hsrc Hdst Hfit Hdet. unfold transfer_with_homography.
  destruct (length matches <? min_matches)%nat; [reflexivity|].
  rewrite Hsrc, Hdst, Hfit.
  destruct Hdet as [Hlow|Hhigh].
  - by rewrite (bool_decide_eq_false_2 (0.1 < _)) by lra.
  - rewrite (bool_decide_eq_false_2 (_ < 10)) by lra.
    by rewrite andb_false_r.
Qed.

(** C3.  A fitted homography [H] with [|det H| <= 0.1] or
    [|det H| >= 10] is never applied: [transfer_with_homography] then
    returns no points, and the per-frame transfer (at least 20 matches,
    method 'homography' or 'auto') takes the positions of
    [transfer_with_mls].  Conversely, whenever [transfer_with_homography]
    returns a matrix, its determinant lies strictly between the bounds and
    the points are the images of the active side's keypoints. *)
Theorem degenerate_homography_never_applied
    (find_homography : list point -> list point -> option matrix3)
    (transfer_method : method) (s : measurer) (ref_kp curr_kp : list point)
    (matches : list dmatch) (src_pts dst_pts : list point) (H : matrix3)
    (Hsrc : matched_points ref_kp queryIdx matches = Some src_pts)
    (Hdst : matched_points curr_kp trainIdx matches = Some dst_pts)
    (Hfit : find_homography src_pts dst_pts = Some H)
    (Hdet : Rabs (det3 H) <= 0.1 \/ Rabs (det3 H) >= 10) :
  transfer_with_homography find_homography s ref_kp curr_kp matches
    = (None, []) /\
  ((20 <= length matches)%nat -> transfer_method <> Mls ->
   feature_points find_homography transfer_method s ref_kp curr_kp matches
   = snd (transfer_with_mls s ref_kp curr_kp matches)) /\
  (forall find' s' ref' curr' ms' H' pts,
     transfer_with_homography find' s' ref' curr' ms' = (Some H', pts) ->
     0.1 < Rabs (det3 H') < 10 /\
     pts = perspective_transform H' <$> current_keypoints s').
Proof.
  pose proof (transfer_with_homography_degenerate find_homography s ref_kp
                curr_kp matches src_pts dst_pts H Hsrc Hdst Hfit Hdet)
    as Hnone.
  split; [exact Hnone|split].
  - intros H20 Hmethod. unfold feature_points. rewrite Hnone.
    destruct (min_matches <=? length matches)%nat eqn:Hmin.
    + by destruct (_ && _).
    + apply Nat.leb_gt in Hmin. unfold min_matches in Hmin. lia.
  - clear. intros find' s' ref' curr' ms' H' pts.
    unfold transfer_with_homography.
    destruct (length ms' <? min_matches)%nat; [discriminate|].
    destruct (matched_points ref' queryIdx ms'); [|discriminate].
    destruct (matched_points curr' trainIdx ms'); [|discriminate].
    destruct (find' _ _) as [H0|]; [|discriminate].
    destruct (bool_decide (0.1 < Rabs (det3 H0))) eqn:Hlow; [|discriminate].
    destruct (bool_decide (Rabs (det3 H0) < 10)) eqn:Hhigh; [|discriminate].
    intros [= <- <-].
    apply bool_decide_eq_true_1 in Hlow, Hhigh. done.
Qed.

(** C3 for twenty matches and a fit of determinant 100. *)
Lemma degenerate_homography_never_applied_witness :
  let find := fun _ _ : list point => Some (Matrix3 100 0 0 0 1 0 0 0 1) in
  let matches := replicate 20 (DMatch 0 0 0) in
  transfer_with_homography find new_measurer [(0, 0)] [(0, 0)] matches
    = (None, []) /\
  ((20 <= length matches)%nat -> Homography <> Mls ->
   feature_points find Homography new_measurer [(0, 0)] [(0, 0)] matches
   = snd (transfer_with_mls new_measurer [(0, 0)] [(0, 0)] matches)) /\
  (forall find' s' ref' curr' ms' H' pts,
     transfer_with_homography find' s' ref' curr' ms' = (Some H', pts) ->
     0.1 < Rabs (det3 H') < 10 /\
     pts = perspective_transform H' <$> current_keypoints s').
Proof.
  apply (degenerate_homography_never_applied
           (fun _ _ => Some (Matrix3 100 0 0 0 1 0 0 0 1)) Homography
           new_measurer [(0, 0)] [(0, 0)] (replicate 20 (DMatch 0 0 0))
           (replicate 20 (0, 0)) (replicate 20 (0, 0))
           (Matrix3 100 0 0 0 1 0 0 0 1)).
  - reflexivity.
  - reflexivity.
  - reflexivity.
  - right. unfold det3. cbn [h11 h12 h13 h21 h22 h23 h31 h32 h33].
    replace (100 * (1 * 1 - 0 * 0) - 0 * (0 * 1 - 0 * 0) + 0 * (0 * 0 - 1 * 0))
      with 100 by ring.
    rewrite Rabs_pos_eq; lra.
Defined.

Lemma mls_weight_pos (ref_point src : point) : mls_weight ref_point src > 0.
Proof.
  unfold mls_weight. destruct (bool_decide _); [lra|].
  apply Rlt_gt, Rdiv_lt_0_compat; [lra|]. unfold Rpower. apply exp_pos.
Qed.

(** The weighted centroid of matches that all lead to [q] is [q]. *)
Lemma mls_accumulate_same_destination (ref_point q : point)
    (src_dst : list (point * point)) :
  Forall (fun sd => snd sd = q) src_dst ->
  exists tw, mls_accumulate ref_point src_dst = (tw, tw * fst q, tw * snd q)
             /\ 0 <= tw /\ (src_dst <> [] -> 0 < tw).
Proof.
  intros Hall. unfold mls_accumulate.
  assert (Hgen : forall tw0, 0 <= tw0 ->
    exists tw, foldl (mls_step ref_point) (tw0, tw0 * fst q, tw0 * snd q)
                 src_dst = (tw, tw * fst q, tw * snd q)
               /\ tw0 <= tw /\ (src_dst <> [] -> tw0 < tw)).
  { induction Hall as [|[src dst] l Hq _ IH]; intros tw0 Htw0.
    - exists tw0. split; [reflexivity|]. split; [lra|done].
    - cbn in Hq. subst dst. cbn [foldl mls_step].
      pose proof (mls_weight_pos ref_point src) as Hw.
      replace (tw0 * fst q + mls_weight ref_point src * fst q)
        with ((tw0 + mls_weight ref_point src) * fst q) by ring.
      replace (tw0 * snd q + mls_weight ref_point src * snd q)
        with ((tw0 + mls_weight ref_point src) * snd q) by ring.
      destruct (IH (tw0 + mls_weight ref_point src)) as (tw & Heq & Hle & _);
        [lra|].
      exists tw. split; [exact Heq|]. split; [lra|]. intros _. lra. }
  destruct (Hgen 0) as (tw & Heq & Hle & Hlt); [lra|].
  exists tw. rewrite !Rmult_0_l in Heq. by repeat split.
Qed.

Lemma mls_point_same_destination (ref_point q : point)
    (src_pts dst_pts : list point) :
  zip src_pts dst_pts <> [] ->
  Forall (fun d => d = q) dst_pts ->
  mls_point src_pts dst_pts ref_point = q.
Proof.
  intros Hne Hall. unfold mls_point.
  destruct (mls_accumulate_same_destination ref_point q (zip src_pts dst_pts))
    as (tw & -> & _ & Hpos).
  - clear Hne. revert src_pts. induction Hall as [|d l -> _ IH];
      intros [|src src_pts]; try constructor; [reflexivity|apply IH].
  - specialize (Hpos Hne). rewrite bool_decide_eq_true_2 by lra.
    destruct q as [qx qy]. cbn [fst snd]. f_equal; field; lra.
Qed.

Lemma matched_points_replicate (kp : list point) (idx : dmatch -> nat)
    (m : dmatch) (p : point) (n : nat) :
  kp !! idx m = Some p ->
  matched_points kp idx (replicate n m) = Some (replicate n p).
Proof.
  intros Hp. unfold matched_points.
  induction n as [|n IH]; [reflexivity|].
  cbn [replicate mapM]. rewrite Hp, IH. reflexivity.
Qed.

Lemma mls_weight_zero_distance (p : point) : mls_weight p p = 1e6.
Proof.
  unfold mls_weight.
  replace ((fst p - fst p) ^ 2 + (snd p - snd p) ^ 2) with 0 by ring.
  rewrite sqrt_0. rewrite bool_decide_eq_true_2 by lra. reflexivity.
Qed.

(** C6, as the code has it.  Called with a single match,
    [transfer_with_mls] returns no points at all (it asks for four
    matches).  A match whose source is at zero distance from a keypoint
    has the fixed weight 1e6 there, and the weighted centroid of that one
    match is its destination; so, called with four or more copies of a
    match whose source is at zero distance from a keypoint of the active
    side, [transfer_with_mls] places that keypoint at the match's
    destination. *)
Theorem mls_single_match
    (s : measurer) (ref_kp curr_kp : list point) (m : dmatch)
    (src dst : point) (i n : nat)
    (Hsrc : ref_kp !! queryIdx m = Some src)
    (Hdst : curr_kp !! trainIdx m = Some dst)
    (Hzero : current_keypoints s !! i = Some src)
    (Hn : (4 <= n)%nat) :
  transfer_with_mls s ref_kp curr_kp [m] = (None, []) /\
  mls_weight src src = 1e6 /\
  mls_point [src] [dst] src = dst /\
  snd (transfer_with_mls s ref_kp curr_kp (replicate n m)) !! i = Some dst.
Proof.
  split; [reflexivity|]. split; [apply mls_weight_zero_distance|]. split.
  - apply mls_point_same_destination; [discriminate|]. by constructor.
  - unfold transfer_with_mls. rewrite length_replicate.
    destruct (n <? 4)%nat eqn:Hlt; [apply Nat.ltb_lt in Hlt; lia|].
    rewrite (matched_points_replicate ref_kp queryIdx m src n Hsrc).
    rewrite (matched_points_replicate curr_kp trainIdx m dst n Hdst).
    cbn [snd]. rewrite list_lookup_fmap, Hzero. cbn. f_equal.
    apply mls_point_same_destination.
    + destruct n as [|n]; [lia|discriminate].
    + apply Forall_replicate. reflexivity.
Qed.

(** C6, as the code has it, for a match from the keypoint [(100, 100)]
    to [(140, 120)]. *)
Lemma mls_single_match_witness :
  let s := set_annotation [(100, 100)] ∅ [] new_measurer in
  let m := DMatch 0 0 0 in
  transfer_with_mls s [(100, 100)] [(140, 120)] [m] = (None, []) /\
  mls_weight (100, 100) (100, 100) = 1e6 /\
  mls_point [(100, 100)] [(140, 120)] (100, 100) = (140, 120) /\
  snd (transfer_with_mls s [(100, 100)] [(140, 120)] (replicate 4 m))
    !! 0%nat = Some (140, 120).
Proof.
  apply (mls_single_match (set_annotation [(100, 100)] ∅ [] new_measurer)
           [(100, 100)] [(140, 120)] (DMatch 0 0 0)
           (100, 100) (140, 120) 0 4).
  - reflexivity.
  - reflexivity.
  - reflexivity.
  - lia.
Defined.

(** C6 as stated fails: one match whose source coincides with the
    reference keypoint [(100, 100)] and whose destination is
    [(140, 120)] yields no transferred position for that keypoint. *)
Lemma mls_single_match_returns_nothing :
  let s := set_annotation [(100, 100)] ∅ [] new_measurer in
  let ref_kp : list point := [(100, 100)] in
  let curr_kp : list point := [(140, 120)] in
  let m := DMatch 0 0 0 in
  current_keypoints s !! 0%nat = ref_kp !! queryIdx m /\
  transfer_with_mls s ref_kp curr_kp [m] = (None, []) /\
  snd (transfer_with_mls s ref_kp curr_kp [m]) !! 0%nat
    <> curr_kp !! trainIdx m.
Proof.
  cbv zeta. split; [reflexivity|]. split; [reflexivity|]. discriminate.
Qed.

(** ** Pairing of keypoints (C4) *)

(** [range(start, stop, 2)] when it has [cnt] elements. *)
Lemma range_from_step2 (cnt fuel : nat) (start stop : Z) :
  (cnt <= fuel)%nat ->
  (stop <= start + 2 * Z.of_nat cnt)%Z ->
  ((0 < cnt)%nat -> (start + 2 * Z.of_nat cnt - 2 < stop)%Z) ->
  Py.range_from fuel start stop 2
  = (fun j : nat => (start + 2 * Z.of_nat j)%Z) <$> seq 0 cnt.
Proof.
  revert fuel start. induction cnt as [|cnt IH]; intros fuel start Hfuel Hle Hgt.
  - destruct fuel as [|fuel]; [reflexivity|]. cbn [Py.range_from].
    destruct (start <? stop)%Z eqn:Hlt; [|reflexivity].
    apply Z.ltb_lt in Hlt. lia.
  - destruct fuel as [|fuel]; [lia|]. cbn [Py.range_from].
    destruct (start <? stop)%Z eqn:Hlt; [|apply Z.ltb_ge in Hlt; lia].
    cbn [seq fmap list_fmap]. f_equal; [f_equal; lia|].
    rewrite IH by lia. rewrite <- fmap_S_seq, <- list_fmap_compose.
    apply list_fmap_ext. intros _ j _. cbn. lia.
Qed.

Lemma omap_fmap_Some {A B : Type} (f : A -> option B) (g : A -> B)
    (l : list A) :
  (forall x, x ∈ l -> f x = Some (g x)) -> omap f l = g <$> l.
Proof.
  induction l as [|x l IH]; intros Hf; [reflexivity|].
  cbn [omap list_omap fmap list_fmap].
  rewrite (Hf x) by apply list_elem_of_here. f_equal.
  apply IH. intros y Hy. apply Hf. by apply list_elem_of_further.
Qed.

(** The pairs formed, in closed form: pair number [k] (counting from 0)
    starts at index [2k]. *)
Lemma formed_pairs_eq (t : list point) :
  formed_pairs t
  = (fun k : nat =>
       (Z.of_nat (2 * k), default sentinel (t !! (2 * k)%nat),
        default sentinel (t !! (2 * k + 1)%nat)))
    <$> seq 0 (length t / 2).
Proof.
  unfold formed_pairs, Py.range.
  pose proof (Nat.div_mod_eq (length t) 2) as Hdiv.
  pose proof (Nat.mod_upper_bound (length t) 2) as Hmod.
  rewrite (range_from_step2 (length t / 2)) by lia.
  rewrite (omap_fmap_Some _
    (fun i : Z => (i, default sentinel (t !! Z.to_nat i),
                   default sentinel (t !! Z.to_nat (i + 1))))).
  - rewrite <- list_fmap_compose. apply list_fmap_ext. intros _ k _. cbn.
    repeat f_equal; lia.
  - intros i Hi. apply list_elem_of_fmap in Hi as (k & -> & Hk).
    apply elem_of_seq in Hk.
    destruct (_ <? _)%Z eqn:Hlt; [|apply Z.ltb_ge in Hlt; lia].
    destruct (lookup_lt_is_Some_2 t (Z.to_nat (0 + 2 * Z.of_nat k)))
      as [p1 Hp1]; [lia|].
    destruct (lookup_lt_is_Some_2 t (Z.to_nat (0 + 2 * Z.of_nat k + 1)))
      as [p2 Hp2]; [lia|].
    rewrite Hp1, Hp2. reflexivity.
Qed.

Lemma formed_pairs_length (t : list point) :
  length (formed_pairs t) = (length t / 2)%nat.
Proof. by rewrite formed_pairs_eq, length_fmap, length_seq. Qed.

(** A trailing keypoint after an even number of keypoints is in no pair. *)
Lemma formed_pairs_odd (t : list point) (x : point) :
  Nat.Even (length t) -> formed_pairs (t ++ [x]) = formed_pairs t.
Proof.
  intros [h Hh]. rewrite !formed_pairs_eq, length_app. cbn [length].
  replace ((length t + 1) / 2)%nat with (length t / 2)%nat.
  2:{ rewrite Hh. rewrite (Nat.mul_comm 2 h), Nat.div_mul by lia.
      apply (Nat.div_unique _ 2 h 1); lia. }
  apply list_fmap_ext. intros i k Hk.
  apply lookup_seq in Hk as [-> Hk]. cbn [Nat.add].
  assert (2 * i + 1 < length t)%nat.
  { rewrite Hh in Hk |- *. rewrite (Nat.mul_comm 2 h), Nat.div_mul in Hk; lia. }
  by rewrite !lookup_app_l by lia.
Qed.

(** The loop's view of a pair: pair [k] starts at index [2k]. *)
Lemma consecutive_pairs_eq (t : list point) :
  consecutive_pairs t
  = (fun k : nat =>
       (k, default sentinel (t !! (2 * k)%nat),
        default sentinel (t !! (2 * k + 1)%nat)))
    <$> seq 0 (length t / 2).
Proof.
  unfold consecutive_pairs.
  pose proof (Nat.div_mod_eq (length t) 2) as Hdiv.
  apply omap_fmap_Some. intros k Hk. apply elem_of_seq in Hk.
  destruct (lookup_lt_is_Some_2 t (2 * k)) as [p1 Hp1]; [lia|].
  destruct (lookup_lt_is_Some_2 t (2 * k + 1)) as [p2 Hp2]; [lia|].
  by rewrite Hp1, Hp2.
Qed.

Lemma formed_pairs_consecutive (t : list point) :
  formed_pairs t = loop_pair <$> consecutive_pairs t.
Proof.
  rewrite formed_pairs_eq, consecutive_pairs_eq, <- list_fmap_compose.
  reflexivity.
Qed.

(** ** The measurement loop, round by round *)

Lemma measure_pairs_from (now : string) (cal : calibration)
    (frame_gray : option image) (t : list point) (st : measurer * disk) :
  measure_pairs now cal frame_gray t st
  = measure_from now cal frame_gray (formed_pairs t) [] st false.
Proof. reflexivity. Qed.

(** After a [ZeroDivisionError] no round is run. *)
Lemma measure_from_raised (now : string) (cal : calibration)
    (frame_gray : option image) (pairs : list (Z * point * point))
    (acc : list measurement) (st : measurer * disk) :
  measure_from now cal frame_gray pairs acc st true = (acc, st, true).
Proof.
  unfold measure_from. induction pairs as [|[[i p1] p2] pairs IH];
    [reflexivity|]. cbn [foldl measure_step]. exact IH.
Qed.

Lemma measure_from_step (now : string) (cal : calibration)
    (frame_gray : option image) (i : Z) (p1 p2 : point)
    (pairs : list (Z * point * point)) (acc : list measurement)
    (st : measurer * disk) :
  measure_from now cal frame_gray ((i, p1, p2) :: pairs) acc st false
  = match measure_pair now cal frame_gray i p1 p2 st with
    | Some (m, st') =>
        measure_from now cal frame_gray pairs (acc ++ option_list m) st'
          false
    | None => (acc, st, true)
    end.
Proof.
  unfold measure_from at 1. cbn [foldl measure_step].
  destruct (measure_pair now cal frame_gray i p1 p2 st) as [[m st']|];
    [reflexivity|].
  apply measure_from_raised.
Qed.

Lemma measure_from_acc (now : string) (cal : calibration)
    (frame_gray : option image) (pairs : list (Z * point * point))
    (acc : list measurement) (st : measurer * disk) (raised : bool) :
  measure_from now cal frame_gray pairs acc st raised
  = (acc ++ fst (fst (measure_from now cal frame_gray pairs [] st raised)),
     snd (fst (measure_from now cal frame_gray pairs [] st raised)),
     snd (measure_from now cal frame_gray pairs [] st raised)).
Proof.
  destruct raised.
  { rewrite !measure_from_raised. cbn. by rewrite app_nil_r. }
  revert acc st. induction pairs as [|[[i p1] p2] pairs IH]; intros acc st.
  - cbn. by rewrite app_nil_r.
  - rewrite !measure_from_step.
    destruct (measure_pair now cal frame_gray i p1 p2 st) as [[m st']|].
    + rewrite (IH (acc ++ _)), (IH ([] ++ _)).
      cbn [fst snd app]. by rewrite app_assoc.
    + cbn. by rewrite app_nil_r.
Qed.

Lemma measure_from_cons (now : string) (cal : calibration)
    (frame_gray : option image) (i : Z) (p1 p2 : point)
    (pairs : list (Z * point * point)) (st : measurer * disk) :
  measure_from now cal frame_gray ((i, p1, p2) :: pairs) [] st false
  = match measure_pair now cal frame_gray i p1 p2 st with
    | Some (m, st') =>
        (option_list m
         ++ fst (fst (measure_from now cal frame_gray pairs [] st' false)),
         snd (fst (measure_from now cal frame_gray pairs [] st' false)),
         snd (measure_from now cal frame_gray pairs [] st' false))
    | None => ([], st, true)
    end.
Proof.
  rewrite measure_from_step.
  destruct (measure_pair now cal frame_gray i p1 p2 st) as [[m st']|];
    [|reflexivity].
  by rewrite measure_from_acc.
Qed.

(** What one round of the loop does. *)
Lemma measure_pair_appended (now : string) (cal : calibration)
    (frame_gray : option image) (i : Z) (p1 p2 : point)
    (s : measurer) (d : disk) :
  match measure_pair now cal frame_gray i p1 p2 (s, d) with
  | None => is_calibrated cal = true /\ pixels_per_cm cal = 0
  | Some (None, st') => st' = (s, d)
  | Some (Some m, st') =>
      m_pair_num m = (i / 2 + 1)%Z /\
      0 <= m_pixel_distance m /\
      m_is_fallback m = Some (tracking_failed p1 || tracking_failed p2) /\
      if is_calibrated cal
      then pixels_per_cm cal <> 0 /\
           m_real_distance m = m_pixel_distance m / pixels_per_cm cal /\
           check_qc now (i / 2 + 1) (m_real_distance m) s d
           = (m_qc_passed m, fst st', snd st')
      else m_real_distance m = 0 /\ m_qc_passed m = false /\ st' = (s, d)
  end.
Proof.
  unfold measure_pair.
  destruct (fallback_positions _ _ _ _ _) as [[q1 q2]|]; [|reflexivity].
  destruct (is_calibrated cal).
  - destruct (bool_decide (pixels_per_cm cal = 0)) eqn:Hzero.
    + apply bool_decide_eq_true in Hzero. by split.
    + apply bool_decide_eq_false in Hzero.
      destruct (check_qc _ _ _ _ _) as [[passed s'] d'] eqn:Hqc.
      cbn. repeat split; try done. apply sqrt_pos.
  - cbn. repeat split; try done. apply sqrt_pos.
Qed.

(** [check_qc] leaves alone what the fallback reads. *)
Lemma check_qc_keeps_positions (now : string) (p : Z) (m : R) (s : measurer)
    (d : disk) (frame_gray : option image) (i : nat) (p1 p2 : point) :
  measured_positions (snd (fst (check_qc now p m s d))) frame_gray i p1 p2
  = measured_positions s frame_gray i p1 p2.
Proof.
  unfold check_qc, measured_positions, scale_factors, current_reference_gray,
    current_keypoints, current_target_distances.
  destruct (current_side s) eqn:Hside.
  - destruct (target_distances s !! p); [destruct (Rle_dec _ _)|];
      cbn; by rewrite Hside.
  - destruct (back_target_distances s !! p); [destruct (Rle_dec _ _)|];
      cbn; by rewrite Hside.
Qed.

(** One round on the pair [k], which starts at index [2k]. *)
Lemma measure_pair_round (now : string) (cal : calibration)
    (frame_gray : option image) (k : nat) (p1 p2 : point)
    (s : measurer) (d : disk) :
  measure_pair now cal frame_gray (Z.of_nat (2 * k)) p1 p2 (s, d)
  = match measured_positions s frame_gray (2 * k) p1 p2 with
    | None => Some (None, (s, d))
    | Some (q1, q2) =>
        let pixel_distance :=
          sqrt ((fst q2 - fst q1) ^ 2 + (snd q2 - snd q1) ^ 2) in
        let is_fallback := tracking_failed p1 || tracking_failed p2 in
        if is_calibrated cal then
          if bool_decide (pixels_per_cm cal = 0) then None
          else
            let real_distance := pixel_distance / pixels_per_cm cal in
            let '(qc_passed, s', d') :=
              check_qc now (Z.of_nat k + 1) real_distance s d in
            Some (Some (Measurement (Z.of_nat k + 1) real_distance
                          pixel_distance qc_passed (Some is_fallback)),
                  (s', d'))
        else
          Some (Some (Measurement (Z.of_nat k + 1) 0 pixel_distance false
                        (Some is_fallback)),
                (s, d))
    end.
Proof.
  unfold measure_pair, measured_positions.
  rewrite Nat2Z.id.
  replace (Z.to_nat (Z.of_nat (2 * k) + 1)) with (2 * k + 1)%nat by lia.
  replace (Z.of_nat (2 * k) / 2 + 1)%Z with (Z.of_nat k + 1)%Z; [done|].
  replace (Z.of_nat (2 * k)) with (Z.of_nat k * 2)%Z by lia.
  by rewrite Z.div_mul by lia.
Qed.

(** The loop over pairs [l], from an object that the fallback reads like
    [s0]: with a calibration of scale 0 the first measurable pair ends
    it; otherwise it appends one measurement for each measurable pair. *)
Lemma measure_from_measures (now : string) (cal : calibration)
    (frame_gray : option image) (l : list (nat * point * point))
    (s0 s : measurer) (d : disk) :
  (forall i p1 p2, measured_positions s frame_gray i p1 p2
                   = measured_positions s0 frame_gray i p1 p2) ->
  let res :=
    measure_from now cal frame_gray (loop_pair <$> l) [] (s, d) false in
  let entries :=
    omap (fun x : nat * point * point =>
            q ← measured_positions s0 frame_gray (2 * fst (fst x))
                  (snd (fst x)) (snd x);
            Some (x, q)) l in
  if is_calibrated cal && bool_decide (pixels_per_cm cal = 0)
  then res = ([], (s, d), bool_decide (entries <> []))
  else snd res = false /\ Forall2 measures entries (fst (fst res)).
Proof.
  cbv zeta. revert s d.
  induction l as [|[[k p1] p2] l IH]; intros s d Hview.
  - cbn. destruct (_ && _); [reflexivity|]. split; [reflexivity|constructor].
  - cbn [fmap list_fmap fst snd omap list_omap].
    change (loop_pair (k, p1, p2)) with (Z.of_nat (2 * k), p1, p2).
    rewrite measure_from_cons, measure_pair_round, Hview.
    destruct (measured_positions s0 frame_gray (2 * k) p1 p2)
      as [[q1 q2]|] eqn:Hq; cbn [mbind option_bind].
    + cbv zeta. destruct (is_calibrated cal) eqn:Hcal; cbn [andb].
      * destruct (bool_decide (pixels_per_cm cal = 0)) eqn:Hzero.
        -- by rewrite bool_decide_eq_true_2.
        -- pose proof (check_qc_keeps_positions now (Z.of_nat k + 1)
             (sqrt ((fst q2 - fst q1) ^ 2 + (snd q2 - snd q1) ^ 2)
              / pixels_per_cm cal) s d frame_gray) as Hkeep.
           destruct (check_qc _ _ _ s d) as [[passed s'] d'].
           cbn [fst snd] in Hkeep.
           specialize (IH s' d').
           rewrite ?Hcal, ?Hzero in IH. cbn [andb] in IH.
           destruct IH as [Hr Hall].
           { intros i q1' q2'. by rewrite Hkeep. }
           cbn [fst snd]. split; [exact Hr|].
           change (option_list (Some ?m)) with [m]. cbn [app].
           constructor; [|exact Hall]. by cbn.
      * specialize (IH s d Hview). rewrite ?Hcal in IH. cbn [andb] in IH.
        destruct IH as [Hr Hall]. cbn [fst snd]. split; [exact Hr|].
        change (option_list (Some ?m)) with [m]. cbn [app].
        constructor; [|exact Hall]. by cbn.
    + specialize (IH s d Hview).
      change (option_list None) with (@nil measurement). cbn [app].
      by destruct (measure_from now cal frame_gray (loop_pair <$> l) []
                     (s, d) false) as [[ms st'] raised].
Qed.

(** C4.  From [n] transferred keypoints the measurement loop forms
    exactly [n / 2] pairs, pair [k] (counting from 0) consisting of the
    keypoints at indices [2k] and [2k + 1].  The loop appends one
    measurement for every pair that can be measured (after the fallback
    for lost keypoints), in order, and the measurement of pair [k]
    carries the pair number [k + 1] and the distance between the two
    positions measured; only when the object is calibrated with a scale
    of 0 does the first measurable pair end the loop with a
    [ZeroDivisionError], nothing being appended or changed.  When [n] is
    odd the last keypoint is in no pair, and neither the measurements
    nor the final state depend on it. *)
Theorem pairs_of_consecutive_keypoints (now : string) (cal : calibration)
    (frame_gray : option image) (t : list point) (s : measurer)
    (d : disk) :
  let '(ms, st', raised) := measure_pairs now cal frame_gray t (s, d) in
  length (formed_pairs t) = (length t / 2)%nat /\
  formed_pairs t = loop_pair <$> consecutive_pairs t /\
  (forall k : nat, (k < length t / 2)%nat ->
     exists p1 p2,
       consecutive_pairs t !! k = Some (k, p1, p2) /\
       t !! (2 * k)%nat = Some p1 /\ t !! (2 * k + 1)%nat = Some p2) /\
  (raised = true <->
   is_calibrated cal = true /\ pixels_per_cm cal = 0 /\
   measurable_pairs s frame_gray t <> []) /\
  (raised = true -> ms = [] /\ st' = (s, d)) /\
  (raised = false -> Forall2 measures (measurable_pairs s frame_gray t) ms) /\
  (forall t0 x, t = t0 ++ [x] -> Nat.Even (length t0) ->
     consecutive_pairs t = consecutive_pairs t0 /\
     forall y, measure_pairs now cal frame_gray (t0 ++ [y]) (s, d)
               = (ms, st', raised)).
Proof.
  pose proof (measure_from_measures now cal frame_gray (consecutive_pairs t)
                s s d (fun _ _ _ => eq_refl)) as Hloop.
  cbv zeta in Hloop. rewrite <- formed_pairs_consecutive in Hloop.
  fold (measurable_pairs s frame_gray t) in Hloop.
  assert (Hodd : forall t0 x, t = t0 ++ [x] -> Nat.Even (length t0) ->
            consecutive_pairs t = consecutive_pairs t0 /\
            forall y, measure_pairs now cal frame_gray (t0 ++ [y]) (s, d)
                      = measure_pairs now cal frame_gray t (s, d)).
  { intros t0 x -> Heven.
    assert (Hcons : forall y,
              consecutive_pairs (t0 ++ [y]) = consecutive_pairs t0).
    { intros y. rewrite !consecutive_pairs_eq, length_app. cbn [length].
      destruct Heven as [h Hh].
      replace ((length t0 + 1) / 2)%nat with (length t0 / 2)%nat.
      2:{ rewrite Hh. rewrite (Nat.mul_comm 2 h), Nat.div_mul by lia.
          apply (Nat.div_unique _ 2 h 1); lia. }
      apply list_fmap_ext. intros i k Hk.
      apply lookup_seq in Hk as [-> Hk]. cbn [Nat.add].
      assert (2 * i + 1 < length t0)%nat.
      { rewrite Hh in Hk |- *.
        rewrite (Nat.mul_comm 2 h), Nat.div_mul in Hk; lia. }
      by rewrite !lookup_app_l by lia. }
    split; [apply Hcons|]. intros y. unfold measure_pairs.
    by rewrite !formed_pairs_odd. }
  rewrite measure_pairs_from in Hodd |- *.
  destruct (measure_from now cal frame_gray (formed_pairs t) [] (s, d) false)
    as [[ms st'] raised].
  split; [apply formed_pairs_length|].
  split; [apply formed_pairs_consecutive|].
  split.
  { intros k Hk.
    pose proof (Nat.div_mod_eq (length t) 2) as Hdiv.
    destruct (lookup_lt_is_Some_2 t (2 * k)) as [p1 Hp1]; [lia|].
    destruct (lookup_lt_is_Some_2 t (2 * k + 1)) as [p2 Hp2]; [lia|].
    exists p1, p2. rewrite consecutive_pairs_eq, list_lookup_fmap.
    rewrite lookup_seq_lt by exact Hk.
    cbn [fmap option_fmap option_map Nat.add].
    by rewrite Hp1, Hp2. }
  destruct (is_calibrated cal) eqn:Hcal; cbn [andb] in Hloop.
  - destruct (bool_decide (pixels_per_cm cal = 0)) eqn:Hzero.
    + apply bool_decide_eq_true in Hzero. injection Hloop as -> -> ->.
      split; [|split; [done|split; [|exact Hodd]]].
      * rewrite bool_decide_eq_true. by intuition.
      * intros Hfalse. apply bool_decide_eq_false in Hfalse.
        destruct (measurable_pairs s frame_gray t); [constructor|].
        by destruct Hfalse.
    + apply bool_decide_eq_false in Hzero. cbn [fst snd] in Hloop.
      destruct Hloop as [-> Hall].
      split; [|split; [done|split; [done|exact Hodd]]].
      split; [done|]. by intros (_ & ? & _).
  - cbn [fst snd] in Hloop. destruct Hloop as [-> Hall].
    split; [|split; [done|split; [done|exact Hodd]]].
    split; [done|]. by intros (? & _).
Qed.

(** ** Direct placement (C5) *)

Lemma Py_int_IZR (z : Z) : Py.int (IZR z) = z.
Proof.
  unfold Py.int. destruct (Rle_dec 0 (IZR z)) as [Hpos|Hneg].
  - symmetry. apply Int_part_spec. lra.
  - rewrite <- opp_IZR. rewrite <- (Int_part_spec (IZR (- z)) (- z)) by lra.
    lia.
Qed.

(** [int(r)] for a non-negative [r] between two consecutive integers. *)
Lemma Py_int_floor (r : R) (z : Z) :
  0 <= r -> IZR z <= r < IZR z + 1 -> Py.int r = z.
Proof.
  intros Hr [Hlo Hhi]. unfold Py.int.
  destruct (Rle_dec 0 r) as [_|Hneg]; [|contradiction].
  symmetry. apply Int_part_spec. lra.
Qed.

(** What one round of the refiner appends, by the outcome of its call of
    [cv2.matchTemplate]. *)
Lemma refine_keypoint_cases
    (match_template : tm_method -> image -> image -> option (R * (Z * Z)))
    (current_gray reference_gray : image) (kp : point) :
  match direct_call current_gray reference_gray kp with
  | None =>
      refine_keypoint match_template current_gray reference_gray kp
      = raw_position kp
  | Some (search_region, template, (search_x1, search_y1)) =>
      match match_template TM_CCOEFF_NORMED search_region template with
      | None =>
          refine_keypoint match_template current_gray reference_gray kp
          = raw_position kp
      | Some (max_val, max_loc) =>
          let refined_x :=
            (search_x1 + fst max_loc + shape_w template / 2)%Z in
          let refined_y :=
            (search_y1 + snd max_loc + shape_h template / 2)%Z in
          refine_keypoint match_template current_gray reference_gray kp
          = if bool_decide (max_val > 0.5)
               && (Z.abs (refined_x - Py.int (fst kp)) <? 60)%Z
               && (Z.abs (refined_y - Py.int (snd kp)) <? 60)%Z
            then (IZR refined_x, IZR refined_y)
            else raw_position kp
      end
  end.
Proof.
  unfold direct_call, refine_keypoint, raw_position.
  change (60 / 2)%Z with 30%Z.
  destruct (_ || _ || _ || _)%Z; [reflexivity|].
  destruct (_ || _)%Z; [reflexivity|].
  destruct (_ || _)%Z; [reflexivity|].
  destruct (match_template _ _ _) as [[max_val max_loc]|]; [|reflexivity].
  cbv zeta. destruct (bool_decide (max_val > 0.5)); [|reflexivity].
  cbn [andb]. reflexivity.
Qed.

(** C5, as the code has it.  The position the refiner appends for a
    keypoint is the raw annotation coordinate truncated to whole pixels
    ([int(kp[0])], [int(kp[1])]; the raw coordinate itself when that is
    integral) whenever [cv2.matchTemplate] is not called, raises, or
    reports a correlation [<= 0.5]; a position that differs from it is
    appended only when the correlation is [> 0.5] and it lies less than
    60 pixels from it on both axes. *)
Theorem direct_placement_keeps_raw_position
    (match_template : tm_method -> image -> image -> option (R * (Z * Z)))
    (current_gray reference_gray : image) (kp : point) :
  let refined :=
    refine_keypoint match_template current_gray reference_gray kp in
  (forall a b : Z, kp = (IZR a, IZR b) -> raw_position kp = kp) /\
  match direct_call current_gray reference_gray kp with
  | None => refined = raw_position kp
  | Some (search_region, template, _) =>
      match match_template TM_CCOEFF_NORMED search_region template with
      | None => refined = raw_position kp
      | Some (max_val, _) =>
          (max_val <= 0.5 -> refined = raw_position kp) /\
          (refined <> raw_position kp ->
           max_val > 0.5 /\
           exists refined_x refined_y : Z,
             refined = (IZR refined_x, IZR refined_y) /\
             (Z.abs (refined_x - Py.int (fst kp)) < 60)%Z /\
             (Z.abs (refined_y - Py.int (snd kp)) < 60)%Z)
      end
  end.
Proof.
  cbv zeta. split.
  { intros a b ->. unfold raw_position. cbn [fst snd].
    by rewrite !Py_int_IZR. }
  pose proof (refine_keypoint_cases match_template current_gray
                reference_gray kp) as Hcases.
  destruct (direct_call current_gray reference_gray kp)
    as [[[search_region template] [search_x1 search_y1]]|];
    [|exact Hcases].
  destruct (match_template TM_CCOEFF_NORMED search_region template)
    as [[max_val max_loc]|]; [|exact Hcases].
  cbv zeta in Hcases. rewrite Hcases. clear Hcases. split.
  - intros Hlow. by rewrite bool_decide_eq_false_2 by lra.
  - destruct (bool_decide (max_val > 0.5)) eqn:Hval; [|done].
    apply bool_decide_eq_true_1 in Hval. cbn [andb].
    destruct (_ <? 60)%Z eqn:Hdx; [|done].
    destruct (Z.abs (_ - Py.int (snd kp)) <? 60)%Z eqn:Hdy; [|done].
    cbn [andb]. intros _. split; [exact Hval|].
    apply Z.ltb_lt in Hdx, Hdy. eauto.
Qed.

(** C5 as stated fails for a raw coordinate that is not integral: with a
    correlation of 0.3 the refiner appends [(100, 200)] for the
    annotation coordinate [(100.5, 200.5)]. *)
Lemma direct_placement_truncates_raw_coordinate :
  let frame := Image 1000 1000 (fun _ _ => 0%Z) in
  let match_template :=
    fun (_ : tm_method) (_ _ : image) => Some (0.3, (0, 0)%Z) in
  let kp : point := (100.5, 200.5) in
  (exists search_region template corner,
     direct_call frame frame kp = Some (search_region, template, corner) /\
     match_template TM_CCOEFF_NORMED search_region template
     = Some (0.3, (0, 0)%Z)) /\
  0.3 <= 0.5 /\
  refine_keypoint match_template frame frame kp = (100, 200) /\
  refine_keypoint match_template frame frame kp <> kp.
Proof.
  cbv zeta.
  assert (Hx : Py.int 100.5 = 100%Z) by (apply Py_int_floor; lra).
  assert (Hy : Py.int 200.5 = 200%Z) by (apply Py_int_floor; lra).
  assert (Hcall : exists search_region template corner,
            direct_call (Image 1000 1000 (fun _ _ => 0%Z))
              (Image 1000 1000 (fun _ _ => 0%Z)) (100.5, 200.5)
            = Some (search_region, template, corner)).
  { unfold direct_call. cbn [fst snd shape_h shape_w]. rewrite Hx, Hy.
    cbn. eauto. }
  pose proof (refine_keypoint_cases
                (fun _ _ _ => Some (0.3, (0, 0)%Z))
                (Image 1000 1000 (fun _ _ => 0%Z))
                (Image 1000 1000 (fun _ _ => 0%Z)) (100.5, 200.5)) as Hcases.
  destruct Hcall as (search_region & template & [cx cy] & Hcall).
  rewrite Hcall in Hcases. cbv zeta in Hcases.
  rewrite bool_decide_eq_false_2 in Hcases by lra. cbn [andb] in Hcases.
  unfold raw_position in Hcases. cbn [fst snd] in Hcases.
  rewrite Hx, Hy in Hcases.
  split; [eauto|]. split; [lra|]. rewrite Hcases.
  split; [reflexivity|]. intros [= H1 H2]. lra.
Qed.

(** ** Corner template matching (C7) *)

Lemma Py_int_eq (r : R) (z : Z) : r = IZR z -> Py.int r = z.
Proof. intros ->. apply Py_int_IZR. Qed.

(** C7 fails on the code.  The corner matcher at scale 1 on a 2000x1500
    live frame, for a corner
    annotated at [(1500, 300)] whose best match is the top-left place of
    its search region: the window searched is [[1125, 1875] x [0, 675]],
    and the position returned is [(1200, 1200)], below the window, because
    the row is offset by [sx1] where [sy1] is meant (as
    [template_match_keypoints] has it). *)
Lemma template_match_corner_leaves_window :
  let live := Image 1500 2000 (fun _ _ => 0%Z) in
  let reference := Image 2000 2000 (fun _ _ => 0%Z) in
  let match_template :=
    fun (_ : tm_method) (_ _ : image) => Some (0.9, (0, 0)%Z) in
  let keypoint : point := (1500, 300) in
  search_window corner_template_size 2.5 live 1 keypoint
    = (1125, 1875, 0, 675)%Z /\
  template_match_corner match_template live reference 1 keypoint
    = (1200, 1200) /\
  ~ in_window (search_window corner_template_size 2.5 live 1 keypoint)
      (template_match_corner match_template live reference 1 keypoint).
Proof.
  cbv zeta.
  assert (Hsize : Py.int (corner_template_size * 1) = 150%Z)
    by (apply Py_int_eq; unfold corner_template_size; lra).
  assert (Hhalf : Py.int (IZR 150 * (2.5 * 1)) = 375%Z)
    by (apply Py_int_eq; lra).
  assert (Hx : Py.int (IZR 1500 * 1) = 1500%Z) by (apply Py_int_eq; lra).
  assert (Hy : Py.int (IZR 300 * 1) = 300%Z) by (apply Py_int_eq; lra).
  assert (Hwin : search_window corner_template_size 2.5
                   (Image 1500 2000 (fun _ _ => 0%Z)) 1 (1500, 300)
                 = (1125, 1875, 0, 675)%Z).
  { unfold search_window. cbn [fst snd shape_h shape_w].
    rewrite Hsize, !Py_int_IZR, Hhalf, Hx, Hy. reflexivity. }
  assert (Hres : template_match_corner
                   (fun _ _ _ => Some (0.9, (0, 0)%Z))
                   (Image 1500 2000 (fun _ _ => 0%Z))
                   (Image 2000 2000 (fun _ _ => 0%Z)) 1 (1500, 300)
                 = (1200, 1200)).
  { unfold template_match_corner. cbn [fst snd shape_h shape_w].
    rewrite Hsize, !Py_int_IZR, Hhalf, Hx, Hy.
    unfold best_match. cbn [foldl mbind option_bind].
    rewrite (bool_decide_eq_true_2 (0.9 > -1)) by lra.
    cbn [mbind option_bind].
    rewrite (bool_decide_eq_false_2 (0.9 > 0.9)) by lra.
    unfold corner_matching_threshold.
    rewrite (bool_decide_eq_true_2 (0.9 > 0.6)) by lra.
    reflexivity. }
  rewrite Hwin, Hres. split; [reflexivity|]. split; [reflexivity|].
  unfold in_window. cbn [fst snd]. lra.
Qed.

(** The general matcher, which offsets the row by [sy1], does return
    positions inside the window it searched. *)
Lemma template_match_keypoint_in_window
    (match_template : tm_method -> image -> image -> option (R * (Z * Z)))
    (live reference : image) (scale_factor : R) (keypoint : point) :
  places_within_result match_template ->
  let p := template_match_keypoint match_template live reference
             scale_factor keypoint in
  p = sentinel \/
  in_window (search_window template_roi_size 2.0 live scale_factor keypoint) p.
Proof.
  intros Hcv. cbv zeta. unfold template_match_keypoint, search_window.
  set (x := Py.int (fst keypoint)). set (y := Py.int (snd keypoint)).
  set (size := Py.int (template_roi_size * scale_factor)).
  set (half := Py.int (IZR size * (2.0 * scale_factor))).
  set (ex := Py.int (IZR x * scale_factor)).
  set (ey := Py.int (IZR y * scale_factor)).
  destruct (_ || _)%Z; [by left|].
  destruct (_ || _)%Z eqn:Hfit; [by left|].
  apply orb_false_iff in Hfit as [Hw Hh].
  apply Z.ltb_ge in Hw, Hh.
  destruct (match_template _ _ _) as [[max_val max_loc]|] eqn:Hcall;
    [|by left].
  destruct (bool_decide _); [|by left].
  right. apply Hcv in Hcall as [Hlx Hly].
  cbn [slice shape_w shape_h] in Hlx, Hly, Hw, Hh |- *.
  unfold in_window. cbn [fst snd].
  set (tw := Z.max 0 (Z.min (shape_w reference) _ - _)) in *.
  set (th := Z.max 0 (Z.min (shape_h reference) _ - _)) in *.
  assert (0 <= tw / 2 <= tw)%Z.
  { split; [apply Z.div_pos; lia|]. apply Z.div_le_upper_bound; lia. }
  assert (0 <= th / 2 <= th)%Z.
  { split; [apply Z.div_pos; lia|]. apply Z.div_le_upper_bound; lia. }
  repeat split; apply IZR_le; lia.
Qed.

(** ** Round trip of annotations (C9) *)

(** C9.  An annotation saved by [save_annotation] and loaded by
    [load_annotation], by the same or another object reading the same
    file, comes back with the same keypoints, the same target distances
    (integer keys, number values) and the same placement box. *)
Theorem save_then_load_annotation
    (now : string) (saved loader : measurer) (d : disk)
    (Hfile : annotation_file loader = annotation_file saved)
    (Hpaths : annotation_file saved <> reference_image_file saved) :
  exists (ok : bool) (loaded : measurer),
    load_annotation loader (snd (save_annotation now saved d))
    = Some (ok, loaded) /\
    keypoints loaded = keypoints saved /\
    target_distances loaded = target_distances saved /\
    placement_box loaded = placement_box saved.
Proof.
  unfold load_annotation. rewrite Hfile.
  rewrite (save_annotation_persists now saved d Hpaths).
  unfold annotation_data. cbn [Json.get String.eqb Ascii.eqb Bool.eqb].
  rewrite to_points_of_points, to_targets_of_targets, to_numbers_of_numbers.
  cbn [mbind option_bind].
  destruct (keypoints saved) as [|kp kps] eqn:Hkps.
  - eexists _, _. split; [reflexivity|]. done.
  - destruct (load_reference_image _ _) as [ok loaded] eqn:Hload.
    exists ok, loaded. split; [reflexivity|].
    unfold load_reference_image in Hload.
    destruct (_ !! _) as [[doc|img|]|] in Hload; injection Hload as <- <-;
      done.
Qed.

(** C9 for an annotation of two keypoints, one target and a box. *)
Lemma save_then_load_annotation_witness :
  let saved :=
    set_annotation [(100, 100); (300, 100)] {[1%Z := 20]} [10; 10; 500; 400]
      new_measurer in
  exists (ok : bool) (loaded : measurer),
    load_annotation new_measurer (snd (save_annotation "2026-01-01" saved ∅))
    = Some (ok, loaded) /\
    keypoints loaded = keypoints saved /\
    target_distances loaded = target_distances saved /\
    placement_box loaded = placement_box saved.
Proof.
  apply (save_then_load_annotation "2026-01-01"
           (set_annotation [(100, 100); (300, 100)] {[1%Z := 20]}
              [10; 10; 500; 400] new_measurer)
           new_measurer ∅).
  - reflexivity.
  - discriminate.
Defined.

(** ** The live snapshot (C10) *)

(** Rounding moves a number by at most one half. *)
Lemma round_half_even_close (y : R) :
  IZR (Py.round_half_even y) - 1 / 2 <= y <= IZR (Py.round_half_even y) + 1 / 2.
Proof.
  unfold Py.round_half_even.
  destruct (base_Int_part y) as [Hlo Hhi].
  destruct (Rlt_dec (y - IZR (Int_part y)) (1 / 2)) as [Hlt|Hge]; [lra|].
  destruct (Rlt_dec (1 / 2) (y - IZR (Int_part y))) as [Hgt|Heq].
  - rewrite plus_IZR. lra.
  - destruct (Z.even (Int_part y)); [lra|]. rewrite plus_IZR. lra.
Qed.

(** [round(x, 2)] moves [x] by at most 0.005. *)
Lemma round2_close (x : R) :
  Py.round2 x - 0.005 <= x <= Py.round2 x + 0.005.
Proof.
  unfold Py.round2. pose proof (round_half_even_close (x * 100)). lra.
Qed.

Lemma live_record_of_own_bounds (keypoint_names : list string)
    (m : measurement) (r : live_record) :
  live_record_of keypoint_names m = Some r -> own_bounds m r.
Proof.
  unfold live_record_of.
  destruct (if (_ <=? _)%Z then _ else _) as [name|]; [|discriminate].
  intros [= <-]. unfold own_bounds. cbn.
  pose proof (round2_close (m_real_distance m)).
  pose proof (round2_close (m_real_distance m - 1)).
  pose proof (round2_close (m_real_distance m + 1)).
  repeat split; lra.
Qed.

Lemma live_record_of_total (keypoint_names : list string) (m : measurement) :
  (1 <= m_pair_num m)%Z -> is_Some (live_record_of keypoint_names m).
Proof.
  intros Hpos. unfold live_record_of, Py.index.
  destruct (_ <=? _)%Z eqn:Hle; [|by eexists].
  apply Z.leb_le in Hle.
  destruct (0 <=? m_pair_num m - 1)%Z eqn:H0;
    [|apply Z.leb_gt in H0; lia].
  destruct (lookup_lt_is_Some_2 keypoint_names
              (Z.to_nat (m_pair_num m - 1))) as [name Hname]; [lia|].
  rewrite Hname. by eexists.
Qed.

Lemma live_record_reports_own_bounds (keypoint_names : list string)
    (m : measurement) (r : live_record) :
  live_record_of keypoint_names m = Some r ->
  reports_own_bounds m (json_of_live_record r).
Proof.
  intros Hr. destruct (live_record_of_own_bounds _ _ _ Hr)
    as (Hmin & Hmax & Hin & Hact & Hround & Hqc).
  unfold json_of_live_record. eexists. split; [reflexivity|].
  rewrite <- Hmin, <- Hmax, <- Hround, <- Hqc.
  assert (lr_id r = m_pair_num m) as <-.
  { revert Hr. unfold live_record_of.
    destruct (if (_ <=? _)%Z then _ else _) as [name|]; [|discriminate].
    by intros [= <-]. }
  repeat split; try reflexivity; lra.
Qed.

(** C10.  When [save_live_measurements] returns [True], the snapshot
    file holds a JSON document whose [measurements] are one record per
    measurement, in order, and the record of every measurement reports
    [min_valid = round(measured - 1.0, 2)] and
    [max_valid = round(measured + 1.0, 2)], computed from that record's
    own measured value alone; the measured value, and its rounding
    [actual_cm], lie within these bounds, whatever the record's
    [qc_passed] flag, which is copied from the measurement.  The method
    returns [True] whenever the pair numbers are positive and no
    [is_fallback] is a [numpy.bool_]; it returns [False] when one is, and
    whenever it returns [False] the files are as they were, except that
    the snapshot file may have been cut short. *)
Theorem live_record_bounds_from_own_value
    (now results_dir : string) (current_annotation_name : option string)
    (keypoint_names : list string) (s : measurer) (cal : calibration)
    (measurements : list live_tuple) (annotation_name : option string)
    (d : disk) :
  let live_file := (results_dir +:+ "/live_measurements.json")%string in
  let '(saved, d') :=
    save_live_measurements now results_dir current_annotation_name
      keypoint_names s cal measurements annotation_name d in
  (saved = true ->
   exists (fields : list (string * json)) (records : list json),
     d' !! live_file = Some (FJson (JObj fields)) /\
     Json.get "measurements" JNull fields = JArr records /\
     Forall2 reports_own_bounds (tuple_values <$> measurements) records) /\
  (saved = false -> d' = d \/ d' = <[live_file := FOther]> d) /\
  (Forall (fun t => (1 <= m_pair_num (tuple_values t))%Z /\
                    serializable t = true) measurements ->
   saved = true) /\
  (Exists (fun t => serializable t = false) measurements -> saved = false).
Proof.
  intros live_file. unfold save_live_measurements.
  destruct (mapM (live_record_of keypoint_names)
              (tuple_values <$> measurements)) as [records|] eqn:Hrecords.
  - fold live_file.
    destruct (forallb serializable measurements) eqn:Hser.
    + split_and!; [|done|done|].
      * intros _. eexists _, (json_of_live_record <$> records).
        split; [apply lookup_insert_eq|]. split; [reflexivity|].
        apply mapM_Some_1 in Hrecords. apply Forall2_fmap_r.
        eapply Forall2_impl; [exact Hrecords|].
        intros m r. apply live_record_reports_own_bounds.
      * intros Hex. apply Exists_exists in Hex as (t & Hin & Ht).
        rewrite forallb_forall in Hser.
        rewrite (Hser t) in Ht; [done|]. by apply list_elem_of_In.
    + split_and!; [done|by right| |done].
      intros Hall. apply Forall_and in Hall as [_ Hall].
      rewrite Forall_forall in Hall.
      assert (forallb serializable measurements = true); [|congruence].
      apply forallb_forall. intros t Hin. apply Hall.
      by apply list_elem_of_In.
  - split_and!; [done|by left| |done].
    intros Hall. apply Forall_and in Hall as [Hpos _].
    apply mapM_None_1 in Hrecords. apply Exists_exists in Hrecords
      as (m & Hin & Hnone).
    apply list_elem_of_fmap in Hin as (t & -> & Hin).
    rewrite Forall_forall in Hpos.
    destruct (live_record_of_total keypoint_names (tuple_values t)
                (Hpos t Hin)) as [r Hr].
    congruence.
Qed.

(** ** The functions on small inputs *)

Example range_of_five : Py.range 0 (5 - 1) 2 = [0; 2]%Z.
Proof. reflexivity. Qed.

Example str_of_pair_number : Py.str 12 = "12"%string.
Proof. reflexivity. Qed.

Example int_of_negative_key : Py.int_of_str "-7" = Some (-7)%Z.
Proof. reflexivity. Qed.

Example index_from_the_end :
  Py.index ["chest"; "waist"; "hem"]%string (-1) = Some "hem"%string.
Proof. reflexivity. Qed.

Example five_keypoints_two_pairs :
  formed_pairs [(0, 0); (10, 0); (20, 0); (30, 0); (40, 0)]
  = [(0%Z, (0, 0), (10, 0)); (2%Z, (20, 0), (30, 0))].
Proof. reflexivity. Qed.

(** The scenario of the specification: a first measurement of 200 cm
    becomes the target and passes; a second one of 210 cm passes with a
    tolerance of 100 cm and fails with a tolerance of 5 cm. *)
Example qc_scenario :
  let '(first, s1, d1) := check_qc "t0" 1 200 new_measurer ∅ in
  let tight :=
    Measurer (keypoints s1) (back_keypoints s1) (target_distances s1)
      (back_target_distances s1) (placement_box s1) (current_side s1)
      (reference_image s1) (reference_gray s1) (back_reference_image s1)
      (back_reference_gray s1) 5 (qc_results s1) (annotation_file s1)
      (back_annotation_file s1) (reference_image_file s1)
      (back_reference_image_file s1) in
  first = true /\
  target_distances s1 !! 1%Z = Some 200 /\
  fst (fst (check_qc "t1" 1 210 s1 d1)) = true /\
  fst (fst (check_qc "t1" 1 210 tight d1)) = false.
Proof.
  assert (Hfirst : check_qc "t0" 1 200 new_measurer ∅
            = (true,
               set_target_distances (<[1%Z := 200]> ∅) new_measurer,
               snd (save_annotation "t0"
                      (set_target_distances (<[1%Z := 200]> ∅) new_measurer)
                      ∅))).
  { unfold check_qc.
    cbn [current_target_distances new_measurer current_side target_distances].
    rewrite lookup_empty. reflexivity. }
  rewrite Hfirst. clear Hfirst.
  unfold check_qc.
  cbn [current_target_distances set_target_distances new_measurer
       current_side target_distances qc_tolerance_cm fst].
  rewrite !lookup_insert_eq.
  replace (210 - 200) with 10 by ring. rewrite Rabs_pos_eq by lra.
  destruct (Rle_dec 10 100) as [_|Hno]; [|lra].
  destruct (Rle_dec 10 5) as [Hyes|_]; [lra|].
  repeat split; reflexivity.
Qed.

Example round2_of_whole (z : Z) : Py.round2 (IZR z) = IZR z.
Proof.
  unfold Py.round2, Py.round_half_even.
  replace (IZR z * 100) with (IZR (z * 100)) by (rewrite mult_IZR; lra).
  rewrite <- (Int_part_spec (IZR (z * 100)) (z * 100)) by lra.
  destruct (Rlt_dec _ _) as [_|Hno]; [|lra].
  rewrite mult_IZR. field.
Qed.

(** * Further properties of the code *)

(** ** Temporal stabilisation: shape and memory *)

(** The rounds of the loop over [enumerate(zip(new, last))], by index. *)
Lemma rounds_lookup {B : Type} (f : nat -> point -> point -> B) (k : nat)
    (new last : list point) (i : nat) :
  ((fun '(i, (n, l)) => f i n l) <$> enumerate_from k (zip new last)) !! i
  = match new !! i, last !! i with
    | Some n, Some l => Some (f (k + i)%nat n l)
    | _, _ => None
    end.
Proof.
  revert k last i. induction new as [|n new IH]; intros k last i.
  - by destruct i.
  - destruct last as [|l last].
    + destruct i as [|i]; cbn; [done|]. by destruct (new !! i).
    + destruct i as [|i]; cbn [zip zip_with enumerate_from fmap list_fmap].
      * cbn. by rewrite Nat.add_0_r.
      * cbn [lookup list_lookup]. rewrite IH.
        by rewrite Nat.add_succ_r.
Qed.

Lemma rounds_length {B : Type} (f : nat -> point -> point -> B) (k : nat)
    (new last : list point) :
  length last = length new ->
  length ((fun '(i, (n, l)) => f i n l) <$> enumerate_from k (zip new last))
  = length new.
Proof.
  rewrite length_fmap. revert k last.
  induction new as [|n new IH]; intros k [|l last] Hlen; try done.
  cbn. f_equal. apply IH. by injection Hlen.
Qed.

(** One round returns the candidate or the remembered position. *)
Lemma stabilize_point_choice (last_valid new_keypoints : list point)
    (i : nat) (n l : point) :
  stabilize_point last_valid new_keypoints i n l = (n, true) \/
  stabilize_point last_valid new_keypoints i n l = (l, false).
Proof.
  unfold stabilize_point.
  destruct (_ || _); [by right|].
  destruct (bool_decide _); [by left|].
  destruct (check_coordinated_movement _ _ _); [by left|by right].
Qed.

(** X1.  [stabilize_keypoints] returns one position per candidate, and
    remembers exactly what it returns.  It never invents a position: each
    returned position is the candidate at that index or, when the memory
    has the cardinality of the candidate set, the position remembered at
    that index. *)
Theorem stabilize_keypoints_shape (new : list point) (t : tracking) :
  let '(out, t') := stabilize_keypoints new t in
  length out = length new /\
  last_valid_keypoints t' = out /\
  forall i p, out !! i = Some p ->
    new !! i = Some p \/
    (last_valid_keypoints t !! i = Some p /\
     length (last_valid_keypoints t) = length new).
Proof.
  unfold stabilize_keypoints.
  destruct (bool_decide (last_valid_keypoints t = [])) eqn:Hempty;
    [cbn [orb]; split; [done|split; [done|by left]]|].
  destruct (length (last_valid_keypoints t) =? length new)%nat eqn:Hlen;
    [|cbn [orb negb]; split; [done|split; [done|by left]]].
  apply Nat.eqb_eq in Hlen. cbn [orb negb]. unfold enumerate.
  set (rounds := _ <$> enumerate_from 0 _).
  assert (Hshape : length (fst <$> rounds) = length new /\
    forall i p, (fst <$> rounds) !! i = Some p ->
      new !! i = Some p \/
      (last_valid_keypoints t !! i = Some p /\
       length (last_valid_keypoints t) = length new)).
  { split.
    - rewrite length_fmap. by apply rounds_length.
    - intros i p. rewrite list_lookup_fmap. unfold rounds.
      rewrite rounds_lookup.
      destruct (new !! i) as [n|]; [|done].
      destruct (last_valid_keypoints t !! i) as [l|]; [|done].
      cbn [fmap option_fmap option_map].
      destruct (stabilize_point_choice (last_valid_keypoints t) new
                  (0 + i) n l) as [-> | ->]; intros [= <-]; auto. }
  destruct Hshape as [Hl Hp].
  by destruct (_ =? _)%nat.
Qed.

(** A round that keeps the remembered position makes the frame
    unstable. *)
Lemma stabilize_keypoints_round_rejected (new : list point) (t : tracking)
    (i : nat) (n l : point) :
  last_valid_keypoints t <> [] ->
  length (last_valid_keypoints t) = length new ->
  new !! i = Some n -> last_valid_keypoints t !! i = Some l ->
  stabilize_point (last_valid_keypoints t) new i n l = (l, false) ->
  fst (stabilize_keypoints new t) !! i = Some l /\
  stabilization_frames (snd (stabilize_keypoints new t)) = 0%Z /\
  keypoint_stabilized (snd (stabilize_keypoints new t)) = false.
Proof.
  intros Hne Hlen Hn Hl Hround. unfold stabilize_keypoints.
  rewrite bool_decide_eq_false_2 by assumption.
  rewrite Hlen, Nat.eqb_refl. cbn [orb negb]. unfold enumerate.
  set (rounds := _ <$> enumerate_from 0 _).
  assert (Hi : rounds !! i = Some (l, false)).
  { unfold rounds. rewrite rounds_lookup, Hn, Hl. cbn [Nat.add].
    by rewrite Hround. }
  assert (Hcount : (length (filter (fun r : point * bool => snd r = true)
                              rounds) < length new)%nat).
  { rewrite <- (rounds_length
                  (stabilize_point (last_valid_keypoints t) new) 0 new
                  (last_valid_keypoints t) Hlen).
    apply (length_filter_lt _ _ (l, false)); [|done].
    by apply list_elem_of_lookup_2 in Hi. }
  destruct (_ =? length new)%nat eqn:Heq;
    [apply Nat.eqb_eq in Heq; lia|].
  cbn [fst snd stabilization_frames keypoint_stabilized].
  by rewrite list_lookup_fmap, Hi.
Qed.

(** X2.  A sentinel candidate (a coordinate equal to -1) keeps the
    remembered position of its keypoint, resets the stable-frame counter
    to 0 and clears [keypoint_stabilized]. *)
Theorem sentinel_candidate_resets_stability (new : list point)
    (t : tracking) (i : nat) (n l : point)
    (Hinit : last_valid_keypoints t <> [])
    (Hcard : length (last_valid_keypoints t) = length new)
    (Hn : new !! i = Some n)
    (Hl : last_valid_keypoints t !! i = Some l)
    (Hsentinel : fst n = -1 \/ snd n = -1) :
  fst (stabilize_keypoints new t) !! i = Some l /\
  stabilization_frames (snd (stabilize_keypoints new t)) = 0%Z /\
  keypoint_stabilized (snd (stabilize_keypoints new t)) = false.
Proof.
  apply (stabilize_keypoints_round_rejected new t i n l); try assumption.
  unfold stabilize_point.
  destruct Hsentinel as [Hx|Hy].
  - by rewrite (bool_decide_eq_true_2 (fst n = -1)) by exact Hx.
  - rewrite (bool_decide_eq_true_2 (snd n = -1)) by exact Hy.
    by rewrite orb_true_r.
Qed.

(** X2 when the template matcher lost the second of two keypoints. *)
Lemma sentinel_candidate_resets_stability_witness :
  let t := Tracking [(100, 100); (300, 100)] 5 true in
  let new : list point := [(101, 100); (-1, -1)] in
  fst (stabilize_keypoints new t) !! 1%nat = Some (300, 100) /\
  stabilization_frames (snd (stabilize_keypoints new t)) = 0%Z /\
  keypoint_stabilized (snd (stabilize_keypoints new t)) = false.
Proof.
  apply (sentinel_candidate_resets_stability
           [(101, 100); (-1, -1)]
           (Tracking [(100, 100); (300, 100)] 5 true) 1 (-1, -1) (300, 100)).
  - discriminate.
  - reflexivity.
  - reflexivity.
  - reflexivity.
  - by left.
Defined.

(** ** Temporal stabilisation: when a jump is refused *)

Lemma magnitude_horizontal (dx : R) : magnitude dx 0 = Rabs dx.
Proof.
  unfold magnitude. replace (dx ^ 2 + 0 ^ 2) with (Rsqr dx)
    by (unfold Rsqr; ring).
  apply sqrt_Rsqr_abs.
Qed.

(** Against a mean displacement of zero no cosine is added. *)
Lemma consistency_sum_zero_mean (dirs : list (R * R)) :
  consistency_sum 0 0 dirs = 0.
Proof.
  unfold consistency_sum. generalize 0 at 3 4 as acc.
  induction dirs as [|[dx dy] dirs IH]; intros acc; [reflexivity|].
  cbn [foldl]. rewrite IH. unfold consistency_step.
  replace (0 ^ 2 + 0 ^ 2) with 0 by ring. rewrite sqrt_0.
  rewrite (bool_decide_eq_false_2 (0 > 0)) by lra.
  by rewrite andb_false_r.
Qed.

(** X3.  With at least three keypoints, a valid candidate 17 pixels or
    more from its remembered position is refused when at least two other
    keypoints moved by more than 5 pixels and their displacements cancel
    out (sum to zero): the keypoint keeps its remembered position and the
    frame is not counted as stable. *)
Theorem cancelling_movements_refuse_jump (new : list point) (t : tracking)
    (j : nat) (n l : point)
    (Hcard : length (last_valid_keypoints t) = length new)
    (Hthree : (3 <= length (last_valid_keypoints t))%nat)
    (Hn : new !! j = Some n)
    (Hl : last_valid_keypoints t !! j = Some l)
    (Hvalid : fst n <> -1 /\ snd n <> -1)
    (Hjump : sqrt ((fst n - fst l) ^ 2 + (snd n - snd l) ^ 2) >= 17)
    (Hmovers :
       (2 <= length (movement_directions (last_valid_keypoints t) new j))%nat)
    (Hcancel :
       Rsum (fst <$> movement_directions (last_valid_keypoints t) new j) = 0 /\
       Rsum (snd <$> movement_directions (last_valid_keypoints t) new j) = 0) :
  fst (stabilize_keypoints new t) !! j = Some l /\
  stabilization_frames (snd (stabilize_keypoints new t)) = 0%Z /\
  keypoint_stabilized (snd (stabilize_keypoints new t)) = false.
Proof.
  apply (stabilize_keypoints_round_rejected new t j n l); try assumption.
  { intros Hempty. rewrite Hempty in Hthree. cbn in Hthree. lia. }
  destruct Hvalid as [Hx Hy]. destruct Hcancel as [Hsx Hsy].
  unfold stabilize_point.
  rewrite !bool_decide_eq_false_2 by assumption. cbn [orb].
  rewrite (bool_decide_eq_false_2 (_ < stabilization_threshold))
    by (unfold stabilization_threshold; lra).
  unfold check_coordinated_movement.
  destruct (length (last_valid_keypoints t) <? 3)%nat eqn:H3;
    [apply Nat.ltb_lt in H3; lia|].
  destruct (length (movement_directions _ _ _) <? 2)%nat eqn:H2;
    [apply Nat.ltb_lt in H2; lia|].
  unfold mean. rewrite Hsx, Hsy, !Rdiv_0_l.
  rewrite consistency_sum_zero_mean, Rdiv_0_l.
  by rewrite (bool_decide_eq_false_2 (0 > 0.7)) by lra.
Qed.

(** X3 for three keypoints on a line: the first jumps 50 pixels while the
    second moves 10 pixels to the right and the third 10 pixels to the
    left. *)
Lemma cancelling_movements_refuse_jump_witness :
  let t := Tracking [(100, 100); (200, 100); (300, 100)] 3 true in
  let new : list point := [(150, 100); (210, 100); (290, 100)] in
  fst (stabilize_keypoints new t) !! 0%nat = Some (100, 100) /\
  stabilization_frames (snd (stabilize_keypoints new t)) = 0%Z /\
  keypoint_stabilized (snd (stabilize_keypoints new t)) = false.
Proof.
  assert (Hdirs : movement_directions [(100, 100); (200, 100); (300, 100)]
                    [(150, 100); (210, 100); (290, 100)] 0
                  = [(210 - 200, 100 - 100); (290 - 300, 100 - 100)]).
  { unfold movement_directions, enumerate.
    cbn [zip zip_with enumerate_from omap list_omap fst snd].
    replace (100 - 100) with 0 by ring. rewrite !magnitude_horizontal.
    rewrite (bool_decide_eq_false_2 (0%nat <> 0%nat)) by auto.
    rewrite (bool_decide_eq_true_2 (1%nat <> 0%nat)) by auto.
    rewrite (bool_decide_eq_true_2 (2%nat <> 0%nat)) by auto.
    rewrite !andb_false_r.
    rewrite (bool_decide_eq_true_2 (210 <> -1)) by lra.
    rewrite (bool_decide_eq_true_2 (200 <> -1)) by lra.
    rewrite (bool_decide_eq_true_2 (290 <> -1)) by lra.
    rewrite (bool_decide_eq_true_2 (300 <> -1)) by lra.
    cbn [andb].
    rewrite (bool_decide_eq_true_2 (Rabs (210 - 200) > 5))
      by (rewrite Rabs_pos_eq; lra).
    rewrite (bool_decide_eq_true_2 (Rabs (290 - 300) > 5))
      by (rewrite Rabs_left; lra).
    reflexivity. }
  apply (cancelling_movements_refuse_jump
           [(150, 100); (210, 100); (290, 100)]
           (Tracking [(100, 100); (200, 100); (300, 100)] 3 true)
           0 (150, 100) (100, 100)).
  - reflexivity.
  - cbn. lia.
  - reflexivity.
  - reflexivity.
  - cbn. split; lra.
  - cbn [fst snd]. replace ((150 - 100) ^ 2 + (100 - 100) ^ 2) with (50 ^ 2)
      by ring.
    rewrite sqrt_pow2; lra.
  - cbn [last_valid_keypoints]. rewrite Hdirs. cbn. lia.
  - cbn [last_valid_keypoints]. rewrite Hdirs. cbn. split; ring.
Defined.

(** ** Temporal stabilisation: calm frames and the counter *)

Lemma sqrt_lt_bound (x b : R) : 0 <= x -> 0 < b -> x < b * b -> sqrt x < b.
Proof.
  intros Hx Hb Hlt. rewrite <- (sqrt_square b) by lra.
  apply sqrt_lt_1_alt. lra.
Qed.

(** X4.  A frame in which every candidate is valid and less than 17
    pixels from its remembered position is accepted as it is, whatever the
    directions of the moves, and counts as one more stable frame; the flag
    [keypoint_stabilized] is raised as soon as the counter reaches 2. *)
Theorem small_moves_accepted (new : list point) (t : tracking)
    (Hinit : last_valid_keypoints t <> [])
    (Hcard : length (last_valid_keypoints t) = length new)
    (Hcalm : forall i n l,
       new !! i = Some n -> last_valid_keypoints t !! i = Some l ->
       fst n <> -1 /\ snd n <> -1 /\
       sqrt ((fst n - fst l) ^ 2 + (snd n - snd l) ^ 2) < 17) :
  stabilize_keypoints new t
  = (new,
     Tracking new (stabilization_frames t + 1)
       (if (2 <=? stabilization_frames t + 1)%Z then true
        else keypoint_stabilized t)).
Proof.
  apply stabilize_keypoints_all_accepted; [assumption..|].
  intros i n l Hn Hl. destruct (Hcalm i n l Hn Hl) as (Hx & Hy & Hd).
  unfold stabilize_point.
  rewrite !bool_decide_eq_false_2 by assumption. cbn [orb].
  by rewrite bool_decide_eq_true_2 by exact Hd.
Qed.

(** X4 for two keypoints moving 10 pixels in opposite directions. *)
Lemma small_moves_accepted_witness :
  let t := Tracking [(100, 100); (300, 100)] 1 false in
  let new : list point := [(110, 100); (290, 100)] in
  stabilize_keypoints new t = (new, Tracking new (1 + 1) true).
Proof.
  apply (small_moves_accepted [(110, 100); (290, 100)]
           (Tracking [(100, 100); (300, 100)] 1 false)).
  - discriminate.
  - reflexivity.
  - intros [|[|i]] n l [= <-] [= <-]; cbn [fst snd];
      (split; [lra|split; [lra|]]); apply sqrt_lt_bound; nra.
Defined.

(** X5.  [stabilize_keypoints] keeps the counter and the flag consistent:
    the counter never becomes negative, and [keypoint_stabilized] is true
    only while the counter is at least 2. *)
Theorem stabilize_keypoints_consistent (new : list point) (t : tracking)
    (Hok : tracking_consistent t) :
  tracking_consistent (snd (stabilize_keypoints new t)).
Proof.
  destruct Hok as [Hpos Hflag]. unfold stabilize_keypoints, tracking_consistent.
  destruct (_ || _); [done|].
  destruct (_ =? _)%nat; cbn [snd stabilization_frames keypoint_stabilized].
  - split; [lia|].
    destruct (2 <=? stabilization_frames t + 1)%Z eqn:H2.
    + intros _. by apply Z.leb_le in H2.
    + intros Hs. specialize (Hflag Hs). lia.
  - split; [lia|discriminate].
Qed.

(** X5 from the state in which tracking starts. *)
Lemma stabilize_keypoints_consistent_witness :
  tracking_consistent
    (snd (stabilize_keypoints [(100, 100); (300, 100)] (Tracking [] 0 false))).
Proof.
  apply (stabilize_keypoints_consistent [(100, 100); (300, 100)]
           (Tracking [] 0 false)).
  split; [cbn; lia|discriminate].
Defined.

(** ** Quality control: what a check leaves alone *)

(** The effect of [check_qc] on the object. *)
Lemma check_qc_effect (now : string) (p : Z) (m : R) (s : measurer)
    (d : disk) :
  let '(passed, s', d') := check_qc now p m s d in
  (current_side s' = current_side s /\
   keypoints s' = keypoints s /\ back_keypoints s' = back_keypoints s /\
   qc_tolerance_cm s' = qc_tolerance_cm s /\
   other_target_distances s' = other_target_distances s /\
   (forall q, q <> p ->
      current_target_distances s' !! q = current_target_distances s !! q) /\
   (forall v, current_target_distances s !! p = Some v ->
      current_target_distances s' !! p = Some v) /\
   is_Some (current_target_distances s' !! p)) /\
  (current_target_distances s !! p = None ->
   passed = true /\ current_target_distances s' !! p = Some m).
Proof.
  unfold check_qc, current_target_distances, other_target_distances.
  destruct (current_side s) eqn:Hside.
  - destruct (target_distances s !! p) as [t|] eqn:Hp.
    + destruct (Rle_dec _ _); cbn; rewrite Hside;
        repeat split; try done; try (intros; congruence);
        rewrite Hp; by eexists.
    + cbn. rewrite Hside. repeat split; try done.
      * intros q Hq. by rewrite lookup_insert_ne.
      * rewrite lookup_insert_eq. by eexists.
      * apply lookup_insert_eq.
  - destruct (back_target_distances s !! p) as [t|] eqn:Hp.
    + destruct (Rle_dec _ _); cbn; rewrite Hside;
        repeat split; try done; try (intros; congruence);
        rewrite Hp; by eexists.
    + cbn. rewrite Hside. repeat split; try done.
      * intros q Hq. by rewrite lookup_insert_ne.
      * rewrite lookup_insert_eq. by eexists.
      * apply lookup_insert_eq.
Qed.

(** X6.  [check_qc] for pair [p] changes nothing of the object but the
    target of [p] on the active side (and the verdicts): the side, both
    keypoint lists, the tolerance, the targets of the other side and every
    other target of the active side are as before, and an existing target
    of [p] is kept too.  Afterwards [p] has a target. *)
Theorem check_qc_frame (now : string) (p : Z) (m : R) (s : measurer)
    (d : disk) :
  let '(passed, s', d') := check_qc now p m s d in
  current_side s' = current_side s /\
  keypoints s' = keypoints s /\ back_keypoints s' = back_keypoints s /\
  qc_tolerance_cm s' = qc_tolerance_cm s /\
  other_target_distances s' = other_target_distances s /\
  (forall q, q <> p ->
     current_target_distances s' !! q = current_target_distances s !! q) /\
  (forall v, current_target_distances s !! p = Some v ->
     current_target_distances s' !! p = Some v) /\
  is_Some (current_target_distances s' !! p).
Proof.
  pose proof (check_qc_effect now p m s d) as Heffect.
  destruct (check_qc now p m s d) as [[passed s'] d']. apply Heffect.
Qed.

(** ** The live measurement loop: what it measures *)

(** X7.  Without calibration the loop checks nothing: it runs to its end,
    every measurement reports a real distance of 0 and a failed check,
    and the object and the files are left exactly as they were (no target
    is stored). *)
Theorem uncalibrated_loop_checks_nothing (now : string) (cal : calibration)
    (frame_gray : option image) (t : list point) (st : measurer * disk)
    (Hcal : is_calibrated cal = false) :
  snd (measure_pairs now cal frame_gray t st) = false /\
  snd (fst (measure_pairs now cal frame_gray t st)) = st /\
  Forall (fun m => m_real_distance m = 0 /\ m_qc_passed m = false)
    (fst (fst (measure_pairs now cal frame_gray t st))).
Proof.
  rewrite measure_pairs_from. generalize (formed_pairs t) as pairs.
  intros pairs. revert st.
  induction pairs as [|[[i p1] p2] pairs IH]; intros [s d].
  - by split.
  - rewrite measure_from_cons.
    pose proof (measure_pair_appended now cal frame_gray i p1 p2 s d) as Hm.
    destruct (measure_pair now cal frame_gray i p1 p2 (s, d))
      as [[[m|] st']|].
    + rewrite Hcal in Hm. destruct Hm as (_ & _ & _ & Hr & Hq & ->).
      cbn [fst snd option_list]. destruct (IH (s, d)) as (Hraised & Hst & Hall).
      split; [exact Hraised|]. split; [exact Hst|]. by constructor.
    + subst st'. cbn [fst snd option_list app]. apply IH.
    + destruct Hm as [Hm _]. congruence.
Qed.

(** X7 for a frame of two tracked keypoints. *)
Lemma uncalibrated_loop_checks_nothing_witness :
  let st := (new_measurer, (∅ : disk)) in
  let t : list point := [(0, 0); (30, 40)] in
  snd (measure_pairs "t0" (Calibration false 0) None t st) = false /\
  snd (fst (measure_pairs "t0" (Calibration false 0) None t st)) = st /\
  Forall (fun m => m_real_distance m = 0 /\ m_qc_passed m = false)
    (fst (fst (measure_pairs "t0" (Calibration false 0) None t st))).
Proof.
  apply (uncalibrated_loop_checks_nothing "t0" (Calibration false 0) None
           [(0, 0); (30, 40)] (new_measurer, ∅)).
  reflexivity.
Defined.

(** The measurements of a loop over [pairs]: their pair numbers follow
    the order of the pairs, and each comes from one of them. *)
Lemma measure_from_follows (now : string) (cal : calibration)
    (frame_gray : option image) (pairs : list (Z * point * point))
    (st : measurer * disk) :
  (m_pair_num
   <$> fst (fst (measure_from now cal frame_gray pairs [] st false)))
    `sublist_of` ((fun x => (fst (fst x) / 2 + 1)%Z) <$> pairs) /\
  Forall (fun m => exists i p1 p2,
            (i, p1, p2) ∈ pairs /\ m_pair_num m = (i / 2 + 1)%Z /\
            m_is_fallback m = Some (tracking_failed p1 || tracking_failed p2) /\
            0 <= m_pixel_distance m)
    (fst (fst (measure_from now cal frame_gray pairs [] st false))).
Proof.
  revert st. induction pairs as [|[[i p1] p2] pairs IH]; intros [s d].
  - split; [apply sublist_nil_l|constructor].
  - rewrite measure_from_cons.
    pose proof (measure_pair_appended now cal frame_gray i p1 p2 s d) as Hm.
    destruct (measure_pair now cal frame_gray i p1 p2 (s, d))
      as [[[m|] st']|]; cbn [fst snd];
      [| |split; [apply sublist_nil_l|constructor]];
      destruct (IH st') as [Hsub Hall];
      assert (Hlater : Forall (fun m => exists i' q1 q2,
                (i', q1, q2) ∈ (i, p1, p2) :: pairs /\
                m_pair_num m = (i' / 2 + 1)%Z /\
                m_is_fallback m
                = Some (tracking_failed q1 || tracking_failed q2) /\
                0 <= m_pixel_distance m)
              (fst (fst (measure_from now cal frame_gray pairs [] st'
                           false))))
        by (eapply Forall_impl; [exact Hall|];
            intros m' (i' & q1 & q2 & Hin & Hrest);
            exists i', q1, q2; split; [by apply list_elem_of_further|done]).
    + destruct Hm as (Hnum & Hpix & Hfb & _). split.
      * change (option_list (Some m)) with [m]. cbn [app fmap list_fmap fst].
        rewrite Hnum. by apply sublist_skip.
      * change (option_list (Some m)) with [m]. cbn [app].
        constructor; [|exact Hlater].
        exists i, p1, p2. repeat split; try done. apply list_elem_of_here.
    + change (option_list None) with (@nil measurement).
      cbn [app fmap list_fmap].
      split; [by apply sublist_cons|exact Hlater].
Qed.

(** X8.  The measurements of a frame follow the pairs: their pair numbers
    are a subsequence, in order, of 1, 2, ..., n / 2, and the measurement
    numbered [k + 1] is made on the keypoints at indices [2k] and
    [2k + 1]; its pixel distance is not negative, and its fallback flag is
    set exactly when the tracking of one of these two keypoints failed.
    This holds of whatever the loop has appended, also when a
    [ZeroDivisionError] ends it. *)
Theorem measurements_follow_pairs (now : string) (cal : calibration)
    (frame_gray : option image) (t : list point) (st : measurer * disk) :
  (m_pair_num <$> fst (fst (measure_pairs now cal frame_gray t st)))
    `sublist_of` ((fun k : nat => (Z.of_nat k + 1)%Z)
                  <$> seq 0 (length t / 2)) /\
  Forall (fun m => exists (k : nat) (p1 p2 : point),
            t !! (2 * k)%nat = Some p1 /\ t !! (2 * k + 1)%nat = Some p2 /\
            m_pair_num m = (Z.of_nat k + 1)%Z /\
            m_is_fallback m = Some (tracking_failed p1 || tracking_failed p2) /\
            0 <= m_pixel_distance m)
    (fst (fst (measure_pairs now cal frame_gray t st))).
Proof.
  rewrite measure_pairs_from.
  destruct (measure_from_follows now cal frame_gray (formed_pairs t) st)
    as [Hsub Hall].
  pose proof (Nat.div_mod_eq (length t) 2) as Hdiv.
  split.
  - assert (Hnums : (fun x : Z * point * point => (fst (fst x) / 2 + 1)%Z)
                    <$> formed_pairs t
                    = (fun k : nat => (Z.of_nat k + 1)%Z)
                      <$> seq 0 (length t / 2)).
    { rewrite formed_pairs_eq, <- list_fmap_compose.
      apply list_fmap_ext. intros _ k _. cbn [compose fst].
      replace (Z.of_nat (2 * k)) with (Z.of_nat k * 2)%Z by lia.
      by rewrite Z.div_mul by lia. }
    by rewrite Hnums in Hsub.
  - eapply Forall_impl; [exact Hall|].
    intros m (i & p1 & p2 & Hin & Hnum & Hfb & Hpix).
    rewrite formed_pairs_eq in Hin.
    apply list_elem_of_fmap in Hin as (k & Heq & Hk).
    apply elem_of_seq in Hk.
    destruct (lookup_lt_is_Some_2 t (2 * k)) as [q1 Hq1]; [lia|].
    destruct (lookup_lt_is_Some_2 t (2 * k + 1)) as [q2 Hq2]; [lia|].
    rewrite Hq1, Hq2 in Heq. cbn [default] in Heq.
    injection Heq as -> -> ->.
    exists k, q1, q2. repeat split; try done.
    rewrite Hnum. f_equal.
    replace (Z.of_nat (k + (k + 0))) with (Z.of_nat k * 2)%Z by lia.
    apply Z.div_mul. lia.
Qed.

Lemma tracking_failed_false (p : point) :
  fst p <> -1 -> snd p <> -1 -> tracking_failed p = false.
Proof.
  intros Hx Hy. unfold tracking_failed.
  by rewrite !bool_decide_eq_false_2 by assumption.
Qed.

(** Tracked keypoints are measured where they are, unless the object is
    calibrated with a scale of 0. *)
Lemma measure_pair_tracked (now : string) (cal : calibration)
    (frame_gray : option image) (i : Z) (p1 p2 : point)
    (st : measurer * disk) :
  (is_calibrated cal = true -> pixels_per_cm cal <> 0) ->
  tracking_failed p1 = false -> tracking_failed p2 = false ->
  exists m st',
    measure_pair now cal frame_gray i p1 p2 st = Some (Some m, st') /\
    m_pair_num m = (i / 2 + 1)%Z /\
    m_pixel_distance m
    = sqrt ((fst p2 - fst p1) ^ 2 + (snd p2 - snd p1) ^ 2) /\
    m_real_distance m
    = (if is_calibrated cal then m_pixel_distance m / pixels_per_cm cal
       else 0) /\
    m_is_fallback m = Some false.
Proof.
  intros Hscale H1 H2. destruct st as [s d].
  unfold measure_pair, fallback_positions.
  rewrite H1, H2. cbn [andb orb mbind option_bind]. rewrite H1, H2.
  cbn [orb]. destruct (is_calibrated cal).
  - rewrite bool_decide_eq_false_2 by (by apply Hscale).
    destruct (check_qc _ _ _ _ _) as [[passed s'] d'].
    eexists _, _. by repeat split.
  - eexists _, _. by repeat split.
Qed.

(** X9.  When every transferred keypoint is tracked (no coordinate is
    -1) and the scale of a calibrated object is not 0, the loop runs to
    its end and the frame yields one measurement for each of the n / 2
    pairs, in order: measurement [k] has pair number [k + 1], the
    Euclidean pixel distance between the keypoints at indices [2k] and
    [2k + 1], that distance divided by [pixels_per_cm] as real distance
    when calibrated (0 otherwise), and no fallback flag. *)
Theorem tracked_frame_measures_every_pair (now : string)
    (cal : calibration) (frame_gray : option image) (t : list point)
    (st : measurer * disk)
    (Hscale : is_calibrated cal = true -> pixels_per_cm cal <> 0)
    (Htracked : Forall (fun p => fst p <> -1 /\ snd p <> -1) t) :
  snd (measure_pairs now cal frame_gray t st) = false /\
  length (fst (fst (measure_pairs now cal frame_gray t st)))
  = (length t / 2)%nat /\
  forall k : nat, (k < length t / 2)%nat ->
    exists m p1 p2,
      fst (fst (measure_pairs now cal frame_gray t st)) !! k = Some m /\
      t !! (2 * k)%nat = Some p1 /\ t !! (2 * k + 1)%nat = Some p2 /\
      m_pair_num m = (Z.of_nat k + 1)%Z /\
      m_pixel_distance m
      = sqrt ((fst p2 - fst p1) ^ 2 + (snd p2 - snd p1) ^ 2) /\
      m_real_distance m
      = (if is_calibrated cal then m_pixel_distance m / pixels_per_cm cal
         else 0) /\
      m_is_fallback m = Some false.
Proof.
  rewrite measure_pairs_from.
  assert (Hgen : forall pairs st0,
    Forall (fun x : Z * point * point =>
              tracking_failed (snd (fst x)) = false /\
              tracking_failed (snd x) = false) pairs ->
    snd (measure_from now cal frame_gray pairs [] st0 false) = false /\
    Forall2 (fun (x : Z * point * point) m =>
               m_pair_num m = (fst (fst x) / 2 + 1)%Z /\
               m_pixel_distance m
               = sqrt ((fst (snd x) - fst (snd (fst x))) ^ 2
                       + (snd (snd x) - snd (snd (fst x))) ^ 2) /\
               m_real_distance m
               = (if is_calibrated cal
                  then m_pixel_distance m / pixels_per_cm cal else 0) /\
               m_is_fallback m = Some false)
      pairs (fst (fst (measure_from now cal frame_gray pairs [] st0 false)))).
  { induction pairs as [|[[i p1] p2] pairs IH]; intros st0 Hall;
      [split; [reflexivity|constructor]|].
    apply Forall_cons in Hall as [[H1 H2] Hall]. cbn [fst snd] in H1, H2.
    rewrite measure_from_cons.
    destruct (measure_pair_tracked now cal frame_gray i p1 p2 st0 Hscale
                H1 H2) as (m & st' & -> & Hm).
    destruct (IH st' Hall) as [Hraised Hrest]. cbn [fst snd].
    split; [exact Hraised|].
    change (option_list (Some m)) with [m]. cbn [app].
    constructor; [exact Hm|exact Hrest]. }
  assert (Hpairs : Forall (fun x : Z * point * point =>
              tracking_failed (snd (fst x)) = false /\
              tracking_failed (snd x) = false) (formed_pairs t)).
  { rewrite formed_pairs_eq. apply Forall_fmap, Forall_forall.
    intros k Hk. apply elem_of_seq in Hk. cbn [compose fst snd].
    pose proof (Nat.div_mod_eq (length t) 2) as Hdiv.
    rewrite Forall_lookup in Htracked.
    destruct (lookup_lt_is_Some_2 t (2 * k)) as [q1 Hq1]; [lia|].
    destruct (lookup_lt_is_Some_2 t (2 * k + 1)) as [q2 Hq2]; [lia|].
    rewrite Hq1, Hq2. cbn [default].
    destruct (Htracked _ _ Hq1), (Htracked _ _ Hq2).
    split; by apply tracking_failed_false. }
  destruct (Hgen (formed_pairs t) st Hpairs) as [Hraised Hall].
  split; [exact Hraised|]. split.
  - rewrite <- (Forall2_length _ _ _ Hall). apply formed_pairs_length.
  - intros k Hk.
    pose proof (Nat.div_mod_eq (length t) 2) as Hdiv.
    destruct (lookup_lt_is_Some_2 t (2 * k)) as [q1 Hq1]; [lia|].
    destruct (lookup_lt_is_Some_2 t (2 * k + 1)) as [q2 Hq2]; [lia|].
    assert (Hpair : formed_pairs t !! k = Some (Z.of_nat (2 * k), q1, q2)).
    { rewrite formed_pairs_eq, list_lookup_fmap, lookup_seq_lt by exact Hk.
      cbn [fmap option_fmap option_map Nat.add]. by rewrite Hq1, Hq2. }
    destruct (Forall2_lookup_l _ _ _ _ _ Hall Hpair) as (m & Hm & Hprops).
    cbn [fst snd] in Hprops. destruct Hprops as (Hnum & Hrest).
    exists m, q1, q2. repeat split; try done; try apply Hrest.
    rewrite Hnum. f_equal.
    replace (Z.of_nat (2 * k)) with (Z.of_nat k * 2)%Z by lia.
    apply Z.div_mul. lia.
Qed.

(** X9 for two tracked keypoints 50 pixels apart, at 10 pixels per cm. *)
Lemma tracked_frame_measures_every_pair_witness :
  let t : list point := [(0, 0); (30, 40)] in
  let cal := Calibration true 10 in
  let st := (new_measurer, (∅ : disk)) in
  snd (measure_pairs "t0" cal None t st) = false /\
  length (fst (fst (measure_pairs "t0" cal None t st)))
  = (length t / 2)%nat /\
  forall k : nat, (k < length t / 2)%nat ->
    exists m p1 p2,
      fst (fst (measure_pairs "t0" cal None t st)) !! k = Some m /\
      t !! (2 * k)%nat = Some p1 /\ t !! (2 * k + 1)%nat = Some p2 /\
      m_pair_num m = (Z.of_nat k + 1)%Z /\
      m_pixel_distance m
      = sqrt ((fst p2 - fst p1) ^ 2 + (snd p2 - snd p1) ^ 2) /\
      m_real_distance m
      = (if is_calibrated cal then m_pixel_distance m / pixels_per_cm cal
         else 0) /\
      m_is_fallback m = Some false.
Proof.
  apply (tracked_frame_measures_every_pair "t0" (Calibration true 10) None
           [(0, 0); (30, 40)] (new_measurer, ∅)).
  - intros _. cbn. lra.
  - repeat constructor; cbn; lra.
Defined.

(** ** The live measurement loop: baselines *)

(** The pairs formed come in the order of their pair numbers. *)
Lemma formed_pairs_sorted (t : list point) :
  StronglySorted (fun x y : Z * point * point =>
                    (fst (fst x) / 2 < fst (fst y) / 2)%Z)
    (formed_pairs t).
Proof.
  rewrite formed_pairs_eq.
  assert (Hgen : forall cnt a,
    StronglySorted (fun x y : Z * point * point =>
                      (fst (fst x) / 2 < fst (fst y) / 2)%Z)
      ((fun k : nat =>
          (Z.of_nat (2 * k), default sentinel (t !! (2 * k)%nat),
           default sentinel (t !! (2 * k + 1)%nat))) <$> seq a cnt));
    [|apply Hgen].
  induction cnt as [|cnt IH]; intros a; [constructor|].
  cbn [seq fmap list_fmap]. constructor; [apply IH|].
  apply Forall_fmap, Forall_forall. intros k Hk.
  apply elem_of_seq in Hk. cbn [compose fst].
  replace (Z.of_nat (2 * a)) with (Z.of_nat a * 2)%Z by lia.
  replace (Z.of_nat (2 * k)) with (Z.of_nat k * 2)%Z by lia.
  rewrite !Z.div_mul by lia. lia.
Qed.

(** The targets through a loop, calibrated with a scale that is not 0,
    over pairs that come in the order of their pair numbers. *)
Lemma measure_from_baseline (now : string) (cal : calibration)
    (frame_gray : option image) (pairs : list (Z * point * point))
    (s : measurer) (d : disk) :
  is_calibrated cal = true -> pixels_per_cm cal <> 0 ->
  StronglySorted (fun x y : Z * point * point =>
                    (fst (fst x) / 2 < fst (fst y) / 2)%Z) pairs ->
  let res := measure_from now cal frame_gray pairs [] (s, d) false in
  snd res = false /\
  (forall q v, current_target_distances s !! q = Some v ->
     current_target_distances (fst (snd (fst res))) !! q = Some v) /\
  (forall q, Forall (fun x => (fst (fst x) / 2 + 1)%Z <> q) pairs ->
     current_target_distances (fst (snd (fst res))) !! q
     = current_target_distances s !! q) /\
  Forall (fun m =>
            (exists x, x ∈ pairs /\ m_pair_num m = (fst (fst x) / 2 + 1)%Z) /\
            is_Some (current_target_distances (fst (snd (fst res)))
                       !! m_pair_num m) /\
            (current_target_distances s !! m_pair_num m = None ->
             m_qc_passed m = true /\
             current_target_distances (fst (snd (fst res))) !! m_pair_num m
             = Some (m_real_distance m)))
    (fst (fst res)).
Proof.
  intros Hcal Hscale Hsorted. revert s d.
  induction Hsorted as [|[[i p1] p2] pairs Hsorted IH Hhead]; intros s d.
  - cbn. repeat split; try done; constructor.
  - cbv zeta. rewrite measure_from_cons.
    pose proof (measure_pair_appended now cal frame_gray i p1 p2 s d) as Hm.
    destruct (measure_pair now cal frame_gray i p1 p2 (s, d))
      as [[[m|] [s1 d1]]|]; cbn [fst snd].
    + rewrite Hcal in Hm. destruct Hm as (Hnum & _ & _ & _ & Hreal & Hqc).
      cbn [fst snd] in Hqc.
      pose proof (check_qc_effect now (i / 2 + 1) (m_real_distance m) s d)
        as Heffect.
      rewrite Hqc in Heffect.
      destruct Heffect as [(_ & _ & _ & _ & _ & Hother & Hkeep & Hsome) Hbase].
      destruct (IH s1 d1) as (Hraised & Hgrow & Hsame & Hall).
      cbv zeta in *.
      assert (Hgrow1 : forall q v,
                current_target_distances s !! q = Some v ->
                current_target_distances s1 !! q = Some v).
      { intros q v Hq. destruct (decide (q = (i / 2 + 1)%Z)) as [->|Hne].
        - by apply Hkeep.
        - by rewrite Hother. }
      split; [exact Hraised|]. split; [|split].
      * intros q v Hq. by apply Hgrow, Hgrow1.
      * intros q Hq. apply Forall_cons in Hq as [Hq1 Hq].
        cbn [fst] in Hq1. rewrite (Hsame q Hq). by apply Hother.
      * change (option_list (Some m)) with [m]. cbn [app]. constructor.
        -- split; [exists (i, p1, p2); split; [apply list_elem_of_here|done]|].
           rewrite Hnum. split.
           ++ destruct Hsome as [v Hv]. exists v. by apply Hgrow.
           ++ intros Hnone. destruct (Hbase Hnone) as [-> Hset].
              split; [done|]. by apply Hgrow.
        -- eapply Forall_impl; [exact Hall|].
           intros m' ((x & Hx & Hnum') & Hsome' & Hbase').
           split; [exists x; split; [by apply list_elem_of_further|done]|].
           split; [done|]. intros Hnone. apply Hbase'.
           rewrite Hother; [done|].
           rewrite Forall_forall in Hhead. specialize (Hhead x Hx).
           cbn [fst] in Hhead. rewrite Hnum'. lia.
    + injection Hm as -> ->.
      destruct (IH s d) as (Hraised & Hgrow & Hsame & Hall). cbv zeta in *.
      change (option_list None) with (@nil measurement). cbn [app].
      split; [exact Hraised|]. split; [exact Hgrow|split].
      * intros q Hq. apply Forall_cons in Hq as [_ Hq]. by apply Hsame.
      * eapply Forall_impl; [exact Hall|].
        intros m' ((x & Hx & Hnum') & Hrest).
        split; [exists x; split; [by apply list_elem_of_further|done]|done].
    + by destruct Hm as [_ Hm].
Qed.

(** X10.  In a frame of an object calibrated with a scale that is not 0,
    the loop runs to its end and never changes or drops a stored target;
    afterwards every measured pair has a target; and a pair that had
    none before the frame passes its check and gets its own measured
    distance as target. *)
Theorem first_measurements_become_targets (now : string)
    (cal : calibration) (frame_gray : option image) (t : list point)
    (s : measurer) (d : disk)
    (Hcal : is_calibrated cal = true)
    (Hscale : pixels_per_cm cal <> 0) :
  let res := measure_pairs now cal frame_gray t (s, d) in
  snd res = false /\
  (forall q v, current_target_distances s !! q = Some v ->
     current_target_distances (fst (snd (fst res))) !! q = Some v) /\
  Forall (fun m =>
            is_Some (current_target_distances (fst (snd (fst res)))
                       !! m_pair_num m) /\
            (current_target_distances s !! m_pair_num m = None ->
             m_qc_passed m = true /\
             current_target_distances (fst (snd (fst res))) !! m_pair_num m
             = Some (m_real_distance m)))
    (fst (fst res)).
Proof.
  cbv zeta. rewrite measure_pairs_from.
  destruct (measure_from_baseline now cal frame_gray (formed_pairs t) s d
              Hcal Hscale (formed_pairs_sorted t))
    as (Hraised & Hgrow & _ & Hall).
  split; [exact Hraised|]. split; [exact Hgrow|].
  eapply Forall_impl; [exact Hall|]. by intros m (_ & Hrest).
Qed.

(** X10 for a first calibrated frame of two tracked keypoints. *)
Lemma first_measurements_become_targets_witness :
  let res :=
    measure_pairs "t0" (Calibration true 10) None [(0, 0); (30, 40)]
      (new_measurer, ∅) in
  snd res = false /\
  (forall q v, current_target_distances new_measurer !! q = Some v ->
     current_target_distances (fst (snd (fst res))) !! q = Some v) /\
  Forall (fun m =>
            is_Some (current_target_distances (fst (snd (fst res)))
                       !! m_pair_num m) /\
            (current_target_distances new_measurer !! m_pair_num m = None ->
             m_qc_passed m = true /\
             current_target_distances (fst (snd (fst res))) !! m_pair_num m
             = Some (m_real_distance m)))
    (fst (fst res)).
Proof.
  apply (first_measurements_become_targets "t0" (Calibration true 10) None
           [(0, 0); (30, 40)] new_measurer ∅).
  - reflexivity.
  - cbn. lra.
Defined.

(** ** Annotation files: saving, loading, deleting *)

(** Loading a file that holds a saved front annotation. *)
Lemma load_saved_annotation (now : string) (saved loader : measurer)
    (d : disk) :
  d !! annotation_file loader = Some (FJson (annotation_data now saved)) ->
  load_annotation loader d
  = Some (match keypoints saved with
          | [] => (false,
                   set_annotation (keypoints saved) (target_distances saved)
                     (placement_box saved) loader)
          | _ :: _ =>
              load_reference_image
                (set_annotation (keypoints saved) (target_distances saved)
                   (placement_box saved) loader) d
          end).
Proof.
  intros Hfile. unfold load_annotation. rewrite Hfile.
  unfold annotation_data. cbn [Json.get String.eqb Ascii.eqb Bool.eqb].
  rewrite to_points_of_points, to_targets_of_targets, to_numbers_of_numbers.
  cbn [mbind option_bind]. by destruct (keypoints saved).
Qed.

(** Loading a file that holds a saved back annotation. *)
Lemma load_saved_back_annotation (now : string) (saved loader : measurer)
    (d : disk) :
  d !! back_annotation_file loader
  = Some (FJson (back_annotation_data now saved)) ->
  load_back_annotation loader d
  = Some (match back_keypoints saved with
          | [] => (false,
                   set_back_annotation (back_keypoints saved)
                     (back_target_distances saved) loader)
          | _ :: _ =>
              load_back_reference_image
                (set_back_annotation (back_keypoints saved)
                   (back_target_distances saved) loader) d
          end).
Proof.
  intros Hfile. unfold load_back_annotation. rewrite Hfile.
  unfold back_annotation_data. cbn [Json.get String.eqb Ascii.eqb Bool.eqb].
  rewrite to_points_of_points, to_targets_of_targets.
  cbn [mbind option_bind]. by destruct (back_keypoints saved).
Qed.

Lemma load_reference_image_fields (s : measurer) (d : disk) :
  keypoints (snd (load_reference_image s d)) = keypoints s /\
  target_distances (snd (load_reference_image s d)) = target_distances s /\
  placement_box (snd (load_reference_image s d)) = placement_box s.
Proof.
  unfold load_reference_image. by destruct (d !! _) as [[doc|img|]|].
Qed.

Lemma load_back_reference_image_fields (s : measurer) (d : disk) :
  back_keypoints (snd (load_back_reference_image s d)) = back_keypoints s /\
  back_target_distances (snd (load_back_reference_image s d))
  = back_target_distances s /\
  keypoints (snd (load_back_reference_image s d)) = keypoints s /\
  target_distances (snd (load_back_reference_image s d)) = target_distances s /\
  placement_box (snd (load_back_reference_image s d)) = placement_box s.
Proof.
  unfold load_back_reference_image. by destruct (d !! _) as [[doc|img|]|].
Qed.

(** X11.  A back annotation saved by [save_back_annotation] and loaded by
    [load_back_annotation] from the same file comes back with the same
    back keypoints and back targets; the front keypoints, front targets
    and placement box of the loading object are not touched. *)
Theorem save_then_load_back_annotation
    (now : string) (saved loader : measurer) (d : disk)
    (Hfile : back_annotation_file loader = back_annotation_file saved)
    (Hpaths : back_annotation_file saved <> back_reference_image_file saved) :
  exists (ok : bool) (loaded : measurer),
    load_back_annotation loader (snd (save_back_annotation now saved d))
    = Some (ok, loaded) /\
    back_keypoints loaded = back_keypoints saved /\
    back_target_distances loaded = back_target_distances saved /\
    keypoints loaded = keypoints loader /\
    target_distances loaded = target_distances loader /\
    placement_box loaded = placement_box loader.
Proof.
  rewrite (load_saved_back_annotation now saved loader).
  2:{ rewrite Hfile. by apply save_back_annotation_persists. }
  destruct (back_keypoints saved) as [|kp kps] eqn:Hkps.
  - eexists _, _. split; [reflexivity|]. done.
  - set (s' := set_back_annotation _ _ _).
    set (d' := snd _).
    destruct (load_back_reference_image_fields s' d')
      as (H1 & H2 & H3 & H4 & H5).
    exists (fst (load_back_reference_image s' d')),
           (snd (load_back_reference_image s' d')).
    split; [by destruct (load_back_reference_image s' d')|].
    by rewrite H1, H2, H3, H4, H5.
Qed.

(** X11 for a back annotation of two keypoints and one target. *)
Lemma save_then_load_back_annotation_witness :
  let saved := set_back_annotation [(50, 60); (70, 80)] {[1%Z := 12]}
                 new_measurer in
  exists (ok : bool) (loaded : measurer),
    load_back_annotation new_measurer
      (snd (save_back_annotation "2026-01-01" saved ∅))
    = Some (ok, loaded) /\
    back_keypoints loaded = back_keypoints saved /\
    back_target_distances loaded = back_target_distances saved /\
    keypoints loaded = keypoints new_measurer /\
    target_distances loaded = target_distances new_measurer /\
    placement_box loaded = placement_box new_measurer.
Proof.
  apply (save_then_load_back_annotation "2026-01-01"
           (set_back_annotation [(50, 60); (70, 80)] {[1%Z := 12]}
              new_measurer) new_measurer ∅).
  - reflexivity.
  - discriminate.
Defined.

(** X12.  [save_annotation] reports whether the reference image could be
    saved, not whether the annotation was: the document is written in
    either case.  Loading it back fails when there are no keypoints, and
    succeeds, with a reference image in place, when there are keypoints
    and the object that saved had a reference image. *)
Theorem save_annotation_reports_image (now : string) (s : measurer)
    (d : disk)
    (Hpaths : annotation_file s <> reference_image_file s) :
  (fst (save_annotation now s d) = true <-> is_Some (reference_image s)) /\
  snd (save_annotation now s d) !! annotation_file s
  = Some (FJson (annotation_data now s)) /\
  exists (ok : bool) (loaded : measurer),
    load_annotation s (snd (save_annotation now s d)) = Some (ok, loaded) /\
    (keypoints s = [] -> ok = false) /\
    (keypoints s <> [] -> is_Some (reference_image s) ->
     ok = true /\ is_Some (reference_gray loaded)).
Proof.
  split; [|split].
  - unfold save_annotation, save_reference_image.
    destruct (reference_image s) as [img|]; cbn.
    + split; [intros _; by eexists|done].
    + split; [done|by intros [? ?]].
  - by apply save_annotation_persists.
  - rewrite (load_saved_annotation now s s)
      by (by apply save_annotation_persists).
    destruct (keypoints s) as [|kp kps] eqn:Hkps.
    + eexists _, _. split; [reflexivity|]. split; [done|]. by intros [].
    + set (s' := set_annotation _ _ _ _).
      exists (fst (load_reference_image s' (snd (save_annotation now s d)))),
             (snd (load_reference_image s' (snd (save_annotation now s d)))).
      split; [by destruct (load_reference_image _ _)|].
      split; [discriminate|]. intros _ [img Himg].
      unfold load_reference_image, save_annotation, save_reference_image.
      rewrite Himg. cbn [snd]. subst s'. cbn [reference_image_file set_annotation].
      rewrite lookup_insert_eq. cbn. split; [done|by eexists].
Qed.

(** X12 for an object without a reference image. *)
Lemma save_annotation_reports_image_witness :
  let s := set_annotation [(100, 100); (300, 100)] ∅ [] new_measurer in
  (fst (save_annotation "t0" s ∅) = true <-> is_Some (reference_image s)) /\
  snd (save_annotation "t0" s ∅) !! annotation_file s
  = Some (FJson (annotation_data "t0" s)) /\
  exists (ok : bool) (loaded : measurer),
    load_annotation s (snd (save_annotation "t0" s ∅)) = Some (ok, loaded) /\
    (keypoints s = [] -> ok = false) /\
    (keypoints s <> [] -> is_Some (reference_image s) ->
     ok = true /\ is_Some (reference_gray loaded)).
Proof.
  apply (save_annotation_reports_image "t0"
           (set_annotation [(100, 100); (300, 100)] ∅ [] new_measurer) ∅).
  discriminate.
Defined.

(** X13.  [delete_annotation] removes the four annotation files and no
    other, clears keypoints, targets, placement box and reference images
    of both sides, but leaves the active side as it was; loading either
    annotation afterwards fails and changes nothing. *)
Theorem delete_annotation_clears (s : measurer) (d : disk) :
  let '(ok, s', d') := delete_annotation s d in
  ok = true /\
  d' !! annotation_file s = None /\ d' !! back_annotation_file s = None /\
  d' !! reference_image_file s = None /\
  d' !! back_reference_image_file s = None /\
  (forall path : string,
     path <> annotation_file s -> path <> back_annotation_file s ->
     path <> reference_image_file s -> path <> back_reference_image_file s ->
     d' !! path = d !! path) /\
  keypoints s' = [] /\ back_keypoints s' = [] /\
  target_distances s' = ∅ /\ back_target_distances s' = ∅ /\
  placement_box s' = [] /\ reference_image s' = None /\
  back_reference_image s' = None /\
  current_side s' = current_side s /\
  load_annotation s' d' = Some (false, s') /\
  load_back_annotation s' d' = Some (false, s').
Proof.
  unfold delete_annotation. cbv zeta.
  set (d' := delete (back_reference_image_file s) _).
  assert (H1 : d' !! annotation_file s = None).
  { unfold d'. rewrite !lookup_delete. repeat case_decide; done. }
  assert (H2 : d' !! back_annotation_file s = None).
  { unfold d'. rewrite !lookup_delete. repeat case_decide; done. }
  assert (H3 : d' !! reference_image_file s = None).
  { unfold d'. rewrite !lookup_delete. repeat case_decide; done. }
  assert (H4 : d' !! back_reference_image_file s = None).
  { unfold d'. rewrite !lookup_delete. repeat case_decide; done. }
  repeat split; try done.
  - intros path Ha Hb Hc Hd. unfold d'.
    by rewrite !lookup_delete_ne by done.
  - unfold load_annotation. cbn [annotation_file]. by rewrite H1.
  - unfold load_back_annotation. cbn [back_annotation_file]. by rewrite H2.
Qed.

(** X14.  A baseline survives a restart: after [check_qc] has stored the
    first measurement [m] of pair [p], loading the active side's
    annotation file in an object that reads the same file yields the
    former targets of that side with [p] set to [m], and the same
    keypoints. *)
Theorem baseline_survives_reload (now : string) (p : Z) (m : R)
    (s loader : measurer) (d : disk)
    (Hpaths : image_paths_apart s)
    (Hfront : annotation_file loader = annotation_file s)
    (Hback : back_annotation_file loader = back_annotation_file s)
    (Hnew : current_target_distances s !! p = None) :
  let '(passed, s', d') := check_qc now p m s d in
  passed = true /\
  match current_side s with
  | Front =>
      exists ok loaded,
        load_annotation loader d' = Some (ok, loaded) /\
        target_distances loaded = <[p := m]> (target_distances s) /\
        keypoints loaded = keypoints s
  | Back =>
      exists ok loaded,
        load_back_annotation loader d' = Some (ok, loaded) /\
        back_target_distances loaded = <[p := m]> (back_target_distances s) /\
        back_keypoints loaded = back_keypoints s
  end.
Proof.
  destruct Hpaths as [Hpf Hpb].
  unfold check_qc. rewrite Hnew. unfold current_target_distances in Hnew.
  destruct (current_side s) eqn:Hside; split; try done.
  - set (s' := set_target_distances _ s).
    rewrite (load_saved_annotation now s' loader).
    2:{ rewrite Hfront. by apply (save_annotation_persists now s' d). }
    change (keypoints s') with (keypoints s).
    change (target_distances s') with (<[p := m]> (target_distances s)).
    destruct (keypoints s) as [|kp kps].
    + eexists _, _. split; [reflexivity|]. done.
    + set (base := set_annotation _ _ _ loader).
      destruct (load_reference_image_fields base
                  (snd (save_annotation now s' d))) as (H1 & H2 & _).
      exists (fst (load_reference_image base
                     (snd (save_annotation now s' d)))),
             (snd (load_reference_image base
                     (snd (save_annotation now s' d)))).
      split; [f_equal; apply surjective_pairing|].
      by rewrite H1, H2.
  - set (s' := set_back_target_distances _ s).
    rewrite (load_saved_back_annotation now s' loader).
    2:{ rewrite Hback. by apply (save_back_annotation_persists now s' d). }
    change (back_keypoints s') with (back_keypoints s).
    change (back_target_distances s')
      with (<[p := m]> (back_target_distances s)).
    destruct (back_keypoints s) as [|kp kps].
    + eexists _, _. split; [reflexivity|]. done.
    + set (base := set_back_annotation _ _ loader).
      destruct (load_back_reference_image_fields base
                  (snd (save_back_annotation now s' d))) as (H1 & H2 & _).
      exists (fst (load_back_reference_image base
                     (snd (save_back_annotation now s' d)))),
             (snd (load_back_reference_image base
                     (snd (save_back_annotation now s' d)))).
      split; [f_equal; apply surjective_pairing|].
      by rewrite H1, H2.
Qed.

(** X14 for the first measurement of pair 1 on the front side. *)
Lemma baseline_survives_reload_witness :
  let s := set_annotation [(100, 100); (300, 100)] ∅ [] new_measurer in
  let '(passed, s', d') := check_qc "t0" 1 20 s ∅ in
  passed = true /\
  match current_side s with
  | Front =>
      exists ok loaded,
        load_annotation new_measurer d' = Some (ok, loaded) /\
        target_distances loaded = <[1%Z := 20]> (target_distances s) /\
        keypoints loaded = keypoints s
  | Back =>
      exists ok loaded,
        load_back_annotation new_measurer d' = Some (ok, loaded) /\
        back_target_distances loaded
        = <[1%Z := 20]> (back_target_distances s) /\
        back_keypoints loaded = back_keypoints s
  end.
Proof.
  apply (baseline_survives_reload "t0" 1 20
           (set_annotation [(100, 100); (300, 100)] ∅ [] new_measurer)
           new_measurer ∅).
  - split; discriminate.
  - reflexivity.
  - reflexivity.
  - apply lookup_empty.
Defined.

(** ** Calibration files *)

(** X15.  A calibration saved by [save_calibration] and loaded by
    [load_calibration] from the same file comes back with the same scale,
    reference length and flag, whatever the loading object held before,
    and the call returns the flag. *)
Theorem save_then_load_calibration (now : string) (c : calibration_state)
    (before : calibration) (length_before : R) (d : disk) :
  load_calibration
    (CalibrationState before length_before (calibration_file c))
    (snd (save_calibration now c d))
  = Some (is_calibrated (calibration_of c), c).
Proof.
  unfold load_calibration, save_calibration. cbn [snd calibration_file].
  rewrite lookup_insert_eq. unfold calibration_data.
  cbn [Json.get String.eqb Ascii.eqb Bool.eqb Json.to_number to_bool
       mbind option_bind].
  by destruct c as [[flag ppcm] len file].
Qed.

(** X16.  [delete_calibration] succeeds exactly when the calibration file
    exists; it then removes that file and no other and leaves the object
    uncalibrated with a scale of 0.  Without a file nothing changes.  In
    both cases a later [load_calibration] fails and changes nothing. *)
Theorem delete_calibration_uncalibrates (c : calibration_state) (d : disk) :
  let '(ok, c', d') := delete_calibration c d in
  (ok = true <-> is_Some (d !! calibration_file c)) /\
  (ok = true ->
   calibration_of c' = Calibration false 0 /\ reference_length_cm c' = 0) /\
  (ok = false -> c' = c /\ d' = d) /\
  calibration_file c' = calibration_file c /\
  d' !! calibration_file c = None /\
  (forall path : string,
     path <> calibration_file c -> d' !! path = d !! path) /\
  load_calibration c' d' = Some (false, c').
Proof.
  unfold delete_calibration.
  destruct (d !! calibration_file c) as [f|] eqn:Hfile.
  - assert (Hgone : delete (calibration_file c) d !! calibration_file c
                    = None) by apply lookup_delete_eq.
    split_and!; try done.
    + intros path Hpath. by apply lookup_delete_ne.
    + unfold load_calibration. cbn [calibration_file]. by rewrite Hgone.
  - assert (Hload : load_calibration c d = Some (false, c))
      by (unfold load_calibration; by rewrite Hfile).
    split_and!; try done.
Qed.

(** ** Switching sides *)

Lemma stabilize_keypoints_fresh (new : list point) :
  stabilize_keypoints new (Tracking [] 0 false) = (new, Tracking new 0 false).
Proof. reflexivity. Qed.

(** X17.  [switch_to_back_side] succeeds exactly when there are back
    keypoints and a back reference image; [switch_to_front_side] likewise
    for the front.  A refused switch changes nothing.  A successful one
    selects the side, forgets the transferred keypoints and the
    stabilisation memory, and keeps keypoints and targets of both sides;
    the first candidate set after it is returned unfiltered and is not
    counted as a stable frame. *)
Theorem switching_sides_resets_tracking (x : session) :
  (let '(ok, x') := switch_to_back_side x in
   (ok = true <->
    back_keypoints (obj x) <> [] /\ is_Some (back_reference_image (obj x))) /\
   (ok = false -> x' = x) /\
   (ok = true ->
    current_side (obj x') = Back /\
    transferred_keypoints x' = [] /\ is_keypoints_transferred x' = false /\
    keypoints (obj x') = keypoints (obj x) /\
    back_keypoints (obj x') = back_keypoints (obj x) /\
    target_distances (obj x') = target_distances (obj x) /\
    back_target_distances (obj x') = back_target_distances (obj x) /\
    forall new, stabilize_keypoints new (track x')
                = (new, Tracking new 0 false))) /\
  (let '(ok, x') := switch_to_front_side x in
   (ok = true <->
    keypoints (obj x) <> [] /\ is_Some (reference_image (obj x))) /\
   (ok = false -> x' = x) /\
   (ok = true ->
    current_side (obj x') = Front /\
    transferred_keypoints x' = [] /\ is_keypoints_transferred x' = false /\
    keypoints (obj x') = keypoints (obj x) /\
    back_keypoints (obj x') = back_keypoints (obj x) /\
    target_distances (obj x') = target_distances (obj x) /\
    back_target_distances (obj x') = back_target_distances (obj x) /\
    forall new, stabilize_keypoints new (track x')
                = (new, Tracking new 0 false))).
Proof.
  split.
  - unfold switch_to_back_side.
    destruct (back_keypoints (obj x)) as [|kp kps] eqn:Hkps;
      [|destruct (back_reference_image (obj x)) as [img|] eqn:Himg];
      split_and!; try done;
      try (split; [intros _; split; [done|by eexists]|done]);
      try (split; [done|by intros [? _]]);
      try (split; [done|by intros [_ [? ?]]]);
      intros _; cbn; rewrite ?Hkps; split_and!; done.
  - unfold switch_to_front_side.
    destruct (keypoints (obj x)) as [|kp kps] eqn:Hkps;
      [|destruct (reference_image (obj x)) as [img|] eqn:Himg];
      split_and!; try done;
      try (split; [intros _; split; [done|by eexists]|done]);
      try (split; [done|by intros [? _]]);
      try (split; [done|by intros [_ [? ?]]]);
      intros _; cbn; rewrite ?Hkps; split_and!; done.
Qed.

(** ** Geometric transfer: what the transfers can return *)

(** The sums of the inner loop of [transfer_with_mls] over destinations
    whose coordinates are not negative: the total weight is positive and
    the weighted sums are not negative. *)
Lemma mls_accumulate_not_negative (ref_point : point)
    (src_dst : list (point * point)) :
  src_dst <> [] ->
  Forall (fun sd : point * point =>
            0 <= fst (snd sd) /\ 0 <= snd (snd sd)) src_dst ->
  exists tw wx wy,
    mls_accumulate ref_point src_dst = (tw, wx, wy) /\
    0 < tw /\ 0 <= wx /\ 0 <= wy.
Proof.
  intros Hne Hall. unfold mls_accumulate.
  assert (Hgen : forall tw0 wx0 wy0,
    0 <= tw0 -> 0 <= wx0 -> 0 <= wy0 ->
    exists tw wx wy,
      foldl (mls_step ref_point) (tw0, wx0, wy0) src_dst = (tw, wx, wy) /\
      tw0 <= tw /\ (src_dst <> [] -> tw0 < tw) /\ 0 <= wx /\ 0 <= wy).
  { clear Hne.
    induction Hall as [|[src dst] l [Hx Hy] _ IH]; intros tw0 wx0 wy0 H0 Hwx Hwy.
    - exists tw0, wx0, wy0.
      split; [reflexivity|]. split; [lra|]. split; [done|].
      split; [exact Hwx|exact Hwy].
    - cbn [fst snd] in Hx, Hy. cbn [foldl mls_step].
      pose proof (mls_weight_pos ref_point src) as Hw.
      destruct (IH (tw0 + mls_weight ref_point src)
                  (wx0 + mls_weight ref_point src * fst dst)
                  (wy0 + mls_weight ref_point src * snd dst))
        as (tw & wx & wy & Heq & Hle & _ & Hbx & Hby); [lra|nra|nra|].
      exists tw, wx, wy.
      split; [exact Heq|]. split; [lra|]. split; [intros _; lra|].
      split; [exact Hbx|exact Hby]. }
  destruct (Hgen 0 0 0) as (tw & wx & wy & Heq & _ & Hpos & Hbx & Hby);
    [lra..|].
  exists tw, wx, wy.
  split; [exact Heq|]. split; [by apply Hpos|]. split; [exact Hbx|exact Hby].
Qed.

(** X18.  [transfer_with_mls] with at least four matches whose indices
    exist and whose destination points have coordinates that are not
    negative (as positions in an image have) returns one position per
    keypoint of the active side, and no coordinate of a position is
    negative: a position it returns is never taken for the sentinel
    [(-1, -1)] of a lost keypoint. *)
Theorem mls_positions_are_not_negative (s : measurer)
    (ref_kp curr_kp : list point) (matches : list dmatch)
    (src_pts dst_pts : list point)
    (Hfour : (4 <= length matches)%nat)
    (Hsrc : matched_points ref_kp queryIdx matches = Some src_pts)
    (Hdst : matched_points curr_kp trainIdx matches = Some dst_pts)
    (Hpos : Forall (fun q : point => 0 <= fst q /\ 0 <= snd q) dst_pts) :
  exists pts,
    transfer_with_mls s ref_kp curr_kp matches = (None, pts) /\
    length pts = length (current_keypoints s) /\
    Forall (fun p : point =>
              0 <= fst p /\ 0 <= snd p /\
              tracking_failed p = false) pts.
Proof.
  unfold transfer_with_mls.
  destruct (length matches <? 4)%nat eqn:Hlt;
    [apply Nat.ltb_lt in Hlt; lia|].
  rewrite Hsrc, Hdst. eexists. split; [reflexivity|].
  split; [by rewrite length_fmap|].
  apply Forall_fmap, Forall_forall. intros kp _. cbn [compose].
  unfold matched_points in Hsrc, Hdst.
  apply mapM_Some_1, Forall2_length in Hsrc, Hdst.
  assert (Hzip : zip src_pts dst_pts <> []).
  { destruct src_pts, dst_pts; cbn in *; try lia. discriminate. }
  assert (Hin : Forall (fun sd : point * point =>
            0 <= fst (snd sd) /\ 0 <= snd (snd sd))
            (zip src_pts dst_pts)).
  { clear -Hpos. revert src_pts.
    induction Hpos as [|q l Hq _ IH]; intros [|src src_pts];
      try constructor; [exact Hq|apply IH]. }
  destruct (mls_accumulate_not_negative kp _ Hzip Hin)
    as (tw & wx & wy & Heq & Htw & Hwx & Hwy).
  unfold mls_point. rewrite Heq.
  rewrite bool_decide_eq_true_2 by lra. cbn [fst snd].
  assert (Hinv : 0 < / tw) by (by apply Rinv_0_lt_compat).
  assert (Hx : 0 <= wx / tw) by (unfold Rdiv; nra).
  assert (Hy : 0 <= wy / tw) by (unfold Rdiv; nra).
  split; [exact Hx|]. split; [exact Hy|].
  unfold tracking_failed. cbn [fst snd].
  by rewrite !bool_decide_eq_false_2 by lra.
Qed.

(** X18 for four copies of a match that leads to [(5, 5)]. *)
Lemma mls_positions_are_not_negative_witness :
  let s := set_annotation [(1, 2); (3, 4)] ∅ [] new_measurer in
  exists pts,
    transfer_with_mls s [(0, 0)] [(5, 5)] (replicate 4 (DMatch 0 0 0))
    = (None, pts) /\
    length pts = length (current_keypoints s) /\
    Forall (fun p : point =>
              0 <= fst p /\ 0 <= snd p /\
              tracking_failed p = false) pts.
Proof.
  apply (mls_positions_are_not_negative
           (set_annotation [(1, 2); (3, 4)] ∅ [] new_measurer)
           [(0, 0)] [(5, 5)] (replicate 4 (DMatch 0 0 0))
           (replicate 4 (0, 0)) (replicate 4 (5, 5))).
  - cbn. lia.
  - reflexivity.
  - reflexivity.
  - repeat constructor; cbn; lra.
Defined.

(** ** Direct placement: how far a keypoint can move *)

(** One round of the refiner stays near the annotation, whatever
    [cv2.matchTemplate] answers. *)
Lemma refine_keypoint_near
    (match_template : tm_method -> image -> image -> option (R * (Z * Z)))
    (current_gray reference_gray : image) (kp : point) :
  near_annotation kp
    (refine_keypoint match_template current_gray reference_gray kp).
Proof.
  assert (Hraw : near_annotation kp
                   (IZR (Py.int (fst kp)), IZR (Py.int (snd kp)))).
  { exists (Py.int (fst kp)), (Py.int (snd kp)).
    split; [reflexivity|]. rewrite !Z.sub_diag. cbn. lia. }
  unfold refine_keypoint. cbv zeta.
  destruct (_ || _ || _ || _)%Z; [exact Hraw|].
  destruct (_ || _)%Z; [exact Hraw|].
  destruct (_ || _)%Z; [exact Hraw|].
  destruct (match_template _ _ _) as [[max_val max_loc]|]; [|exact Hraw].
  destruct (bool_decide _); [|exact Hraw].
  destruct (_ && _)%Z eqn:Hclose; [|exact Hraw].
  apply andb_true_iff in Hclose as [Hdx Hdy].
  apply Z.ltb_lt in Hdx, Hdy.
  eexists _, _. split; [reflexivity|]. split; assumption.
Qed.

(** What holds of every candidate and of every remembered position holds
    of every position that [stabilize_keypoints] returns. *)
Lemma stabilize_keypoints_preserves (P : nat -> point -> Prop)
    (new : list point) (t : tracking) :
  (forall i p, new !! i = Some p -> P i p) ->
  (forall i p, last_valid_keypoints t !! i = Some p -> P i p) ->
  forall i p, fst (stabilize_keypoints new t) !! i = Some p -> P i p.
Proof.
  intros Hnew Hlast. unfold stabilize_keypoints.
  destruct (_ || _); [exact Hnew|].
  unfold enumerate. set (rounds := _ <$> enumerate_from 0 _).
  assert (Hrounds : forall i p, (fst <$> rounds) !! i = Some p -> P i p).
  { intros i p. rewrite list_lookup_fmap. unfold rounds.
    rewrite rounds_lookup.
    destruct (new !! i) as [n|] eqn:Hn; [|done].
    destruct (last_valid_keypoints t !! i) as [l|] eqn:Hl; [|done].
    cbn [fmap option_fmap option_map].
    destruct (stabilize_point_choice (last_valid_keypoints t) new
                (0 + i) n l) as [-> | ->]; intros [= <-]; auto. }
  by destruct (_ =? _)%nat.
Qed.

(** [stabilize_keypoints] returns one position per candidate. *)
Lemma stabilize_keypoints_shape_length (new : list point) (t : tracking) :
  length (fst (stabilize_keypoints new t)) = length new.
Proof.
  unfold stabilize_keypoints.
  destruct (bool_decide (last_valid_keypoints t = [])); [done|].
  destruct (length (last_valid_keypoints t) =? length new)%nat eqn:Hlen;
    [|done].
  apply Nat.eqb_eq in Hlen. cbn [orb negb]. unfold enumerate.
  assert (Hl : length (fst <$> ((fun '(i, (n, l)) =>
              stabilize_point (last_valid_keypoints t) new i n l)
              <$> enumerate_from 0 (zip new (last_valid_keypoints t))))
            = length new).
  { rewrite length_fmap. by apply rounds_length. }
  by destruct (_ =? _)%nat.
Qed.

(** What [stabilize_keypoints] remembers is what it returns. *)
Lemma stabilize_keypoints_remembers (new : list point) (t : tracking) :
  last_valid_keypoints (snd (stabilize_keypoints new t))
  = fst (stabilize_keypoints new t).
Proof.
  unfold stabilize_keypoints.
  destruct (_ || _); [done|]. by destruct (_ =? _)%nat.
Qed.

(** X19.  Direct placement never strays from the annotation.  If every
    remembered position is a whole-pixel position less than 60 pixels
    from its truncated annotation on each axis (as it is when nothing is
    remembered yet), then whatever the live frame shows and whatever
    [cv2.matchTemplate] answers, [_direct_placement_with_refinement]
    returns one such position per keypoint, and remembers only such
    positions, so that the bound holds on every later frame as well. *)
Theorem direct_placement_stays_near_annotation
    (match_template : tm_method -> image -> image -> option (R * (Z * Z)))
    (current_gray reference_gray : image) (keypoints : list point)
    (t : tracking)
    (Hmemory : forall i kp p, keypoints !! i = Some kp ->
       last_valid_keypoints t !! i = Some p -> near_annotation kp p) :
  let '(out, t') :=
    direct_placement_with_refinement match_template current_gray
      reference_gray keypoints t in
  length out = length keypoints /\
  (forall i kp p, keypoints !! i = Some kp -> out !! i = Some p ->
     near_annotation kp p) /\
  (forall i kp p, keypoints !! i = Some kp ->
     last_valid_keypoints t' !! i = Some p -> near_annotation kp p).
Proof.
  unfold direct_placement_with_refinement.
  set (new := refine_keypoint match_template current_gray reference_gray
              <$> keypoints).
  pose proof (stabilize_keypoints_remembers new t) as Hrem.
  pose proof (stabilize_keypoints_shape_length new t) as Hlen.
  pose proof (stabilize_keypoints_preserves
    (fun i p => forall kp, keypoints !! i = Some kp -> near_annotation kp p)
    new t) as Hinv.
  destruct (stabilize_keypoints new t) as [out t'].
  cbn [fst snd] in Hrem, Hlen, Hinv.
  assert (Hout : forall i kp p, keypoints !! i = Some kp ->
            out !! i = Some p -> near_annotation kp p).
  { intros i kp p Hkp Hp. eapply Hinv; [| |exact Hp|exact Hkp].
    - intros j q. unfold new. rewrite list_lookup_fmap.
      intros Hq kp' Hkp'. rewrite Hkp' in Hq. injection Hq as <-.
      apply refine_keypoint_near.
    - intros j q Hq kp' Hkp'. by eapply Hmemory. }
  split; [by rewrite Hlen; unfold new; rewrite length_fmap|].
  split; [exact Hout|]. by rewrite Hrem.
Qed.

(** X19 on the first frame, with nothing remembered, for two keypoints of
    which the matcher moves the first by [(30, 30)]. *)
Lemma direct_placement_stays_near_annotation_witness :
  let match_template :=
    fun (_ : tm_method) (_ _ : image) => Some (0.9, (80, 80)%Z) in
  let frame := Image 1000 1000 (fun _ _ => 0%Z) in
  let keypoints : list point := [(500, 500); (0, 20)] in
  let '(out, t') :=
    direct_placement_with_refinement match_template frame frame keypoints
      (Tracking [] 0 false) in
  length out = length keypoints /\
  (forall i kp p, keypoints !! i = Some kp -> out !! i = Some p ->
     near_annotation kp p) /\
  (forall i kp p, keypoints !! i = Some kp ->
     last_valid_keypoints t' !! i = Some p -> near_annotation kp p).
Proof.
  apply (direct_placement_stays_near_annotation
           (fun (_ : tm_method) (_ _ : image) => Some (0.9, (80, 80)%Z))
           (Image 1000 1000 (fun _ _ => 0%Z))
           (Image 1000 1000 (fun _ _ => 0%Z))
           [(500, 500); (0, 20)] (Tracking [] 0 false)).
  intros i kp p _ Hp. by destruct i.
Defined.

(** ** Template matching: where a match can lie *)

(** A matcher that answers with the top-left place whenever the template
    fits the search region, as one that meets OpenCV's guarantee. *)
Lemma top_left_places_within_result :
  places_within_result
    (fun (_ : tm_method) (search_region template : image) =>
       if ((shape_w template <=? shape_w search_region)
           && (shape_h template <=? shape_h search_region))%Z
       then Some (0.9, (0, 0)%Z) else None).
Proof.
  intros method search_region template max_val max_loc.
  destruct (_ && _)%Z eqn:Hfit; [|discriminate].
  apply andb_true_iff in Hfit as [Hw Hh]. apply Z.leb_le in Hw, Hh.
  intros [= <- <-]. cbn [fst snd]. lia.
Qed.

(** X20.  [template_match_keypoints] returns nothing without a reference
    image of the active side, and otherwise one position per keypoint;
    given that [cv2.matchTemplate] reports a place of its result array,
    each position is the sentinel [(-1, -1)] or lies in the window that
    was searched for its keypoint. *)
Theorem template_matches_stay_in_window
    (match_template : tm_method -> image -> image -> option (R * (Z * Z)))
    (s : measurer) (current_gray : image) (scale_factor : R)
    (Hcv : places_within_result match_template) :
  let out := template_match_keypoints match_template s current_gray
               scale_factor in
  (current_reference_gray s = None -> out = []) /\
  (is_Some (current_reference_gray s) ->
   length out = length (current_keypoints s)) /\
  (forall i kp p, current_keypoints s !! i = Some kp -> out !! i = Some p ->
     p = sentinel \/
     in_window
       (search_window template_roi_size 2.0 current_gray scale_factor kp) p).
Proof.
  cbv zeta. unfold template_match_keypoints.
  destruct (current_reference_gray s) as [reference_gray|].
  - destruct (current_keypoints s) as [|kp0 kps] eqn:Hkps.
    + split; [done|]. split; [done|]. intros i kp p Hkp. by destruct i.
    + split; [done|]. split; [intros _; by rewrite length_fmap|].
      intros i kp p Hkp. rewrite list_lookup_fmap, Hkp.
      intros [= <-].
      by apply template_match_keypoint_in_window.
  - split; [done|]. split; [by intros [? ?]|].
    intros i kp p _ Hp. by destruct i.
Qed.

(** X20 for two front keypoints on a 1000x1000 reference. *)
Lemma template_matches_stay_in_window_witness :
  let match_template :=
    fun (_ : tm_method) (search_region template : image) =>
      if ((shape_w template <=? shape_w search_region)
          && (shape_h template <=? shape_h search_region))%Z
      then Some (0.9, (0, 0)%Z) else None in
  let frame := Image 1000 1000 (fun _ _ => 0%Z) in
  let s := set_reference (Some frame) (Some frame)
             (set_annotation [(500, 500); (3, 3)] ∅ [] new_measurer) in
  let out := template_match_keypoints match_template s frame 1 in
  (current_reference_gray s = None -> out = []) /\
  (is_Some (current_reference_gray s) ->
   length out = length (current_keypoints s)) /\
  (forall i kp p, current_keypoints s !! i = Some kp -> out !! i = Some p ->
     p = sentinel \/
     in_window (search_window template_roi_size 2.0 frame 1 kp) p).
Proof.
  exact (template_matches_stay_in_window _
           (set_reference (Some (Image 1000 1000 (fun _ _ => 0%Z)))
              (Some (Image 1000 1000 (fun _ _ => 0%Z)))
              (set_annotation [(500, 500); (3, 3)] ∅ [] new_measurer))
           (Image 1000 1000 (fun _ _ => 0%Z)) 1
           top_left_places_within_result).
Defined.

(** The place kept by the loop over the two methods is a place of the
    result array. *)
Lemma best_match_place
    (match_template : tm_method -> image -> image -> option (R * (Z * Z)))
    (search_region template : image) (val : R) (loc : Z * Z) :
  places_within_result match_template ->
  (shape_w template <= shape_w search_region)%Z ->
  (shape_h template <= shape_h search_region)%Z ->
  best_match match_template search_region template = Some (val, loc) ->
  (0 <= fst loc <= shape_w search_region - shape_w template)%Z /\
  (0 <= snd loc <= shape_h search_region - shape_h template)%Z.
Proof.
  intros Hcv Hw Hh. unfold best_match. cbn [foldl mbind option_bind].
  destruct (match_template TM_CCOEFF_NORMED _ _) as [[v1 l1]|] eqn:H1;
    [|discriminate].
  apply Hcv in H1.
  assert (H0 : (0 <= fst (0, 0)%Z <= shape_w search_region - shape_w template)%Z
               /\ (0 <= snd (0, 0)%Z
                   <= shape_h search_region - shape_h template)%Z)
    by (cbn [fst snd]; lia).
  cbn [mbind option_bind].
  case_bool_decide; cbn [mbind option_bind];
    (destruct (match_template TM_CCORR_NORMED _ _) as [[v2 l2]|] eqn:H2;
       [|discriminate]);
    apply Hcv in H2; cbn [mbind option_bind];
    case_bool_decide; intros [= <- <-]; assumption.
Qed.

(** X21.  Given that [cv2.matchTemplate] reports a place of its result
    array, a position returned by the corner matcher is the sentinel
    [(-1, -1)], or its column lies between the columns [sx1] and [sx2] of
    the window searched while its row lies between [sx1] and
    [sx1 + (sy2 - sy1)]: the row range of the window moved to start at
    the window's first column.  So the position is inside the window
    whenever the window starts at the same column and row. *)
Theorem corner_match_row_starts_at_column_origin
    (match_template : tm_method -> image -> image -> option (R * (Z * Z)))
    (current_gray reference_gray : image) (scale_factor : R)
    (keypoint : point)
    (Hcv : places_within_result match_template) :
  let p := template_match_corner match_template current_gray reference_gray
             scale_factor keypoint in
  let '(sx1, sx2, sy1, sy2) :=
    search_window corner_template_size 2.5 current_gray scale_factor
      keypoint in
  p = sentinel \/
  (IZR sx1 <= fst p <= IZR sx2 /\
   IZR sx1 <= snd p <= IZR (sx1 + (sy2 - sy1)) /\
   (sx1 = sy1 ->
    in_window (search_window corner_template_size 2.5 current_gray
                 scale_factor keypoint) p)).
Proof.
  cbv zeta. unfold template_match_corner, search_window.
  set (x := Py.int (fst keypoint)). set (y := Py.int (snd keypoint)).
  set (size := Py.int (corner_template_size * scale_factor)).
  set (half := Py.int (IZR size * (2.5 * scale_factor))).
  set (ex := Py.int (IZR x * scale_factor)).
  set (ey := Py.int (IZR y * scale_factor)).
  destruct (_ || _)%Z; [by left|].
  destruct (_ || _)%Z eqn:Hfit; [by left|].
  apply orb_false_iff in Hfit as [Hw Hh].
  apply Z.ltb_ge in Hw, Hh.
  destruct (best_match _ _ _) as [[best_val best_loc]|] eqn:Hcall;
    [|by left].
  destruct (bool_decide _); [|by left].
  right. apply best_match_place in Hcall as [Hlx Hly];
    [|exact Hcv|cbn [slice shape_w shape_h] in *; lia..].
  cbn [slice shape_w shape_h] in Hlx, Hly, Hw, Hh |- *.
  unfold in_window. cbn [fst snd].
  set (tw := Z.max 0 (Z.min (shape_w reference_gray) _ - _)) in *.
  set (th := Z.max 0 (Z.min (shape_h reference_gray) _ - _)) in *.
  assert (0 <= tw / 2 <= tw)%Z.
  { split; [apply Z.div_pos; lia|]. apply Z.div_le_upper_bound; lia. }
  assert (0 <= th / 2 <= th)%Z.
  { split; [apply Z.div_pos; lia|]. apply Z.div_le_upper_bound; lia. }
  split; [split; apply IZR_le; lia|].
  split; [split; apply IZR_le; lia|].
  intros Heq. repeat split; apply IZR_le; lia.
Qed.

(** X21 for the corner annotated at [(1500, 300)] on a 2000x1500 frame. *)
Lemma corner_match_row_starts_at_column_origin_witness :
  let match_template :=
    fun (_ : tm_method) (search_region template : image) =>
      if ((shape_w template <=? shape_w search_region)
          && (shape_h template <=? shape_h search_region))%Z
      then Some (0.9, (0, 0)%Z) else None in
  let live := Image 1500 2000 (fun _ _ => 0%Z) in
  let reference := Image 2000 2000 (fun _ _ => 0%Z) in
  let p := template_match_corner match_template live reference 1
             (1500, 300) in
  let '(sx1, sx2, sy1, sy2) :=
    search_window corner_template_size 2.5 live 1 (1500, 300) in
  p = sentinel \/
  (IZR sx1 <= fst p <= IZR sx2 /\
   IZR sx1 <= snd p <= IZR (sx1 + (sy2 - sy1)) /\
   (sx1 = sy1 ->
    in_window (search_window corner_template_size 2.5 live 1 (1500, 300))
      p)).
Proof.
  exact (corner_match_row_starts_at_column_origin _
           (Image 1500 2000 (fun _ _ => 0%Z))
           (Image 2000 2000 (fun _ _ => 0%Z)) 1 (1500, 300)
           top_left_places_within_result).
Defined.

(** ** Feature-based positions: which transfer is used *)

(** X22.  The feature-based positions of [transfer_keypoints_robust],
    when every match index exists in the feature lists: there is one
    position per keypoint of the active side; with fewer than 15 good
    matches every position is the sentinel [(-1, -1)], so that a position
    whose first coordinate is not -1 tells of at least 15 matches; and
    with fewer than 20 good matches neither [cv2.findHomography] nor the
    configured transfer method has any influence on the positions. *)
Theorem feature_points_by_match_count
    (find_homography : list point -> list point -> option matrix3)
    (transfer_method : method) (s : measurer) (ref_kp curr_kp : list point)
    (matches : list dmatch)
    (Hsrc : is_Some (matched_points ref_kp queryIdx matches))
    (Hdst : is_Some (matched_points curr_kp trainIdx matches)) :
  let out := feature_points find_homography transfer_method s ref_kp
               curr_kp matches in
  length out = length (current_keypoints s) /\
  ((length matches < 15)%nat ->
   out = replicate (length (current_keypoints s)) sentinel) /\
  (forall p, p ∈ out -> fst p <> -1 -> (15 <= length matches)%nat) /\
  ((length matches < 20)%nat ->
   forall find_homography' transfer_method',
     feature_points find_homography' transfer_method' s ref_kp curr_kp
       matches = out).
Proof.
  destruct Hsrc as [src_pts Hsrc], Hdst as [dst_pts Hdst]. cbv zeta.
  assert (Hmls : (4 <= length matches)%nat ->
    length (snd (transfer_with_mls s ref_kp curr_kp matches))
    = length (current_keypoints s)).
  { intros H4. unfold transfer_with_mls.
    destruct (length matches <? 4)%nat eqn:Hlt;
      [apply Nat.ltb_lt in Hlt; lia|].
    rewrite Hsrc, Hdst. cbn [snd]. by rewrite length_fmap. }
  assert (Hhom : forall pts,
    snd (transfer_with_homography find_homography s ref_kp curr_kp matches)
    = pts -> pts = [] \/ length pts = length (current_keypoints s)).
  { intros pts <-. unfold transfer_with_homography.
    destruct (_ <? _)%nat; [by left|].
    rewrite Hsrc, Hdst.
    destruct (find_homography _ _) as [H|]; [|by left].
    destruct (_ && _); [|by left].
    right. cbn [snd]. by rewrite length_fmap. }
  unfold feature_points, min_matches.
  destruct (15 <=? length matches)%nat eqn:H15.
  - apply Nat.leb_le in H15.
    split; [|split; [intros; lia|split; [intros; lia|]]].
    + destruct (_ && _).
      * destruct (transfer_with_homography _ _ _ _ _) as [H pts] eqn:Hcall.
        assert (Hpts : pts = [] \/ length pts = length (current_keypoints s))
          by (apply Hhom; reflexivity).
        destruct Hpts as [-> | Hlen]; [apply Hmls; lia|].
        destruct pts; [apply Hmls; lia|exact Hlen].
      * apply Hmls; lia.
    + intros H20 find_homography' transfer_method'.
      destruct (20 <=? length matches)%nat eqn:Hge;
        [apply Nat.leb_le in Hge; lia|]. reflexivity.
  - apply Nat.leb_gt in H15.
    split; [by rewrite length_replicate|]. split; [done|].
    split; [|done].
    intros p Hp Hx. apply elem_of_replicate in Hp as [-> _].
    cbn in Hx. lra.
Qed.

(** X22 for fifteen copies of a match that leads to [(5, 5)]. *)
Lemma feature_points_by_match_count_witness :
  let s := set_annotation [(1, 2); (3, 4)] ∅ [] new_measurer in
  let matches := replicate 15 (DMatch 0 0 0) in
  let out := feature_points (fun _ _ => None) Auto s [(0, 0)] [(5, 5)]
               matches in
  length out = length (current_keypoints s) /\
  ((length matches < 15)%nat ->
   out = replicate (length (current_keypoints s)) sentinel) /\
  (forall p, p ∈ out -> fst p <> -1 -> (15 <= length matches)%nat) /\
  ((length matches < 20)%nat ->
   forall find_homography' transfer_method',
     feature_points find_homography' transfer_method' s [(0, 0)] [(5, 5)]
       matches = out).
Proof.
  apply (feature_points_by_match_count (fun _ _ => None) Auto
           (set_annotation [(1, 2); (3, 4)] ∅ [] new_measurer)
           [(0, 0)] [(5, 5)] (replicate 15 (DMatch 0 0 0))).
  - by eexists.
  - by eexists.
Defined.

(** ** Zoom and pan of the display *)

(** [int(r)] of a number that is not negative is its floor, and of one
    that is not positive its ceiling. *)
Lemma Py_int_nonneg (r : R) :
  0 <= r -> IZR (Py.int r) <= r < IZR (Py.int r) + 1 /\ (0 <= Py.int r)%Z.
Proof.
  intros Hr. unfold Py.int.
  destruct (Rle_dec 0 r) as [_|Hneg]; [|contradiction].
  destruct (base_Int_part r) as [Hlo Hhi].
  split; [lra|]. apply Z.lt_succ_r, lt_IZR.
  rewrite succ_IZR. lra.
Qed.

Lemma Py_int_nonpos (r : R) :
  r <= 0 -> r <= IZR (Py.int r) < r + 1 /\ (Py.int r <= 0)%Z.
Proof.
  intros Hr. unfold Py.int.
  destruct (Rle_dec 0 r) as [Hpos|Hneg].
  - assert (r = 0) as -> by lra.
    assert (Int_part 0 = 0%Z) as ->.
    { symmetry. apply Int_part_spec. lra. }
    split; [lra|lia].
  - destruct (base_Int_part (- r)) as [Hlo Hhi].
    rewrite opp_IZR. split; [lra|].
    assert (0 <= Int_part (- r))%Z; [|lia].
    apply Z.lt_succ_r, lt_IZR. rewrite succ_IZR. lra.
Qed.

(** A quantity divided by a zoom factor above 1. *)
Lemma zoomed_size_bounds (a f : R) : 0 <= a -> f > 1 -> 0 <= a / f <= a.
Proof.
  intros Ha Hf.
  assert (0 < / f) by (apply Rinv_0_lt_compat; lra).
  assert (/ f < 1).
  { rewrite <- Rinv_1. apply Rinv_lt_contravar; lra. }
  unfold Rdiv. split; nra.
Qed.

(** X23.  The region that [apply_zoom] cuts out for a zoom factor above 1
    lies inside the image, wherever the centre is and however far the
    view was panned; it is as wide as [int(w / zoom_factor)] or one
    column less, and as high as [int(h / zoom_factor)] or one row less.
    The image returned is that region resized, or the image itself. *)
Theorem zoom_region_inside_image (resize : image -> Z -> Z -> image)
    (img : image) (v : view)
    (Hzoom : zoom_factor v > 1)
    (Hh : (0 <= shape_h img)%Z) (Hw : (0 <= shape_w img)%Z) :
  let h := shape_h img in
  let w := shape_w img in
  let '(x1, y1, x2, y2) := zoom_roi h w v in
  (0 <= x1 <= x2)%Z /\ (x2 <= w)%Z /\ (0 <= y1 <= y2)%Z /\ (y2 <= h)%Z /\
  (Py.int (IZR w / zoom_factor v) - 1 <= x2 - x1
   <= Py.int (IZR w / zoom_factor v))%Z /\
  (Py.int (IZR h / zoom_factor v) - 1 <= y2 - y1
   <= Py.int (IZR h / zoom_factor v))%Z /\
  (fst (apply_zoom resize img v) = img \/
   fst (apply_zoom resize img v) = resize (slice img y1 y2 x1 x2) w h).
Proof.
  cbv zeta.
  assert (Hsize : forall n : Z, (0 <= n)%Z ->
            (0 <= Py.int (IZR n / zoom_factor v) <= n)%Z).
  { intros n Hn. apply IZR_le in Hn.
    assert (Hq : 0 <= IZR n / zoom_factor v <= IZR n)
      by (apply zoomed_size_bounds; lra).
    destruct (Py_int_nonneg (IZR n / zoom_factor v)) as [[Hlo _] H0];
      [lra|].
    split; [exact H0|]. apply le_IZR. lra. }
  pose proof (Hsize _ Hw) as Hzw. pose proof (Hsize _ Hh) as Hzh.
  unfold apply_zoom. rewrite bool_decide_eq_false_2 by lra.
  unfold zoom_roi.
  set (zoom_w := Py.int (IZR (shape_w img) / zoom_factor v)) in *.
  set (zoom_h := Py.int (IZR (shape_h img) / zoom_factor v)) in *.
  destruct (default _ (zoom_center v)) as [center_x center_y].
  pose proof (Z.div_mod zoom_w 2 ltac:(lia)) as Hqw.
  pose proof (Z.mod_pos_bound zoom_w 2 ltac:(lia)) as Hrw.
  pose proof (Z.div_mod zoom_h 2 ltac:(lia)) as Hqh.
  pose proof (Z.mod_pos_bound zoom_h 2 ltac:(lia)) as Hrh.
  set (qw := (zoom_w / 2)%Z) in *. set (qh := (zoom_h / 2)%Z) in *.
  split; [lia|]. split; [lia|]. split; [lia|]. split; [lia|].
  split; [lia|]. split; [lia|].
  destruct (_ && _)%Z; [by right|by left].
Qed.

(** X23 for a 1000x1000 image at zoom 2, panned far to the left. *)
Lemma zoom_region_inside_image_witness :
  let img := Image 1000 1000 (fun _ _ => 0%Z) in
  let v := View 2 None (-5000) 0 false 0 0 in
  let '(x1, y1, x2, y2) := zoom_roi 1000 1000 v in
  (0 <= x1 <= x2)%Z /\ (x2 <= 1000)%Z /\ (0 <= y1 <= y2)%Z /\
  (y2 <= 1000)%Z /\
  (Py.int (IZR 1000 / zoom_factor v) - 1 <= x2 - x1
   <= Py.int (IZR 1000 / zoom_factor v))%Z /\
  (Py.int (IZR 1000 / zoom_factor v) - 1 <= y2 - y1
   <= Py.int (IZR 1000 / zoom_factor v))%Z /\
  (fst (apply_zoom (fun roi _ _ => roi) img v) = img \/
   fst (apply_zoom (fun roi _ _ => roi) img v)
   = slice img y1 y2 x1 x2).
Proof.
  apply (zoom_region_inside_image (fun roi _ _ => roi)
           (Image 1000 1000 (fun _ _ => 0%Z))
           (View 2 None (-5000) 0 false 0 0)).
  - cbn. lra.
  - cbn. lia.
  - cbn. lia.
Defined.

(** One event keeps the zoom factor at 1 or above. *)
Lemma live_mouse_callback_zoom (event : mouse_event) (x y flags : Z)
    (v : view) :
  1 <= zoom_factor v ->
  1 <= zoom_factor (live_mouse_callback event x y flags v).
Proof.
  intros H0. destruct event; cbn [live_mouse_callback zoom_factor];
    try exact H0.
  - destruct (0 <? flags)%Z; [lra|apply Rmax_l].
  - destruct (mouse_dragging v); exact H0.
Qed.

(** An event other than a press of the middle button starts no drag, and
    without a drag nothing is panned. *)
Lemma live_mouse_callback_pan (event : mouse_event) (x y flags : Z)
    (v : view) :
  event <> EVENT_MBUTTONDOWN ->
  pan_x v = 0%Z /\ pan_y v = 0%Z /\ mouse_dragging v = false ->
  let v' := live_mouse_callback event x y flags v in
  pan_x v' = 0%Z /\ pan_y v' = 0%Z /\ mouse_dragging v' = false.
Proof.
  intros Hevent (Hx & Hy & Hd). cbv zeta.
  destruct event; cbn [live_mouse_callback pan_x pan_y mouse_dragging];
    try done.
  by rewrite Hd.
Qed.

Lemma mouse_events_zoom (events : list (mouse_event * Z * Z * Z))
    (v : view) :
  1 <= zoom_factor v -> 1 <= zoom_factor (mouse_events events v).
Proof.
  unfold mouse_events. revert v.
  induction events as [|[[[e x] y] flags] events IH]; intros v Hz;
    [exact Hz|].
  cbn [foldl]. by apply IH, live_mouse_callback_zoom.
Qed.

Lemma mouse_events_pan (events : list (mouse_event * Z * Z * Z))
    (v : view) :
  (forall e x y flags, (e, x, y, flags) ∈ events ->
     e <> EVENT_MBUTTONDOWN) ->
  pan_x v = 0%Z /\ pan_y v = 0%Z /\ mouse_dragging v = false ->
  pan_x (mouse_events events v) = 0%Z /\
  pan_y (mouse_events events v) = 0%Z /\
  mouse_dragging (mouse_events events v) = false.
Proof.
  unfold mouse_events. revert v.
  induction events as [|[[[e x] y] flags] events IH]; intros v Hno Hp;
    [exact Hp|].
  cbn [foldl]. apply IH.
  - intros e' x' y' flags' Hin. eapply Hno.
    apply list_elem_of_further, Hin.
  - apply live_mouse_callback_pan; [|exact Hp].
    apply (Hno e x y flags), list_elem_of_here.
Qed.

(** X24.  Whatever mouse events arrive, starting from the fields as
    [__init__] sets them, the zoom factor never falls below 1; and as
    long as the middle button was never pressed, the view is not panned
    and no drag is under way. *)
Theorem mouse_events_keep_zoom (events : list (mouse_event * Z * Z * Z)) :
  let v := mouse_events events new_view in
  1 <= zoom_factor v /\
  ((forall e x y flags, (e, x, y, flags) ∈ events ->
      e <> EVENT_MBUTTONDOWN) ->
   pan_x v = 0%Z /\ pan_y v = 0%Z /\ mouse_dragging v = false).
Proof.
  cbv zeta. split.
  - apply mouse_events_zoom. cbn. lra.
  - intros Hno. by apply mouse_events_pan.
Qed.

(** One axis of the conversion to the zoomed display and back. *)
Lemma zoom_round_trip_axis (f c : R) (o : Z) :
  f > 1 -> 0 <= c <= IZR o ->
  let z := Py.int ((IZR o - c) * f) in
  let o' := Py.int (c + IZR z / f) in
  (o' = o \/ o' = o - 1)%Z.
Proof.
  intros Hf [Hc Ho]. cbv zeta.
  destruct (Py_int_nonneg ((IZR o - c) * f)) as [[Hzlo Hzhi] Hz0];
    [nra|].
  set (z := Py.int ((IZR o - c) * f)) in *.
  apply IZR_le in Hz0.
  set (q := IZR z / f).
  assert (Hq : q * f = IZR z) by (unfold q; field; lra).
  assert (Hq0 : 0 <= q) by (unfold q; apply zoomed_size_bounds; lra).
  destruct (Py_int_nonneg (c + q)) as [[Holo Hohi] _]; [lra|].
  set (o' := Py.int (c + q)) in *.
  assert (Hle : c + q <= IZR o) by nra.
  assert (Hgt : IZR o - 1 < c + q) by nra.
  assert (o' <= o)%Z by (apply le_IZR; lra).
  assert (o - 2 < o')%Z by (apply lt_IZR; rewrite minus_IZR; lra).
  lia.
Qed.

(** X25.  At a zoom factor above 1, a whole-pixel position that is not
    left of or above the corner from which the conversions count comes
    back from [original_to_zoomed_coords] followed by
    [zoomed_to_original_coords] as itself or one pixel less on each
    axis.  The first call fixes the zoom centre, the second leaves the
    fields as they are. *)
Theorem zoom_round_trip_within_a_pixel (v : view) (h w ox oy : Z)
    (Hzoom : zoom_factor v > 1)
    (Hx : fst (conversion_origin h w v) <= IZR ox)
    (Hy : snd (conversion_origin h w v) <= IZR oy) :
  let '(z, v1) := original_to_zoomed_coords (IZR ox) (IZR oy) h w v in
  let '(o, v2) := zoomed_to_original_coords (fst z) (snd z) h w v1 in
  (fst o = ox \/ fst o = ox - 1)%Z /\
  (snd o = oy \/ snd o = oy - 1)%Z /\
  v2 = v1 /\
  v1 = set_zoom_center (Some (default (w / 2, h / 2)%Z (zoom_center v))) v.
Proof.
  unfold original_to_zoomed_coords, zoomed_to_original_coords,
    conversion_origin in *.
  rewrite bool_decide_eq_false_2 by lra.
  destruct (default _ (zoom_center v)) as [center_x center_y] eqn:Hcenter.
  cbn [set_zoom_center zoom_factor zoom_center pan_x pan_y default fst snd]
    in *.
  rewrite bool_decide_eq_false_2 by lra.
  split; [apply zoom_round_trip_axis; [lra|]; split;
            [apply Rmax_l|exact Hx]|].
  split; [apply zoom_round_trip_axis; [lra|]; split;
            [apply Rmax_l|exact Hy]|].
  split; reflexivity.
Qed.

(** X25 for the position (600, 700) of a 1000x1000 image at zoom 2. *)
Lemma zoom_round_trip_within_a_pixel_witness :
  let v := View 2 None 0 0 false 0 0 in
  let '(z, v1) :=
    original_to_zoomed_coords (IZR 600) (IZR 700) 1000 1000 v in
  let '(o, v2) := zoomed_to_original_coords (fst z) (snd z) 1000 1000 v1 in
  (fst o = 600 \/ fst o = 600 - 1)%Z /\
  (snd o = 700 \/ snd o = 700 - 1)%Z /\
  v2 = v1 /\
  v1 = set_zoom_center (Some (default (1000 / 2, 1000 / 2)%Z (zoom_center v)))
         v.
Proof.
  assert (Hfloor : floordiv (IZR 1000 / 2) 2 = 250).
  { unfold floordiv. f_equal. symmetry. apply Int_part_spec. lra. }
  apply (zoom_round_trip_within_a_pixel (View 2 None 0 0 false 0 0)
           1000 1000 600 700).
  - cbn. lra.
  - unfold conversion_origin.
    cbn [default zoom_center pan_x zoom_factor fst].
    change (1000 / 2)%Z with 500%Z. rewrite Hfloor, Z.add_0_r.
    apply Rmax_lub; lra.
  - unfold conversion_origin.
    cbn [default zoom_center pan_y zoom_factor snd].
    change (1000 / 2)%Z with 500%Z. rewrite Hfloor, Z.add_0_r.
    apply Rmax_lub; lra.
Defined.

(** One axis of the conversion of a mouse position to the image and back
    to the display. *)
Lemma zoom_click_axis (f c : R) (z : Z) :
  f > 1 -> 0 <= c -> (0 <= z)%Z ->
  let o := Py.int (c + IZR z / f) in
  let z' := Py.int ((IZR o - c) * f) in
  IZR z - f - 1 < IZR z' <= IZR z.
Proof.
  intros Hf Hc Hz. cbv zeta. apply IZR_le in Hz.
  set (q := IZR z / f).
  assert (Hq : q * f = IZR z) by (unfold q; field; lra).
  assert (Hq0 : 0 <= q) by (unfold q; apply zoomed_size_bounds; lra).
  destruct (Py_int_nonneg (c + q)) as [[Holo Hohi] _]; [lra|].
  set (o := Py.int (c + q)) in *.
  assert (Hhi : (IZR o - c) * f <= IZR z) by nra.
  assert (Hlo : IZR z - f < (IZR o - c) * f) by nra.
  destruct (Rle_dec 0 ((IZR o - c) * f)) as [Hpos|Hneg].
  - destruct (Py_int_nonneg _ Hpos) as [[H1 H2] _]. lra.
  - destruct (Py_int_nonpos ((IZR o - c) * f)) as [[H1 H2] H3]; [lra|].
    apply IZR_le in H3. lra.
Qed.

(** X26.  At a zoom factor above 1, a mouse position (with coordinates
    that are not negative) taken to the image by
    [zoomed_to_original_coords] is drawn by [original_to_zoomed_coords]
    at the mouse position or up to [zoom_factor + 1] pixels before it on
    each axis, never after it. *)
Theorem zoom_click_drawn_before (v : view) (h w zx zy : Z)
    (Hzoom : zoom_factor v > 1)
    (Hx : (0 <= zx)%Z) (Hy : (0 <= zy)%Z) :
  let '(o, v1) := zoomed_to_original_coords zx zy h w v in
  let '(z, v2) :=
    original_to_zoomed_coords (IZR (fst o)) (IZR (snd o)) h w v1 in
  IZR zx - zoom_factor v - 1 < IZR (fst z) <= IZR zx /\
  IZR zy - zoom_factor v - 1 < IZR (snd z) <= IZR zy /\
  v2 = v1.
Proof.
  unfold original_to_zoomed_coords, zoomed_to_original_coords.
  rewrite bool_decide_eq_false_2 by lra.
  destruct (default _ (zoom_center v)) as [center_x center_y] eqn:Hcenter.
  cbn [set_zoom_center zoom_factor zoom_center pan_x pan_y default fst snd].
  rewrite bool_decide_eq_false_2 by lra.
  cbn [fst snd].
  split; [apply zoom_click_axis; [lra|apply Rmax_l|exact Hx]|].
  split; [apply zoom_click_axis; [lra|apply Rmax_l|exact Hy]|].
  reflexivity.
Qed.

(** X26 for a click at (301, 7) on a 1000x1000 image at zoom 3. *)
Lemma zoom_click_drawn_before_witness :
  let v := View 3 (Some (400, 400)%Z) 10 0 false 0 0 in
  let '(o, v1) := zoomed_to_original_coords 301 7 1000 1000 v in
  let '(z, v2) :=
    original_to_zoomed_coords (IZR (fst o)) (IZR (snd o)) 1000 1000 v1 in
  IZR 301 - zoom_factor v - 1 < IZR (fst z) <= IZR 301 /\
  IZR 7 - zoom_factor v - 1 < IZR (snd z) <= IZR 7 /\
  v2 = v1.
Proof.
  apply (zoom_click_drawn_before
           (View 3 (Some (400, 400)%Z) 10 0 false 0 0) 1000 1000 301 7).
  - cbn. lra.
  - lia.
  - lia.
Defined.

(** ** The robust transfer: shape and fallback *)

Section RobustTransferProperties.

Context {descriptor : Type}.
Variable resize : image -> Z -> Z -> option image.
Variable detect_and_compute :
  image -> option (option (list point) * option (list descriptor)).
Variable knn_match :
  list descriptor -> list descriptor -> option (list (list dmatch)).
Variable find_homography : list point -> list point -> option matrix3.
Variable match_template :
  tm_method -> image -> image -> option (R * (Z * Z)).
Variable good_features_to_track : image -> option (list point).
Variable corner_harris : image -> option (R * (Z * Z)).

(** The fused positions, when the [try] block yields them, are one per
    keypoint. *)
Lemma fused_points_length (transfer_method : method) (s : measurer)
    (current_gray current_reference_gray : image) (last : R)
    (fused : list point) (last' : R) :
  fused_points descriptor resize detect_and_compute knn_match
    find_homography match_template good_features_to_track corner_harris
    transfer_method s current_gray current_reference_gray last
  = (Some fused, last') ->
  length fused = length (current_keypoints s).
Proof.
  unfold fused_points.
  destruct (extract_features_fast _ _ _ (Some current_reference_gray))
    as [[ref_kp ref_desc]|]; [|discriminate].
  destruct (extract_features_fast _ _ _ (Some current_gray))
    as [[curr_kp curr_desc]|]; [|discriminate].
  set (matched := match ref_desc with Some _ => _ | None => _ end).
  destruct (match matched with Some _ => _ | None => _ end)
    as [[[feature_pts scale_factor] last0]|]; [|discriminate].
  destruct matched; [|discriminate].
  intros [= Hfused _]. apply length_mapM in Hfused.
  by rewrite <- Hfused, length_seq.
Qed.

(** X27.  [transfer_keypoints_robust] returns nothing, and changes no
    field, when the active side has no reference image or no keypoints or
    when there is no frame; in every other case, whatever OpenCV answers
    and whichever exception ends the feature-based attempt, it returns
    exactly one position per keypoint of the active side. *)
Theorem robust_transfer_one_per_keypoint (transfer_method : method)
    (s : measurer) (current_gray : option image) (st : tracking * R) :
  let result :=
    transfer_keypoints_robust descriptor resize detect_and_compute knn_match
      find_homography match_template good_features_to_track corner_harris
      transfer_method s current_gray st in
  (current_reference_gray s = None \/ current_keypoints s = [] \/
   current_gray = None -> result = ([], st)) /\
  (is_Some (current_reference_gray s) -> is_Some current_gray ->
   length (fst result) = length (current_keypoints s)).
Proof.
  cbv zeta. unfold transfer_keypoints_robust. destruct st as [t last].
  destruct (current_reference_gray s) as [reference_gray|] eqn:Href.
  - destruct (current_keypoints s) as [|kp kps] eqn:Hkps.
    + split; [done|]. done.
    + destruct current_gray as [gray|].
      * split; [intros [?|[?|?]]; discriminate|]. intros _ _.
        destruct (_ && _)%Z.
        -- unfold direct_placement_with_refinement.
           pose proof (stabilize_keypoints_shape_length
             (refine_keypoint match_template gray reference_gray
              <$> kp :: kps) t) as Hlen.
           destruct (stabilize_keypoints _ t) as [points t'].
           cbn [fst] in *. by rewrite Hlen, length_fmap.
        -- destruct (fused_points _ _ _ _ _ _ _ _ _ _ _ _ _)
             as [[fused|] last'] eqn:Hfused.
           ++ apply fused_points_length in Hfused.
              pose proof (stabilize_keypoints_shape_length fused t) as Hlen.
              destruct (stabilize_keypoints fused t) as [points t'].
              cbn [fst] in *. by rewrite Hlen, Hfused, Hkps.
           ++ cbn [fst]. unfold template_match_keypoints.
              rewrite Href, Hkps. by rewrite length_fmap.
      * split; [done|]. by intros _ [? ?].
  - split; [done|]. by intros [? ?].
Qed.

(** X28.  When the reference and the frame differ in size and ORB yields
    no descriptors for one of them (none at all, or an empty array), the
    robust transfer returns the positions of
    [template_match_keypoints(current_gray, 1.0)] as they are: they do
    not pass through [stabilize_keypoints], and neither the stabilisation
    fields nor [last_detected_scale] change.  (The variable [matches] is
    never assigned on this path, and reading it ends the [try] block.) *)
Theorem no_descriptors_fall_back_to_templates (transfer_method : method)
    (s : measurer) (current_gray reference_gray : image)
    (st : tracking * R)
    (ref_kp curr_kp : list point)
    (ref_desc curr_desc : option (list descriptor))
    (Href : current_reference_gray s = Some reference_gray)
    (Hkps : current_keypoints s <> [])
    (Hsize : shape_w reference_gray <> shape_w current_gray \/
             shape_h reference_gray <> shape_h current_gray)
    (Hfref : extract_features_fast descriptor resize detect_and_compute
               (Some reference_gray) = Some (ref_kp, ref_desc))
    (Hfcur : extract_features_fast descriptor resize detect_and_compute
               (Some current_gray) = Some (curr_kp, curr_desc))
    (Hnone : ref_desc = None \/ curr_desc = None \/
             ref_desc = Some [] \/ curr_desc = Some []) :
  transfer_keypoints_robust descriptor resize detect_and_compute knn_match
    find_homography match_template good_features_to_track corner_harris
    transfer_method s (Some current_gray) st
  = (template_match_keypoints match_template s current_gray 1, st).
Proof.
  unfold transfer_keypoints_robust. destruct st as [t last].
  rewrite Href.
  destruct (current_keypoints s) as [|kp kps] eqn:Hk; [done|].
  assert (Hdim : ((shape_w reference_gray =? shape_w current_gray)
                  && (shape_h reference_gray =? shape_h current_gray))%Z
                 = false).
  { apply andb_false_iff.
    destruct Hsize as [Hw|Hh]; [left|right]; by apply Z.eqb_neq. }
  rewrite Hdim.
  assert (Hfused : fused_points descriptor resize detect_and_compute
            knn_match find_homography match_template good_features_to_track
            corner_harris transfer_method s current_gray reference_gray last
          = (None, last)).
  { unfold fused_points. rewrite Hfref, Hfcur.
    assert (Hmatched :
      match ref_desc, curr_desc with
      | Some ref_d, Some curr_d =>
          if (0 <? length ref_d)%nat && (0 <? length curr_d)%nat
          then Some (match_features_fast descriptor knn_match ref_desc
                       curr_desc)
          else None
      | _, _ => None
      end = None).
    { destruct Hnone as [Hn | [Hn | [Hn | Hn]]]; rewrite Hn.
      - reflexivity.
      - by destruct ref_desc.
      - by destruct curr_desc.
      - destruct ref_desc as [ref_d|]; [|reflexivity].
        cbn [length Nat.ltb Nat.leb]. by rewrite andb_false_r. }
    rewrite Hmatched. reflexivity. }
  by rewrite Hfused.
Qed.

End RobustTransferProperties.

(** X28 for a frame without ORB features. *)
Lemma no_descriptors_fall_back_to_templates_witness :
  let reference := Image 1000 1000 (fun _ _ => 0%Z) in
  let frame := Image 600 800 (fun _ _ => 0%Z) in
  let s := set_reference (Some reference) (Some reference)
             (set_annotation [(500, 500); (3, 3)] ∅ [] new_measurer) in
  let st := (Tracking [(500, 500); (3, 3)] 4 true, 1.2) in
  transfer_keypoints_robust nat (fun img _ _ => Some img)
    (fun _ => Some (Some [], None)) (fun _ _ => None) (fun _ _ => None)
    (fun _ _ _ => None) (fun _ => None) (fun _ => None)
    Auto s (Some frame) st
  = (template_match_keypoints (fun _ _ _ => None) s frame 1, st).
Proof.
  apply (no_descriptors_fall_back_to_templates (fun img _ _ => Some img)
           (fun _ => Some (Some [], None)) (fun _ _ => None)
           (fun _ _ => None) (fun _ _ _ => None) (fun _ => None)
           (fun _ => None) Auto
           (set_reference (Some (Image 1000 1000 (fun _ _ => 0%Z)))
              (Some (Image 1000 1000 (fun _ _ => 0%Z)))
              (set_annotation [(500, 500); (3, 3)] ∅ [] new_measurer))
           (Image 600 800 (fun _ _ => 0%Z))
           (Image 1000 1000 (fun _ _ => 0%Z))
           (Tracking [(500, 500); (3, 3)] 4 true, 1.2)
           [] [] None None).
  - reflexivity.
  - discriminate.
  - left. cbn. lia.
  - reflexivity.
  - reflexivity.
  - by left.
Defined.

(** ** The scale estimate *)








(** ** The fusion of the methods *)

(** The distance from a position to the weighted mean that the fusion
    forms with weights 0.7 and 0.3. *)
Lemma norm_weighted (feat temp : point) :
  norm (fst feat * 0.7 + fst temp * (1.0 - 0.7),
        snd feat * 0.7 + snd temp * (1.0 - 0.7)) feat
  = 0.3 * norm feat temp.
Proof.
  unfold norm. cbn [fst snd].
  replace (fst feat * 0.7 + fst temp * (1.0 - 0.7) - fst feat)
    with (0.3 * (fst temp - fst feat)) by lra.
  replace (snd feat * 0.7 + snd temp * (1.0 - 0.7) - snd feat)
    with (0.3 * (snd temp - snd feat)) by lra.
  replace ((0.3 * (fst temp - fst feat)) ^ 2
           + (0.3 * (snd temp - snd feat)) ^ 2)
    with (0.3 ^ 2 * ((fst feat - fst temp) ^ 2 + (snd feat - snd temp) ^ 2))
    by ring.
  rewrite sqrt_mult;
    [|apply pow2_ge_0|apply Rplus_le_le_0_compat; apply pow2_ge_0].
  rewrite sqrt_pow2; lra.
Qed.

Lemma norm_same (p : point) : norm p p = 0.
Proof.
  unfold norm. replace ((fst p - fst p) ^ 2 + (snd p - snd p) ^ 2) with 0
    by ring.
  apply sqrt_0.
Qed.

(** X30.  The fusion of [transfer_keypoints_robust] for one keypoint,
    with at least 15 good matches.  It always yields a position.  A valid
    corner position (first coordinate not -1) of one of the first 12
    keypoints is taken as it is.  Without one, a valid feature-based
    position prevails: the result is less than 7.5 pixels from it, and is
    that position itself when the template position is invalid or 25
    pixels or more away.  The template position is taken only when the
    feature-based one is invalid, and the sentinel only when both are. *)
Theorem fusion_prefers_corners_then_features (n : nat)
    (corner_points : list point) (i : nat) (feat_pt temp_pt : point)
    (Hn : (15 <= n)%nat) :
  let valid_corner c :=
    (i < 12)%nat /\ corner_points !! i = Some c /\ fst c <> -1 in
  exists p,
    fuse_point (Some n) corner_points i feat_pt temp_pt = Some p /\
    (forall c, valid_corner c -> p = c) /\
    ((forall c, ~ valid_corner c) ->
     (fst feat_pt <> -1 ->
      norm p feat_pt < 7.5 /\
      (fst temp_pt = -1 \/ 25 <= norm feat_pt temp_pt -> p = feat_pt)) /\
     (fst feat_pt = -1 -> fst temp_pt <> -1 -> p = temp_pt) /\
     (fst feat_pt = -1 -> fst temp_pt = -1 -> p = sentinel)).
Proof.
  cbv zeta. unfold fuse_point, corner_keypoints_count, min_matches.
  assert (H15 : (15 <=? n)%nat = true) by (by apply Nat.leb_le).
  assert (Hplain : forall p,
    p = (if bool_decide (fst feat_pt <> -1) then feat_pt
         else if bool_decide (fst temp_pt <> -1) then temp_pt
         else sentinel) ->
    (fst feat_pt <> -1 ->
     norm p feat_pt < 7.5 /\
     (fst temp_pt = -1 \/ 25 <= norm feat_pt temp_pt -> p = feat_pt)) /\
    (fst feat_pt = -1 -> fst temp_pt <> -1 -> p = temp_pt) /\
    (fst feat_pt = -1 -> fst temp_pt = -1 -> p = sentinel)).
  { intros p ->. repeat case_bool_decide; split_and!; try done.
    intros _. rewrite norm_same. split; [lra|done]. }
  destruct (i <? 12)%nat eqn:Hi.
  - apply Nat.ltb_lt in Hi.
    destruct (corner_points !! i) as [corner_pt|] eqn:Hc; cbv beta iota.
    + destruct (bool_decide (fst corner_pt <> -1)) eqn:Hvalid.
      * apply bool_decide_eq_true in Hvalid.
        exists corner_pt. split; [done|]. split.
        -- by intros c (_ & [= <-] & _).
        -- intros Hno. by destruct (Hno corner_pt).
      * apply bool_decide_eq_false in Hvalid.
        eexists. split; [reflexivity|]. split.
        -- by intros c (_ & [= <-] & ?).
        -- intros _. by apply Hplain.
    + destruct (bool_decide (fst feat_pt <> -1)
                && bool_decide (fst temp_pt <> -1)) eqn:Hboth.
      * apply andb_true_iff in Hboth as [Hf Ht].
        apply bool_decide_eq_true in Hf, Ht.
        cbn [mbind option_bind]. rewrite H15.
        destruct (bool_decide (norm feat_pt temp_pt < 25)) eqn:Hclose;
          [apply bool_decide_eq_true in Hclose
          |apply bool_decide_eq_false in Hclose].
        -- eexists. split; [reflexivity|]. split; [by intros c (_ & ? & _)|].
           intros _. split_and!; try done. intros _.
           rewrite norm_weighted. split; [lra|].
           intros [?|?]; [done|lra].
        -- exists feat_pt. split; [done|].
           split; [by intros c (_ & ? & _)|].
           intros _. split_and!; try done. intros _.
           rewrite norm_same. split; [lra|done].
      * eexists. split; [reflexivity|].
        split; [by intros c (_ & ? & _)|]. intros _. by apply Hplain.
  - apply Nat.ltb_ge in Hi. cbv beta iota.
    destruct (bool_decide (fst feat_pt <> -1)
              && bool_decide (fst temp_pt <> -1)) eqn:Hboth.
    + apply andb_true_iff in Hboth as [Hf Ht].
      apply bool_decide_eq_true in Hf, Ht.
      cbn [mbind option_bind]. rewrite H15.
      destruct (bool_decide (norm feat_pt temp_pt < 25)) eqn:Hclose;
        [apply bool_decide_eq_true in Hclose
        |apply bool_decide_eq_false in Hclose].
      * eexists. split; [reflexivity|]. split; [intros c (? & _); lia|].
        intros _. split_and!; try done. intros _.
        rewrite norm_weighted. split; [lra|].
        intros [?|?]; [done|lra].
      * exists feat_pt. split; [done|].
        split; [intros c (? & _); lia|].
        intros _. split_and!; try done. intros _.
        rewrite norm_same. split; [lra|done].
    + eexists. split; [reflexivity|].
      split; [intros c (? & _); lia|]. intros _. by apply Hplain.
Qed.

(** X30 for a keypoint past the corners whose two positions are 10
    pixels apart. *)
Lemma fusion_prefers_corners_then_features_witness :
  let i := 14%nat in
  let corner_points : list point := [] in
  let feat_pt : point := (100, 100) in
  let temp_pt : point := (110, 100) in
  let valid_corner c :=
    (i < 12)%nat /\ corner_points !! i = Some c /\ fst c <> -1 in
  exists p,
    fuse_point (Some 20%nat) corner_points i feat_pt temp_pt = Some p /\
    (forall c, valid_corner c -> p = c) /\
    ((forall c, ~ valid_corner c) ->
     (fst feat_pt <> -1 ->
      norm p feat_pt < 7.5 /\
      (fst temp_pt = -1 \/ 25 <= norm feat_pt temp_pt -> p = feat_pt)) /\
     (fst feat_pt = -1 -> fst temp_pt <> -1 -> p = temp_pt) /\
     (fst feat_pt = -1 -> fst temp_pt = -1 -> p = sentinel)).
Proof.
  apply (fusion_prefers_corners_then_features 20 [] 14 (100, 100)
           (110, 100)).
  lia.
Defined.
